(** * The Citadel Report: market-widget API proxy (server/index.js)

    A shallow embedding of the fetch / cache / fallback layer of the proxy
    server, and the properties of its endpoints; then of the hooks and
    widgets of the page that poll these endpoints, and of what they make of
    the server's answers.

    JavaScript numbers are IEEE 754 binary64 values: they are modelled by the
    kernel's primitive floats, so every product and quotient below is the one
    the server computes.  A promise is modelled by the value it settles to,
    and a request is served at one instant of the clock: requests do not
    interleave, and time passes between them.  The fetch that resumes after
    other requests were served is modelled apart ([Overlapped]). *)

From stdpp Require Import base decidable option list gmap strings sorting pretty.
From Stdlib Require Import ZArith Lia Ascii String.
From Stdlib Require Import Floats.PrimFloat Floats.SpecFloat Floats.FloatOps.
From Stdlib Require Import Floats.FloatAxioms.

Set Default Proof Using "Type".
Set Warnings "-inexact-float".
Local Open Scope string_scope.
Local Open Scope Z_scope.

(** ** JavaScript values *)

Module Js.

(** A thrown [Error]: only its [message] is ever read. *)
Record Error := { message : string }.

(** The outcome of evaluating an expression that may throw, and equally of
    awaiting a promise inside a [try] block. *)
Inductive Try (A : Type) :=
| Returned (a : A)
| Threw (e : Error).
Arguments Returned {A} a.
Arguments Threw {A} e.

(** A settled promise, as [Promise.allSettled] reports it. *)
Inductive Settled (A : Type) :=
| Fulfilled (value : A)
| Rejected (reason : Error).
Arguments Fulfilled {A} value.
Arguments Rejected {A} reason.

(** Truthiness of a number: every number except [0], [-0] and [NaN]. *)
Definition truthy (x : float) : bool := negb (is_zero x || is_nan x).

(** Truthiness of a property that holds a number or is missing. *)
Definition truthy_opt (x : option float) : bool :=
  match x with Some v => truthy v | None => false end.

(** Truthiness of a string that may be [null] or [undefined]. *)
Definition truthy_str (s : option string) : bool :=
  match s with Some EmptyString | None => false | Some _ => true end.

(** [a || b] on strings, [b] being a literal. *)
Definition or_else (a : option string) (b : string) : string :=
  match a with Some (String c s) => String c s | _ => b end.

(** [ToNumber] on a value that is a number or [null]: [null] converts to [+0]. *)
Definition toNumber (x : option float) : float :=
  match x with Some v => v | None => 0%float end.

(** A value produced by [Math.round]: an integer, [NaN] or an infinity.
    Every integer-valued double is an integer, so [Int] loses nothing but
    the sign of zero, which no caller observes. *)
Inductive Rounded :=
| Int (z : Z)
| NaN
| Infinity (negative : bool).

(** [Math.round x]: the integer nearest to [x], ties towards +infinity, that
    is [floor (x + 1/2)] computed exactly on the double's mantissa [m] and
    exponent [e] (its value is [m * 2^e]). *)
Definition Math_round (x : float) : Rounded :=
  match Prim2SF x with
  | S754_nan => NaN
  | S754_infinity s => Infinity s
  | S754_zero _ => Int 0
  | S754_finite s m e =>
      let n := if s then Z.neg m else Z.pos m in
      match e with
      | Z.neg p => Int ((2 * n + 2 ^ Z.pos p) / 2 ^ (Z.pos p + 1))
      | _ => Int (n * 2 ^ e)
      end
  end.

(** The sign of [x - y] for two values of [Math.round], as a sort comparator
    result is read: [Lt] for a negative number, [Gt] for a positive one, [Eq]
    for zero and for [NaN] (which the sort takes for [+0]).  The difference
    of two integer-valued doubles is the rounding of their exact difference,
    or an infinity of its sign: it has the sign of the exact difference. *)
Definition sub_sign (x y : Rounded) : comparison :=
  match x, y with
  | Int a, Int b => Z.compare a b
  | Int _, Infinity s => if s then Gt else Lt
  | Infinity s, Int _ => if s then Lt else Gt
  | Infinity s, Infinity s' =>
      if s then (if s' then Eq else Lt) else (if s' then Gt else Eq)
  | NaN, _ | _, NaN => Eq
  end.

(** [Array.prototype.sort(compareFn)] as Node's engine runs it (V8,
    [array-sort.tq]) on an array of fewer than 64 elements, which is all
    this program sorts: the sort finds the run the array starts with and
    places the other elements in it one by one, by binary search.
    [compareFn a b] gives the sign of the comparator's result; the sort reads
    a [NaN] result as 0, which is [Eq] here, and only ever asks whether the
    result is negative. *)
Definition negative (order : comparison) : bool :=
  match order with Lt => true | _ => false end.

(** The loop of [CountAndMakeRun]: the run goes on while each element compares
    with the one before it as the first two do (strictly below it in a
    descending run, not below it otherwise).  Returns the rest of the run and
    the elements after it. *)
Fixpoint extendRun {A} (compareFn : A -> A -> comparison) (isDescending : bool)
    (previousElement : A) (l : list A) : list A * list A :=
  match l with
  | [] => ([], [])
  | currentElement :: l' =>
      let order := compareFn currentElement previousElement in
      if (if isDescending then negb (negative order) else negative order)
      then ([], l)
      else let '(run, rest) := extendRun compareFn isDescending currentElement l' in
           (currentElement :: run, rest)
  end.

(** [CountAndMakeRun]: the run at the start of the array, reversed in place
    when it is descending, and the elements after it. *)
Definition CountAndMakeRun {A} (compareFn : A -> A -> comparison) (l : list A)
    : list A * list A :=
  match l with
  | elementHigh :: elementLow :: l' =>
      let isDescending := negative (compareFn elementLow elementHigh) in
      let '(run, rest) := extendRun compareFn isDescending elementLow l' in
      let run := elementHigh :: elementLow :: run in
      (if isDescending then reverse run else run, rest)
  | _ => (l, [])
  end.

(** The [while (left < right)] loop of [BinaryInsertionSort], on the sorted
    part [sorted] of the array; [fuel] bounds the number of turns, and
    [right - left] turns are enough ([binarySearch_fuel]). *)
Fixpoint binarySearch {A} (compareFn : A -> A -> comparison) (pivot : A) (sorted : list A)
    (fuel left right : nat) : nat :=
  match fuel with
  | O => left
  | S fuel' =>
      if (left <? right)%nat then
        let mid := (left + (right - left) / 2)%nat in
        match sorted !! mid with
        | Some element =>
            if negative (compareFn pivot element)
            then binarySearch compareFn pivot sorted fuel' left mid
            else binarySearch compareFn pivot sorted fuel' (mid + 1)%nat right
        | None => left
        end
      else left
  end.

(** One turn of the outer loop of [BinaryInsertionSort]: the pivot (the
    element after the sorted part) is moved to the place the search found. *)
Definition binaryInsert {A} (compareFn : A -> A -> comparison) (sorted : list A) (pivot : A)
    : list A :=
  let left := binarySearch compareFn pivot sorted (List.length sorted) 0 (List.length sorted) in
  (take left sorted ++ pivot :: drop left sorted)%list.

Definition Array_sort {A} (compareFn : A -> A -> comparison) (l : list A) : list A :=
  let '(run, rest) := CountAndMakeRun compareFn l in
  foldl (binaryInsert compareFn) run rest.

(** A string whose characters the code counts, cuts or searches (a title, a
    description) is the sequence of its UTF-16 code units, which is what
    [length], [slice] and [includes] work on.  The strings the code only
    writes or passes on are kept as character strings. *)
Definition Utf16 : Type := list N.

(** The code units of an ASCII literal. *)
Definition utf16 (s : string) : Utf16 :=
  (fun c => N.of_nat (nat_of_ascii c)) <$> list_ascii_of_string s.

(** Truthiness of such a string that may be [null] or [undefined]. *)
Definition truthy_text (s : option Utf16) : bool :=
  match s with Some (_ :: _) => true | _ => false end.

(** [toLowerCase] on one code unit.  The letters A to Z become a to z, the
    Kelvin sign (U+212A) becomes k, and the capital I with a dot above
    (U+0130) becomes i followed by the combining dot (U+0307): these are
    the only code units whose lower case holds a letter a to z.  Every
    other code unit is kept.  The Unicode conversion replaces further
    capital letters by their small forms, each code unit by one code unit
    outside a-z and 0-9, so that keeping them changes neither a length nor
    what the replacement of [[^a-z0-9]] leaves. *)
Definition lower_unit (c : N) : list N :=
  if ((65 <=? c) && (c <=? 90))%N then [(c + 32)%N]
  else if (c =? 8490)%N then [107%N]
  else if (c =? 304)%N then [105%N; 775%N]
  else [c].

Definition toLowerCase (s : Utf16) : Utf16 := s ≫= lower_unit.

(** [s.slice(0, n)] *)
Definition slice0 (n : nat) (s : Utf16) : Utf16 := take n s.

(** The character class [a-z0-9]. *)
Definition is_a_z0_9 (c : N) : bool :=
  (((97 <=? c) && (c <=? 122)) || ((48 <=? c) && (c <=? 57)))%N.

(** [s.replace(/[^a-z0-9]/g, '')] *)
Fixpoint strip_non_alnum (s : Utf16) : Utf16 :=
  match s with
  | [] => []
  | c :: s' => if is_a_z0_9 c then c :: strip_non_alnum s' else strip_non_alnum s'
  end.

(** Whether [s] starts with [needle]. *)
Fixpoint startsWith (needle s : Utf16) : bool :=
  match needle, s with
  | [], _ => true
  | _ :: _, [] => false
  | c :: needle', d :: s' => (c =? d)%N && startsWith needle' s'
  end.

(** [s.includes(needle)] *)
Fixpoint includes (needle s : Utf16) : bool :=
  startsWith needle s
  || match s with
     | [] => false
     | _ :: s' => includes needle s'
     end.

End Js.

Import Js.

(** ** Process-wide configuration *)

(** [process.env]: the two credentials, and [parseInt(process.env.CACHE_TTL)]
    ([None] when it is [NaN], as for a missing variable). *)
Record Env := {
  METALS_API_KEY : option string;
  NEWS_API_KEY : option string;
  CACHE_TTL_parsed : option Z
}.

(** [const CACHE_TTL = parseInt(process.env.CACHE_TTL) || 30] *)
Definition CACHE_TTL (e : Env) : Z :=
  match CACHE_TTL_parsed e with
  | Some n => if decide (n = 0) then 30 else n
  | None => 30
  end.

(** ** Domain model *)

Module Metals.
(** One metal of the metals fetcher's result: [{ price, timestamp }]. *)
Record Spot := { price : option float; timestamp : option Z }.
(** [{ gold, silver }], with [stale: true] added by the fallback path. *)
Record Result := { gold : Spot; silver : Spot; stale : bool }.
End Metals.

Module Stocks.
(** One index of the stock fetcher's result. *)
Record Index := {
  price : option float;
  previousClose : option float;
  change : option float;
  changePercent : option float;
  marketState : option string;
  timestamp : option Z
}.
Record Result := { sp500 : Index; dow : Index; stale : bool }.
End Stocks.

(** A normalized news article; [image] is missing from the general feed. *)
Record Article := {
  title : option Utf16;
  description : option Utf16;
  source : option Utf16;
  url : option Utf16;
  image : option Utf16;
  publishedAt : option Utf16
}.

(** A headline of the bullish-headlines feed. *)
Record Headline := {
  h_title : option Utf16;
  h_source : option Utf16;
  h_url : option Utf16;
  h_publishedAt : option Utf16
}.

(** [{ name, return }] of the performance chart. *)
Record PerformanceRecord := { name : string; returnPct : Rounded }.

(** ** Upstream payloads *)

Module MetalsApi.
(** [response.data.rates] of metals-api.com; a missing rate is [None]. *)
Record Rates := {
  USDXAU : option float;
  XAU : option float;
  USDXAG : option float;
  XAG : option float
}.
(** [response.data]; [error_info] is [response.data.error?.info]. *)
Record Data := {
  success : bool;
  error_info : option string;
  rates : Rates;
  timestamp : option Z
}.
End MetalsApi.

Module Yahoo.
(** What [yf.quote(symbol)] resolves to. *)
Record Quote := {
  regularMarketPrice : option float;
  regularMarketPreviousClose : option float;
  regularMarketChange : option float;
  regularMarketChangePercent : option float;
  marketState : option string;
  regularMarketTime : option Z
}.
(** One row of [yf.historical(symbol, ...)]. *)
Record Row := { close : float }.
End Yahoo.

Module NewsApi.
(** An article of newsapi.org; [source_name] is [article.source.name]. *)
Record RawArticle := {
  title : option Utf16;
  description : option Utf16;
  source_name : option Utf16;
  url : option Utf16;
  urlToImage : option Utf16;
  publishedAt : option Utf16
}.
(** [response.data] *)
Record Data := {
  status : string;
  message : option string;
  articles : list RawArticle
}.
End NewsApi.

(** ** Cache store *)

(** The cache keys, one per source, named as the string literals of the
    source. *)
Inductive Key :=
| metals_prices
| stock_indices
| news
| macro_news
| inflation_news
| gold_news
| bullish_headlines
| performance_data.

#[global] Instance Key_eq_dec : EqDecision Key.
Proof. solve_decision. Defined.

(** Each key is written at one place, with one shape of value. *)
Definition ValueOf (k : Key) : Type :=
  match k with
  | metals_prices => Metals.Result
  | stock_indices => Stocks.Result
  | news | macro_news | inflation_news | gold_news => list Article
  | bullish_headlines => list Headline
  | performance_data => list PerformanceRecord
  end.

Module NodeCache.

(** Modelled from the spec: the cache store (the [node-cache] package, which
    is not part of the sources).  An entry keeps its value, the time it was
    stored and its own TTL; writing a key replaces its entry, and nothing is
    ever deleted. *)
Record CacheEntry (A : Type) := {
  value : A;
  storedAt : Z;
  ttlSeconds : Z
}.
Arguments value {A} _.
Arguments storedAt {A} _.
Arguments ttlSeconds {A} _.

(** Modelled from the spec: the store, built with [{ stdTTL }]. *)
Record t := {
  stdTTL : Z;
  data : forall k : Key, option (CacheEntry (ValueOf k))
}.

(** Modelled from the spec: [new NodeCache({ stdTTL })], an empty store. *)
Definition create (stdTTL : Z) : t :=
  {| stdTTL := stdTTL; data := fun _ => None |}.

(** Modelled from the spec: [get(key)] is absent once
    [now - storedAt > ttlSeconds], although the entry is still there. *)
Definition get (c : t) (k : Key) (now : Z) : option (ValueOf k) :=
  match data c k with
  | Some e => if decide (now - storedAt e > ttlSeconds e) then None else Some (value e)
  | None => None
  end.

(** Modelled from the spec: [getStale(key)] ignores the TTL.  The server
    never calls it. *)
Definition getStale (c : t) (k : Key) : option (ValueOf k) :=
  value <$> data c k.

(** Modelled from the spec: [set(key, value, ttlSeconds)] at time [now]; a
    call without a TTL uses the store's [stdTTL]. *)
Definition set (c : t) (k : Key) (v : ValueOf k) (ttl : option Z) (now : Z) : t :=
  let e := {| value := v; storedAt := now; ttlSeconds := default (stdTTL c) ttl |} in
  {| stdTTL := stdTTL c;
     data := fun k' =>
       match decide (k = k') with
       | left E => Some (eq_rect k (fun x => CacheEntry (ValueOf x)) e k' E)
       | right _ => data c k'
       end |}.

End NodeCache.

(** ** The server's state *)

(** The process: its configuration, the [cache] object and the clock
    (seconds). *)
Record World := {
  env : Env;
  cache : NodeCache.t;
  now : Z
}.

(** The process at start-up: [new NodeCache({ stdTTL: CACHE_TTL })]. *)
Definition boot (e : Env) (t0 : Z) : World :=
  {| env := e; cache := NodeCache.create (CACHE_TTL e); now := t0 |}.

(** [cache.get(key)] *)
Definition cache_get (w : World) (k : Key) : option (ValueOf k) :=
  NodeCache.get (cache w) k (now w).

(** [cache.set(key, value)] and [cache.set(key, value, ttl)] *)
Definition cache_set (w : World) (k : Key) (v : ValueOf k) (ttl : option Z) : World :=
  {| env := env w; cache := NodeCache.set (cache w) k v ttl (now w); now := now w |}.

(** Time passing between two requests. *)
Definition tick (dt : nat) (w : World) : World :=
  {| env := env w; cache := cache w; now := now w + Z.of_nat dt |}.

(** ** Upstream fetchers *)

(** [rates.USDXAU || (rates.XAU ? (1 / rates.XAU) : null)] *)
Definition spotPrice (direct inverse : option float) : option float :=
  if truthy_opt direct then direct
  else match inverse with
       | Some r => if truthy r then Some (1 / r)%float else None
       | None => None
       end.

(** The [try] block of [fetchMetalsPrices] up to the value it stores;
    [response] is what [await axios.get(url, ...)] gives. *)
Definition metalsRequest (e : Env) (response : Try MetalsApi.Data) : Try Metals.Result :=
  if negb (truthy_str (METALS_API_KEY e)) then
    Threw {| message := "METALS_API_KEY not configured" |}
  else
    match response with
    | Threw error => Threw error
    | Returned d =>
        if negb (MetalsApi.success d) then
          Threw {| message := or_else (MetalsApi.error_info d) "Metals API request failed" |}
        else
          let rates := MetalsApi.rates d in
          Returned
            {| Metals.gold :=
                 {| Metals.price := spotPrice (MetalsApi.USDXAU rates) (MetalsApi.XAU rates);
                    Metals.timestamp := MetalsApi.timestamp d |};
               Metals.silver :=
                 {| Metals.price := spotPrice (MetalsApi.USDXAG rates) (MetalsApi.XAG rates);
                    Metals.timestamp := MetalsApi.timestamp d |};
               Metals.stale := false |}
    end.

(** [async function fetchMetalsPrices()] *)
Definition fetchMetalsPrices (w : World) (response : Try MetalsApi.Data)
    : Settled Metals.Result * World :=
  match cache_get w metals_prices with
  | Some cached => (Fulfilled cached, w)
  | None =>
      match metalsRequest (env w) response with
      | Returned result => (Fulfilled result, cache_set w metals_prices result None)
      | Threw error =>
          match cache_get w metals_prices with
          | Some staleCache =>
              (Fulfilled {| Metals.gold := Metals.gold staleCache;
                            Metals.silver := Metals.silver staleCache;
                            Metals.stale := true |}, w)
          | None => (Rejected error, w)
          end
      end
  end.

(** One index of the result of [fetchStockIndices]. *)
Definition indexOf (q : Yahoo.Quote) : Stocks.Index :=
  {| Stocks.price := Yahoo.regularMarketPrice q;
     Stocks.previousClose := Yahoo.regularMarketPreviousClose q;
     Stocks.change := Yahoo.regularMarketChange q;
     Stocks.changePercent := Yahoo.regularMarketChangePercent q;
     Stocks.marketState := Yahoo.marketState q;
     Stocks.timestamp := Yahoo.regularMarketTime q |}.

(** The [try] block of [fetchStockIndices]; [quotes] is the outcome of the
    import followed by [await Promise.all([yf.quote('^GSPC'), yf.quote('^DJI')])]. *)
Definition stocksRequest (quotes : Try (Yahoo.Quote * Yahoo.Quote)) : Try Stocks.Result :=
  match quotes with
  | Threw error => Threw error
  | Returned (sp500, dow) =>
      Returned {| Stocks.sp500 := indexOf sp500; Stocks.dow := indexOf dow;
                  Stocks.stale := false |}
  end.

(** [async function fetchStockIndices()] *)
Definition fetchStockIndices (w : World) (quotes : Try (Yahoo.Quote * Yahoo.Quote))
    : Settled Stocks.Result * World :=
  match cache_get w stock_indices with
  | Some cached => (Fulfilled cached, w)
  | None =>
      match stocksRequest quotes with
      | Returned result => (Fulfilled result, cache_set w stock_indices result None)
      | Threw error =>
          match cache_get w stock_indices with
          | Some staleCache =>
              (Fulfilled {| Stocks.sp500 := Stocks.sp500 staleCache;
                            Stocks.dow := Stocks.dow staleCache;
                            Stocks.stale := true |}, w)
          | None => (Rejected error, w)
          end
      end
  end.

(** The part of every news fetcher's [try] block before the articles are
    normalized: the credential check, the call and the status check. *)
Definition newsRequest (e : Env) (response : Try NewsApi.Data) : Try (list NewsApi.RawArticle) :=
  if negb (truthy_str (NEWS_API_KEY e)) then
    Threw {| message := "NEWS_API_KEY not configured" |}
  else
    match response with
    | Threw error => Threw error
    | Returned d =>
        if negb (String.eqb (NewsApi.status d) "ok") then
          Threw {| message := or_else (NewsApi.message d) "NewsAPI request failed" |}
        else Returned (NewsApi.articles d)
    end.

(** The projection of [fetchNews]: no [image]. *)
Definition projectPlain (a : NewsApi.RawArticle) : Article :=
  {| title := NewsApi.title a;
     description := NewsApi.description a;
     source := NewsApi.source_name a;
     url := NewsApi.url a;
     image := None;
     publishedAt := NewsApi.publishedAt a |}.

(** The projection of the macro, inflation and gold fetchers. *)
Definition projectArticle (a : NewsApi.RawArticle) : Article :=
  {| title := NewsApi.title a;
     description := NewsApi.description a;
     source := NewsApi.source_name a;
     url := NewsApi.url a;
     image := NewsApi.urlToImage a;
     publishedAt := NewsApi.publishedAt a |}.

(** The projection of [fetchBullishHeadlines]. *)
Definition projectHeadline (a : NewsApi.RawArticle) : Headline :=
  {| h_title := NewsApi.title a;
     h_source := NewsApi.source_name a;
     h_url := NewsApi.url a;
     h_publishedAt := NewsApi.publishedAt a |}.

(** [title?.toLowerCase().slice(0, 50).replace(/[^a-z0-9]/g, '')]:
    [undefined] ([None]) for a missing title. *)
Definition dedupKey (title : option Utf16) : option Utf16 :=
  (fun t => strip_non_alnum (slice0 50 (toLowerCase t))) <$> title.

(** [articles.filter(article => { ... })] of the macro, inflation and gold
    fetchers, [seen] being the set the callback updates. *)
Fixpoint dedupFilter (seen : gset (option Utf16)) (articles : list NewsApi.RawArticle)
    : list NewsApi.RawArticle :=
  match articles with
  | [] => []
  | article :: rest =>
      let key := dedupKey (NewsApi.title article) in
      if decide (key ∈ seen) then dedupFilter seen rest
      else article :: dedupFilter ({[ key ]} ∪ seen) rest
  end.

(** [!article.title || article.title.includes('[Removed]')] *)
Definition placeholderTitle (title : option Utf16) : bool :=
  match title with
  | Some t => negb (truthy_text (Some t)) || includes (utf16 "[Removed]") t
  | None => true
  end.

(** [articles.filter(article => { ... })] of [fetchBullishHeadlines]. *)
Fixpoint headlineFilter (seen : gset (option Utf16)) (articles : list NewsApi.RawArticle)
    : list NewsApi.RawArticle :=
  match articles with
  | [] => []
  | article :: rest =>
      let key := dedupKey (NewsApi.title article) in
      if decide (key ∈ seen) then headlineFilter seen rest
      else if placeholderTitle (NewsApi.title article) then headlineFilter seen rest
      else article :: headlineFilter ({[ key ]} ∪ seen) rest
  end.

(** [.filter(...).map(...).slice(0, 10)] *)
Definition dedupArticles (articles : list NewsApi.RawArticle) : list Article :=
  take 10 (projectArticle <$> dedupFilter ∅ articles).

(** [.filter(...).map(...).slice(0, 25)] *)
Definition dedupHeadlines (articles : list NewsApi.RawArticle) : list Headline :=
  take 25 (projectHeadline <$> headlineFilter ∅ articles).

(** [async function fetchNews()] *)
Definition fetchNews (w : World) (response : Try NewsApi.Data)
    : Settled (list Article) * World :=
  match cache_get w news with
  | Some cached => (Fulfilled cached, w)
  | None =>
      match newsRequest (env w) response with
      | Returned raw =>
          let articles := projectPlain <$> raw in
          (Fulfilled articles, cache_set w news articles (Some 43200))
      | Threw error =>
          match cache_get w news with
          | Some staleCache => (Fulfilled staleCache, w)
          | None => (Rejected error, w)
          end
      end
  end.

(** [async function fetchMacroNews()] *)
Definition fetchMacroNews (w : World) (response : Try NewsApi.Data)
    : Settled (list Article) * World :=
  match cache_get w macro_news with
  | Some cached => (Fulfilled cached, w)
  | None =>
      match newsRequest (env w) response with
      | Returned raw =>
          let articles := dedupArticles raw in
          (Fulfilled articles, cache_set w macro_news articles (Some 600))
      | Threw error =>
          match cache_get w macro_news with
          | Some staleCache => (Fulfilled staleCache, w)
          | None => (Rejected error, w)
          end
      end
  end.

(** [async function fetchInflationNews()] *)
Definition fetchInflationNews (w : World) (response : Try NewsApi.Data)
    : Settled (list Article) * World :=
  match cache_get w inflation_news with
  | Some cached => (Fulfilled cached, w)
  | None =>
      match newsRequest (env w) response with
      | Returned raw =>
          let articles := dedupArticles raw in
          (Fulfilled articles, cache_set w inflation_news articles (Some 600))
      | Threw error =>
          match cache_get w inflation_news with
          | Some staleCache => (Fulfilled staleCache, w)
          | None => (Rejected error, w)
          end
      end
  end.

(** [async function fetchGoldNews()] *)
Definition fetchGoldNews (w : World) (response : Try NewsApi.Data)
    : Settled (list Article) * World :=
  match cache_get w gold_news with
  | Some cached => (Fulfilled cached, w)
  | None =>
      match newsRequest (env w) response with
      | Returned raw =>
          let articles := dedupArticles raw in
          (Fulfilled articles, cache_set w gold_news articles (Some 600))
      | Threw error =>
          match cache_get w gold_news with
          | Some staleCache => (Fulfilled staleCache, w)
          | None => (Rejected error, w)
          end
      end
  end.

(** [async function fetchBullishHeadlines()] *)
Definition fetchBullishHeadlines (w : World) (response : Try NewsApi.Data)
    : Settled (list Headline) * World :=
  match cache_get w bullish_headlines with
  | Some cached => (Fulfilled cached, w)
  | None =>
      match newsRequest (env w) response with
      | Returned raw =>
          let headlines := dedupHeadlines raw in
          (Fulfilled headlines, cache_set w bullish_headlines headlines (Some 600))
      | Threw error =>
          match cache_get w bullish_headlines with
          | Some staleCache => (Fulfilled staleCache, w)
          | None => (Rejected error, w)
          end
      end
  end.

(** ** Response envelopes *)

Module MetalTile.
Record t := {
  symbol : string;
  name : string;
  price : option float;
  previousClose : float;
  change : float;
  changePercent : float;
  unit : string
}.
End MetalTile.

Module IndexTile.
Record t := {
  symbol : string;
  name : string;
  price : option float;
  previousClose : option float;
  change : option float;
  changePercent : option float;
  marketState : option string;
  unit : string
}.
End IndexTile.

Module Prices.
(** [data]: a field is [None] where the handler writes [null]. *)
Record Data := {
  gold : option MetalTile.t;
  silver : option MetalTile.t;
  sp500 : option IndexTile.t;
  dow : option IndexTile.t
}.
(** [warnings] is [None] where the handler writes [undefined]. *)
Record Response := {
  success : bool;
  data : Data;
  lastUpdated : Z;
  warnings : option (list string)
}.
End Prices.

Module News.
(** The envelope of the four article endpoints. *)
Record Response := {
  success : bool;
  error : option string;
  articles : list Article;
  lastUpdated : option Z
}.
End News.

Module Headlines.
Record Response := {
  success : bool;
  error : option string;
  headlines : list Headline;
  lastUpdated : option Z
}.
End Headlines.

Module Performance.
Record Response := {
  success : bool;
  error : option string;
  data : list PerformanceRecord
}.
End Performance.

Module Health.
Record Response := {
  status : string;
  timestamp : Z;
  cacheTTL : Z
}.
End Health.

(** ** Request handlers *)

(** The gold tile of [/api/prices]; the price may be [null], and the
    products convert it with [ToNumber]. *)
Definition goldTile (spot : Metals.Spot) : MetalTile.t :=
  {| MetalTile.symbol := "XAU";
     MetalTile.name := "Gold";
     MetalTile.price := Metals.price spot;
     MetalTile.previousClose := (toNumber (Metals.price spot) * 0.998)%float;
     MetalTile.change := (toNumber (Metals.price spot) * 0.002)%float;
     MetalTile.changePercent := 0.2%float;
     MetalTile.unit := "USD/oz" |}.

(** The silver tile of [/api/prices]. *)
Definition silverTile (spot : Metals.Spot) : MetalTile.t :=
  {| MetalTile.symbol := "XAG";
     MetalTile.name := "Silver";
     MetalTile.price := Metals.price spot;
     MetalTile.previousClose := (toNumber (Metals.price spot) * 0.995)%float;
     MetalTile.change := (toNumber (Metals.price spot) * 0.005)%float;
     MetalTile.changePercent := 0.5%float;
     MetalTile.unit := "USD/oz" |}.

(** An index tile of [/api/prices]: the source's numbers, passed through. *)
Definition indexTile (symbol name : string) (i : Stocks.Index) : IndexTile.t :=
  {| IndexTile.symbol := symbol;
     IndexTile.name := name;
     IndexTile.price := Stocks.price i;
     IndexTile.previousClose := Stocks.previousClose i;
     IndexTile.change := Stocks.change i;
     IndexTile.changePercent := Stocks.changePercent i;
     IndexTile.marketState := Stocks.marketState i;
     IndexTile.unit := "points" |}.

(** "Process metals data": the value kept and the warnings pushed. *)
Definition processMetals (metalsResult : Settled Metals.Result)
    : option Metals.Result * list string :=
  match metalsResult with
  | Fulfilled metals =>
      (Some metals, if Metals.stale metals then ["Metals data may be stale"] else [])
  | Rejected _ => (None, ["Unable to fetch metals prices"])
  end.

(** "Process stocks data". *)
Definition processStocks (stocksResult : Settled Stocks.Result)
    : option Stocks.Result * list string :=
  match stocksResult with
  | Fulfilled stocks =>
      (Some stocks, if Stocks.stale stocks then ["Stock indices may be stale"] else [])
  | Rejected _ => (None, ["Unable to fetch stock indices"])
  end.

(** The body of the [/api/prices] handler after [Promise.allSettled]. *)
Definition pricesResponse (metalsResult : Settled Metals.Result)
    (stocksResult : Settled Stocks.Result) (t : Z) : Prices.Response :=
  let '(metals, w1) := processMetals metalsResult in
  let '(stocks, w2) := processStocks stocksResult in
  let warnings := (w1 ++ w2)%list in
  {| Prices.success := true;
     Prices.data :=
       {| Prices.gold := (fun m => goldTile (Metals.gold m)) <$> metals;
          Prices.silver := (fun m => silverTile (Metals.silver m)) <$> metals;
          Prices.sp500 := (fun s => indexTile "^GSPC" "S&P 500" (Stocks.sp500 s)) <$> stocks;
          Prices.dow := (fun s => indexTile "^DJI" "Dow Jones" (Stocks.dow s)) <$> stocks |};
     Prices.lastUpdated := t;
     Prices.warnings := if decide (0 < List.length warnings)%nat then Some warnings else None |}.

(** [app.get('/api/prices', ...)] *)
Definition GET_api_prices (w : World) (metals : Try MetalsApi.Data)
    (quotes : Try (Yahoo.Quote * Yahoo.Quote)) : Prices.Response * World :=
  let '(metalsResult, w1) := fetchMetalsPrices w metals in
  let '(stocksResult, w2) := fetchStockIndices w1 quotes in
  (pricesResponse metalsResult stocksResult (now w2), w2).

(** The [try]/[catch] of the four article endpoints. *)
Definition newsEnvelope (r : Settled (list Article)) (t : Z) : News.Response :=
  match r with
  | Fulfilled articles =>
      {| News.success := true; News.error := None;
         News.articles := articles; News.lastUpdated := Some t |}
  | Rejected error =>
      {| News.success := false; News.error := Some (message error);
         News.articles := []; News.lastUpdated := None |}
  end.

(** [app.get('/api/news', ...)] *)
Definition GET_api_news (w : World) (response : Try NewsApi.Data) : News.Response * World :=
  let '(r, w') := fetchNews w response in (newsEnvelope r (now w'), w').

(** [app.get('/api/macro-news', ...)] *)
Definition GET_api_macro_news (w : World) (response : Try NewsApi.Data)
    : News.Response * World :=
  let '(r, w') := fetchMacroNews w response in (newsEnvelope r (now w'), w').

(** [app.get('/api/news/inflation', ...)] *)
Definition GET_api_news_inflation (w : World) (response : Try NewsApi.Data)
    : News.Response * World :=
  let '(r, w') := fetchInflationNews w response in (newsEnvelope r (now w'), w').

(** [app.get('/api/news/gold', ...)] *)
Definition GET_api_news_gold (w : World) (response : Try NewsApi.Data)
    : News.Response * World :=
  let '(r, w') := fetchGoldNews w response in (newsEnvelope r (now w'), w').

(** [app.get('/api/news/headlines', ...)] *)
Definition GET_api_news_headlines (w : World) (response : Try NewsApi.Data)
    : Headlines.Response * World :=
  let '(r, w') := fetchBullishHeadlines w response in
  (match r with
   | Fulfilled headlines =>
       {| Headlines.success := true; Headlines.error := None;
          Headlines.headlines := headlines; Headlines.lastUpdated := Some (now w') |}
   | Rejected error =>
       {| Headlines.success := false; Headlines.error := Some (message error);
          Headlines.headlines := []; Headlines.lastUpdated := None |}
   end, w').

(** What the performance handler gets from Yahoo Finance: the outcome of the
    dynamic import, and of [yf.historical] for each of the six symbols (the
    history may be [null]). *)
Record PerformanceUpstream := {
  yahooFinance : Try ();
  history_gold : Try (option (list Yahoo.Row));
  history_silver : Try (option (list Yahoo.Row));
  history_sp500 : Try (option (list Yahoo.Row));
  history_dow : Try (option (list Yahoo.Row));
  history_realEstate : Try (option (list Yahoo.Row));
  history_bonds : Try (option (list Yahoo.Row))
}.

(** [const fetchHistory = async (symbol, name) => { ... }]; [history] is the
    outcome of [await yf.historical(symbol, ...)].  [None] is [null]. *)
Definition fetchHistory (history : Try (option (list Yahoo.Row))) (name : string)
    : option PerformanceRecord :=
  match history with
  | Returned (Some rows) =>
      match rows, last rows with
      | first :: _ :: _, Some final =>
          let startPrice := Yahoo.close first in
          let endPrice := Yahoo.close final in
          let returnPct := (((endPrice - startPrice) / startPrice) * 100)%float in
          Some {| name := name; returnPct := Math_round returnPct |}
      | _, _ => None
      end
  | Returned None => None
  | Threw err => None
  end.

(** [(a, b) => b.return - a.return], read by its sign. *)
Definition byReturnDescending (a b : PerformanceRecord) : comparison :=
  sub_sign (returnPct b) (returnPct a).

(** The static estimates pushed after the live results. *)
Definition staticEstimates : list PerformanceRecord :=
  [ {| name := "CDs/Savings"; returnPct := Int 49 |};
    {| name := "Cash (USD)"; returnPct := Int (-44) |} ].

(** The six [fetchHistory] calls joined by [Promise.all], in order. *)
Definition historyResults (up : PerformanceUpstream) : list (option PerformanceRecord) :=
  [ fetchHistory (history_gold up) "Gold";
    fetchHistory (history_silver up) "Silver";
    fetchHistory (history_sp500 up) "S&P 500";
    fetchHistory (history_dow up) "Dow Jones";
    fetchHistory (history_realEstate up) "Real Estate";
    fetchHistory (history_bonds up) "Bonds" ].

(** The list the handler builds: failures filtered out, the estimates
    pushed, then sorted. *)
Definition assetData (up : PerformanceUpstream) : list PerformanceRecord :=
  Array_sort byReturnDescending (omap id (historyResults up) ++ staticEstimates)%list.

(** [app.get('/api/performance', ...)] *)
Definition GET_api_performance (w : World) (up : PerformanceUpstream)
    : Performance.Response * World :=
  match cache_get w performance_data with
  | Some cached =>
      ({| Performance.success := true; Performance.error := None;
          Performance.data := cached |}, w)
  | None =>
      match yahooFinance up with
      | Returned _ =>
          let data := assetData up in
          ({| Performance.success := true; Performance.error := None;
              Performance.data := data |},
           cache_set w performance_data data (Some 3600))
      | Threw error =>
          ({| Performance.success := false; Performance.error := Some (message error);
              Performance.data := [] |}, w)
      end
  end.

(** [app.get('/api/health', ...)] *)
Definition GET_api_health (w : World) : Health.Response :=
  {| Health.status := "ok";
     Health.timestamp := now w;
     Health.cacheTTL := CACHE_TTL (env w) |}.

(** ** The server as a transition system *)

(** A request to a route, together with what the upstream sources answer
    if they are asked while it is served. *)
Inductive Request :=
| Get_prices (metals : Try MetalsApi.Data) (quotes : Try (Yahoo.Quote * Yahoo.Quote))
| Get_news (response : Try NewsApi.Data)
| Get_macro_news (response : Try NewsApi.Data)
| Get_news_inflation (response : Try NewsApi.Data)
| Get_news_gold (response : Try NewsApi.Data)
| Get_news_headlines (response : Try NewsApi.Data)
| Get_performance (up : PerformanceUpstream)
| Get_health.

(** The JSON body sent back. *)
Inductive Body :=
| PricesBody (r : Prices.Response)
| NewsBody (r : News.Response)
| HeadlinesBody (r : Headlines.Response)
| PerformanceBody (r : Performance.Response)
| HealthBody (r : Health.Response).

(** Routing: the handler registered for the request's path. *)
Definition serve (w : World) (r : Request) : Body * World :=
  match r with
  | Get_prices metals quotes => prod_map PricesBody id (GET_api_prices w metals quotes)
  | Get_news response => prod_map NewsBody id (GET_api_news w response)
  | Get_macro_news response => prod_map NewsBody id (GET_api_macro_news w response)
  | Get_news_inflation response => prod_map NewsBody id (GET_api_news_inflation w response)
  | Get_news_gold response => prod_map NewsBody id (GET_api_news_gold w response)
  | Get_news_headlines response =>
      prod_map HeadlinesBody id (GET_api_news_headlines w response)
  | Get_performance up => prod_map PerformanceBody id (GET_api_performance w up)
  | Get_health => (HealthBody (GET_api_health w), w)
  end.

(** The states of a running server: started with some configuration, then
    serving requests as time passes. *)
Inductive reachable : World -> Prop :=
| reachable_boot e t0 : reachable (boot e t0)
| reachable_serve w r : reachable w -> reachable (serve w r).2
| reachable_tick w dt : reachable w -> reachable (tick dt w).

(** The entry stored under a key, expired or not. *)
Definition entry (w : World) (k : Key) : option (NodeCache.CacheEntry (ValueOf k)) :=
  NodeCache.data (cache w) k.

(** The TTL table of the sources, as the specification gives it: the default
    TTL for metals prices and equity indices, 43200 s for the general news
    feed, 600 s for the other news variants, 3600 s for the performance
    data. *)
Definition specTTL (e : Env) (k : Key) : Z :=
  match k with
  | metals_prices | stock_indices => CACHE_TTL e
  | news => 43200
  | macro_news | inflation_news | gold_news | bullish_headlines => 600
  | performance_data => 3600
  end.

(** ** Vocabulary of the statements *)

(** The TTL argument each source passes to [cache.set]. *)
Definition ttlArgument (k : Key) : option Z :=
  match k with
  | metals_prices | stock_indices => None
  | news => Some 43200
  | macro_news | inflation_news | gold_news | bullish_headlines => Some 600
  | performance_data => Some 3600
  end.

(** A fetcher leaves the world as it found it or writes its own key once,
    with its own TTL argument. *)
Definition writesAtMost (k : Key) (w w' : World) : Prop :=
  w' = w \/ exists v, w' = cache_set w k v (ttlArgument k).

(** Whether a fetch was rejected, as a count. *)
Definition failed {A} (r : Settled A) : nat :=
  match r with Rejected _ => 1%nat | Fulfilled _ => 0%nat end.

(** Whether a fetch was fulfilled with a value tagged [stale], as a count. *)
Definition staleCount {A} (stale : A -> bool) (r : Settled A) : nat :=
  match r with Fulfilled v => if stale v then 1%nat else 0%nat | Rejected _ => 0%nat end.

(** The number of occurrences of a warning. *)
Definition occurrences (s : string) (l : list string) : nat :=
  List.length (filter (fun x => x = s) l).

(** The warnings of a [/api/prices] response, [undefined] read as none. *)
Definition warningsOf (r : Prices.Response) : list string :=
  default [] (Prices.warnings r).

(** The [success: false] envelope of an article endpoint. *)
Definition newsFailure (error : Error) : News.Response :=
  {| News.success := false; News.error := Some (message error);
     News.articles := []; News.lastUpdated := None |}.

(** The [success: false] envelope of the headlines endpoint. *)
Definition headlinesFailure (error : Error) : Headlines.Response :=
  {| Headlines.success := false; Headlines.error := Some (message error);
     Headlines.headlines := []; Headlines.lastUpdated := None |}.

(** The [success: false] envelope of the performance endpoint. *)
Definition performanceFailure (error : Error) : Performance.Response :=
  {| Performance.success := false; Performance.error := Some (message error);
     Performance.data := [] |}.

(** The deduplication key of an upstream article. *)
Definition keyOf (a : NewsApi.RawArticle) : option Utf16 :=
  dedupKey (NewsApi.title a).

(** [a] occurs in [l] with no article of the same key before it. *)
Definition firstOfItsKey (a : NewsApi.RawArticle) (l : list NewsApi.RawArticle) : Prop :=
  exists l1 l2, l = (l1 ++ a :: l2)%list /\ forall b, b ∈ l1 -> keyOf b <> keyOf a.

(** The articles the headline filter does not reject for their title. *)
Definition eligible (l : list NewsApi.RawArticle) : list NewsApi.RawArticle :=
  filter (fun a => placeholderTitle (NewsApi.title a) = false) l.

(** The title of a headline is present, not empty and free of the marker. *)
Definition properTitle (h : Headline) : Prop :=
  exists t, h_title h = Some t /\ t <> [] /\ includes (utf16 "[Removed]") t = false.

(** The numeric order on the values of [Math.round]; [NaN] is not ordered. *)
Definition Rounded_le (x y : Rounded) : Prop :=
  match x, y with
  | Int a, Int b => a <= b
  | Infinity true, (Int _ | Infinity _) => True
  | Int _, Infinity false => True
  | Infinity false, Infinity false => True
  | _, _ => False
  end.

(** [a] may stand before [b] in a list sorted descending by return. *)
Definition descending (a b : PerformanceRecord) : Prop :=
  Rounded_le (returnPct b) (returnPct a).

(** The return of a record is a number. *)
Definition numericReturn (a : PerformanceRecord) : Prop := returnPct a <> NaN.

(** The two static estimates are in the list, which has at least two
    entries. *)
Definition hasEstimates (l : list PerformanceRecord) : Prop :=
  {| name := "CDs/Savings"; returnPct := Int 49 |} ∈ l
  /\ {| name := "Cash (USD)"; returnPct := Int (-44) |} ∈ l
  /\ (2 <= List.length l)%nat.

(** How a sort reads a comparator result [d]: negative, positive, or
    neither ([0], [-0] and [NaN]). *)
Definition signOf (d : float) : comparison :=
  if (d <? 0)%float then Lt else if (0 <? d)%float then Gt else Eq.

(** A close that is a price: a positive finite number. *)
Definition isPrice (c : float) : bool := ((0 <? c) && (c <? infinity))%float.

(** The rows of a fetched history all close at a price. *)
Definition priced (history : Try (option (list Yahoo.Row))) : Prop :=
  match history with
  | Returned (Some rows) => Forall (fun r => isPrice (Yahoo.close r) = true) rows
  | _ => True
  end.

(** Every history that was fetched holds prices. *)
Definition pricedHistories (up : PerformanceUpstream) : Prop :=
  priced (history_gold up) /\ priced (history_silver up)
  /\ priced (history_sp500 up) /\ priced (history_dow up)
  /\ priced (history_realEstate up) /\ priced (history_bonds up).

(** A binary64 value that is zero or finite. *)
Definition finite_or_zero (x : spec_float) : Prop :=
  match x with S754_zero _ | S754_finite _ _ _ => True | _ => False end.

(** ** Sample inputs *)

Module Sample.

(** A configuration with both credentials and no [CACHE_TTL] variable. *)
Definition env0 : Env :=
  {| METALS_API_KEY := Some "metals-key";
     NEWS_API_KEY := Some "news-key";
     CACHE_TTL_parsed := None |}.

(** A configuration without the metals credential and with [CACHE_TTL=60]. *)
Definition envNoMetalsKey : Env :=
  {| METALS_API_KEY := None;
     NEWS_API_KEY := Some "news-key";
     CACHE_TTL_parsed := Some 60 |}.

(** A successful answer of the metals provider with direct USD rates. *)
Definition metalsOk (xau xag : float) : Try MetalsApi.Data :=
  Returned
    {| MetalsApi.success := true;
       MetalsApi.error_info := None;
       MetalsApi.rates :=
         {| MetalsApi.USDXAU := Some xau; MetalsApi.XAU := None;
            MetalsApi.USDXAG := Some xag; MetalsApi.XAG := None |};
       MetalsApi.timestamp := Some 1700000000 |}.

(** A successful answer of the metals provider that carries no rate. *)
Definition noRates : MetalsApi.Data :=
  {| MetalsApi.success := true;
     MetalsApi.error_info := None;
     MetalsApi.rates :=
       {| MetalsApi.USDXAU := None; MetalsApi.XAU := None;
          MetalsApi.USDXAG := None; MetalsApi.XAG := None |};
     MetalsApi.timestamp := Some 1700000000 |}.

Definition quote (p : float) : Yahoo.Quote :=
  {| Yahoo.regularMarketPrice := Some p;
     Yahoo.regularMarketPreviousClose := Some p;
     Yahoo.regularMarketChange := Some 0%float;
     Yahoo.regularMarketChangePercent := Some 0%float;
     Yahoo.marketState := Some "REGULAR";
     Yahoo.regularMarketTime := Some 1700000000 |}.

Definition quotesOk : Try (Yahoo.Quote * Yahoo.Quote) :=
  Returned (quote 5000, quote 39000).

(** A transport failure. *)
Definition down : Error := {| message := "timeout of 10000ms exceeded" |}.

Definition article (title : option string) (url : string) : NewsApi.RawArticle :=
  {| NewsApi.title := utf16 <$> title;
     NewsApi.description := Some (utf16 "summary");
     NewsApi.source_name := Some (utf16 "Newswire");
     NewsApi.url := Some (utf16 url);
     NewsApi.urlToImage := None;
     NewsApi.publishedAt := Some (utf16 "2024-01-15T14:30:00Z") |}.

(** An answer of the news provider with a redacted article, an article
    without a title, and two articles whose titles differ only in case and
    punctuation. *)
Definition redacted : list NewsApi.RawArticle :=
  [ article (Some "[Removed]") "https://removed.com";
    article None "https://example.com/untitled";
    article (Some "Gold Hits $2,000!") "https://example.com/a";
    article (Some "GOLD hits 2000") "https://example.com/b" ].

(** A title of 50 code units, and an answer of the news provider with two
    articles whose titles continue it differently, one of them in capitals,
    followed by an article on silver and by a third continuation. *)
Definition fifty : string := "Gold Prices Surge To Record Highs As Investors See".

Definition longTitles : list NewsApi.RawArticle :=
  [ article (Some "Gold Prices Surge To Record Highs As Investors Seek Safety")
      "https://example.com/1";
    article (Some "GOLD PRICES SURGE TO RECORD HIGHS AS INVESTORS SEE INFLATION RISE")
      "https://example.com/2";
    article (Some "Silver catches up") "https://example.com/3";
    article (Some "Gold prices surge, to record highs, as investors see fit")
      "https://example.com/4" ].

Definition longNews : Try NewsApi.Data :=
  Returned {| NewsApi.status := "ok"; NewsApi.message := None;
              NewsApi.articles := longTitles |}.

Definition newsOk : Try NewsApi.Data :=
  Returned {| NewsApi.status := "ok"; NewsApi.message := None;
              NewsApi.articles := redacted |}.

(** A monthly history given by its closes. *)
Definition closes (l : list float) : Try (option (list Yahoo.Row)) :=
  Returned (Some ((fun c => {| Yahoo.close := c |}) <$> l)).

(** An upstream in which the import succeeds and every history fails. *)
Definition allHistoriesFail : PerformanceUpstream :=
  {| yahooFinance := Returned ();
     history_gold := Threw {| message := "Not Found" |};
     history_silver := Threw {| message := "Not Found" |};
     history_sp500 := Threw {| message := "Not Found" |};
     history_dow := Threw {| message := "Not Found" |};
     history_realEstate := Threw {| message := "Not Found" |};
     history_bonds := Threw {| message := "Not Found" |} |}.

(** An upstream in which gold went from 100 to 250, the S&P 500 from 1200
    to 4800, silver has a single data point and the other fetches fail. *)
Definition someHistories : PerformanceUpstream :=
  {| yahooFinance := Returned ();
     history_gold := closes [100; 180; 250]%float;
     history_silver := closes [17.5]%float;
     history_sp500 := closes [1200; 4800]%float;
     history_dow := Threw {| message := "Not Found" |};
     history_realEstate := Returned None;
     history_bonds := Threw {| message := "timeout" |} |}.

(** An upstream in which gold went from 100 to 110, both ends of the silver
    history are 0, and the other fetches fail. *)
Definition zeroHistory : PerformanceUpstream :=
  {| yahooFinance := Returned ();
     history_gold := closes [100; 110]%float;
     history_silver := closes [0; 0]%float;
     history_sp500 := Threw {| message := "Not Found" |};
     history_dow := Threw {| message := "Not Found" |};
     history_realEstate := Threw {| message := "Not Found" |};
     history_bonds := Threw {| message := "Not Found" |} |}.

(** Integer-valued doubles, the infinities and [NaN]. *)
Definition integralSamples : list float :=
  [ 0; -0; 1; -1; 10; 49; -44; 150; 300; 9007199254740992; -9007199254740993;
    1e22; -1e22; 8.98846567431158e307; -8.98846567431158e307;
    infinity; neg_infinity; nan ]%float.

End Sample.

(** ** A helper no handler calls *)

(** [function calculatePercentChange(current, previous)]; an argument that
    is [null] or [undefined] is [None] (for both [!x] is true), and so is
    the result [null]. *)
Definition calculatePercentChange (current previous : option float) : option float :=
  match current, previous with
  | Some c, Some p =>
      if negb (truthy c) || negb (truthy p) || (p =? 0)%float then None
      else Some (((c - p) / p) * 100)%float
  | _, _ => None
  end.

(** ** Vocabulary of the invariants *)

(** The keys the handler of a route may write. *)
Definition keysOf (r : Request) : list Key :=
  match r with
  | Get_prices _ _ => [metals_prices; stock_indices]
  | Get_news _ => [news]
  | Get_macro_news _ => [macro_news]
  | Get_news_inflation _ => [inflation_news]
  | Get_news_gold _ => [gold_news]
  | Get_news_headlines _ => [bullish_headlines]
  | Get_performance _ => [performance_data]
  | Get_health => []
  end.

(** A body with [success: false]. *)
Definition unsuccessful (b : Body) : Prop :=
  match b with
  | PricesBody r => Prices.success r = false
  | NewsBody r => News.success r = false
  | HeadlinesBody r => Headlines.success r = false
  | PerformanceBody r => Performance.success r = false
  | HealthBody _ => False
  end.

(** A value that is [null] or a number other than [NaN]. *)
Definition notNaN (x : option float) : Prop :=
  match x with Some v => is_nan v = false | None => True end.

(** The values a source stores under its key: the ones its [try] block
    computes from some answer of the provider. *)
Definition storedBy (k : Key) : ValueOf k -> Prop :=
  match k with
  | metals_prices => fun m => exists e response, metalsRequest e response = Returned m
  | stock_indices => fun s => exists quotes, stocksRequest quotes = Returned s
  | news => fun l => exists raw, l = projectPlain <$> raw
  | macro_news | inflation_news | gold_news => fun l => exists raw, l = dedupArticles raw
  | bullish_headlines => fun l => exists raw, l = dedupHeadlines raw
  | performance_data => fun l => exists up, l = assetData up
  end.

(** Every entry of the cache, expired or not, holds a value of its source. *)
Definition wellStored (w : World) : Prop :=
  forall k e, entry w k = Some e -> storedBy k (NodeCache.value e).

(** A fetcher leaves the world as it found it or writes a value of its
    source under its own key, with its own TTL argument. *)
Definition writesStored (k : Key) (w w' : World) : Prop :=
  w' = w \/ exists v, storedBy k v /\ w' = cache_set w k v (ttlArgument k).

(** The value [fetch] obtains on a miss at [w] is what it answers [dt]
    seconds later, whatever the provider would then answer, and that later
    call writes nothing. *)
Definition keptFor {R A} (fetch : World -> R -> Settled A * World) (k : Key)
    (w : World) (dt : nat) : Prop :=
  forall (response response' : R) (v : A),
    cache_get w k = None ->
    (fetch w response).1 = Fulfilled v ->
    fetch (tick dt (fetch w response).2) response'
    = (Fulfilled v, tick dt (fetch w response).2).

(** The names of the eight asset classes of the performance chart: the six
    of the [fetchHistory] calls and the two of the static estimates. *)
Definition assetNames : list string :=
  ["Gold"; "Silver"; "S&P 500"; "Dow Jones"; "Real Estate"; "Bonds";
   "CDs/Savings"; "Cash (USD)"].

(** * The browser client *)

(** The page is made of React components and hooks that poll the routes of
    the server.  A component is modelled by its state and by its callbacks:
    a callback that resumes after an [await], or that a timer calls, is a
    function of the state it finds, and the calls of [setState] it makes are
    one update of that state. *)

(** ** Values read from JSON *)

(** A numeric property read from a response body, such as a price: it may
    be missing, [null] or a number. *)
Inductive JsPrice :=
| Undefined
| Null
| Num (x : float).

(** How a number of a body arrives: [JSON.stringify] writes [NaN] and the
    infinities as [null]. *)
Definition jsonNumber (x : float) : JsPrice :=
  if is_finite x then Num x else Null.

(** [a === b] on such values. *)
Definition strictEq (a b : JsPrice) : bool :=
  match a, b with
  | Undefined, Undefined | Null, Null => true
  | Num x, Num y => (x =? y)%float
  | _, _ => false
  end.

(** The return of a performance record as it arrives: an integer, or
    [null] for [NaN] and the infinities. *)
Definition jsonReturn (r : Rounded) : option Z :=
  match r with Int z => Some z | NaN | Infinity _ => None end.

(** ** [useMarketData] *)

Module useMarketData.

(** What [await fetch('/api/prices')] resolves to, together with the outcome
    of [await response.json()]. *)
Record HttpResponse := {
  ok : bool;
  status : nat;
  json : Try Prices.Response
}.

(** The state of the hook; [updatedTiles] and [prevPricesRef.current] are
    objects keyed by tile, the first used as a set. *)
Record State := {
  data : option Prices.Data;
  loading : bool;
  error : option string;
  lastUpdated : option Z;
  warnings : list string;
  updatedTiles : gset string;
  prevPrices : gmap string JsPrice
}.

Definition initial : State :=
  {| data := None; loading := true; error := None; lastUpdated := None;
     warnings := []; updatedTiles := ∅; prevPrices := ∅ |}.

(** The tiles the hook watches. *)
Definition tileKeys : list string := ["gold"; "silver"; "sp500"; "dow"].

(** [result.data[key]?.price]: missing for a tile that is [null]; a metal
    tile's price is a number or [null], an index tile's price is the
    quote's field, a number or missing. *)
Definition priceOf (d : Prices.Data) (key : string) : JsPrice :=
  if String.eqb key "gold" then
    match Prices.gold d with
    | Some t => from_option jsonNumber Null (MetalTile.price t)
    | None => Undefined
    end
  else if String.eqb key "silver" then
    match Prices.silver d with
    | Some t => from_option jsonNumber Null (MetalTile.price t)
    | None => Undefined
    end
  else if String.eqb key "sp500" then
    match Prices.sp500 d with
    | Some t => from_option jsonNumber Undefined (IndexTile.price t)
    | None => Undefined
    end
  else if String.eqb key "dow" then
    match Prices.dow d with
    | Some t => from_option jsonNumber Undefined (IndexTile.price t)
    | None => Undefined
    end
  else Undefined.

(** The callback of [forEach]: [acc] is [newUpdatedTiles] and
    [currentPrices]. *)
Definition detectStep (d : Prices.Data) (acc : gset string * gmap string JsPrice)
    (key : string) : gset string * gmap string JsPrice :=
  let '(newUpdatedTiles, currentPrices) := acc in
  let newPrice := priceOf d key in
  let oldPrice := default Undefined (currentPrices !! key) in
  (if negb (strictEq oldPrice Undefined) && negb (strictEq newPrice oldPrice)
   then {[ key ]} ∪ newUpdatedTiles else newUpdatedTiles,
   if negb (strictEq newPrice Undefined) then <[ key := newPrice ]> currentPrices
   else currentPrices).

(** "Detect which prices changed": the tiles to animate and the prices
    remembered afterwards.  The guard [if (result.data)] holds, [data] being
    an object in every body. *)
Definition detect (prev : gmap string JsPrice) (d : Prices.Data)
    : gset string * gmap string JsPrice :=
  foldl (detectStep d) (∅, prev) tileKeys.

(** The [try] block up to the body it accepts. *)
Definition accepted (outcome : Try HttpResponse) : Try Prices.Response :=
  match outcome with
  | Threw err => Threw err
  | Returned response =>
      if negb (ok response) then
        Threw {| message := String.append "HTTP error: " (pretty (status response)) |}
      else
        match json response with
        | Threw err => Threw err
        | Returned result =>
            if negb (Prices.success result) then
              Threw {| message := "API returned unsuccessful response" |}
            else Returned result
        end
  end.

(** [fetchData] from the point where [fetch] settles; [captured] is the
    [data] of the render that created the callback. *)
Definition fetchData (captured : option Prices.Data) (s : State)
    (outcome : Try HttpResponse) : State :=
  match accepted outcome with
  | Returned result =>
      let '(newUpdatedTiles, currentPrices) := detect (prevPrices s) (Prices.data result) in
      {| data := Some (Prices.data result);
         loading := false;
         error := None;
         lastUpdated := Some (Prices.lastUpdated result);
         warnings := default [] (Prices.warnings result);
         updatedTiles :=
           if decide (0 < size newUpdatedTiles)%nat then newUpdatedTiles
           else updatedTiles s;
         prevPrices := currentPrices |}
  | Threw err =>
      {| data := match captured with Some _ => data s | None => None end;
         loading := false;
         error := Some (message err);
         lastUpdated := lastUpdated s;
         warnings := warnings s;
         updatedTiles := updatedTiles s;
         prevPrices := prevPrices s |}
  end.

(** The timer that clears the animation flags. *)
Definition clearUpdatedTiles (s : State) : State :=
  {| data := data s; loading := loading s; error := error s;
     lastUpdated := lastUpdated s; warnings := warnings s;
     updatedTiles := ∅; prevPrices := prevPrices s |}.

End useMarketData.

(** ** [useNews] *)

Module useNews.

Record State := {
  headlines : list Article;
  currentIndex : nat;
  loading : bool;
  error : option string
}.

Definition initial : State :=
  {| headlines := []; currentIndex := 0; loading := true; error := None |}.

(** [fetchNews] from the point where the body is read; [outcome] is that of
    [fetch] followed by [response.json()]. *)
Definition fetchNews (s : State) (outcome : Try News.Response) : State :=
  match outcome with
  | Returned data =>
      if News.success data && (0 <? List.length (News.articles data))%nat then
        {| headlines := News.articles data; currentIndex := currentIndex s;
           loading := false; error := None |}
      else if (List.length (News.articles data) =? 0)%nat then
        {| headlines := headlines s; currentIndex := currentIndex s;
           loading := false; error := Some "No news available" |}
      else
        {| headlines := headlines s; currentIndex := currentIndex s;
           loading := false; error := error s |}
  | Threw err =>
      {| headlines := headlines s; currentIndex := currentIndex s;
         loading := false; error := Some (message err) |}
  end.

(** The interval callback of the rotation effect that was set up when there
    were [n] headlines; no interval is set up unless [n > 1]. *)
Definition rotate (n : nat) (s : State) : State :=
  if (n <=? 1)%nat then s
  else {| headlines := headlines s; currentIndex := ((currentIndex s + 1) mod n)%nat;
          loading := loading s; error := error s |}.

(** [headlines[currentIndex] || null] *)
Definition headline (s : State) : option Article :=
  headlines s !! currentIndex s.

End useNews.

(** ** [NewsWidget] *)

Module NewsWidget.

Record State := {
  articles : list Article;
  currentIndex : nat;
  loading : bool;
  error : option string;
  slideDirection : string
}.

Definition initial : State :=
  {| articles := []; currentIndex := 0; loading := true; error := None;
     slideDirection := "" |}.

(** [fetchArticles] from the point where the body is read. *)
Definition fetchArticles (s : State) (outcome : Try News.Response) : State :=
  match outcome with
  | Returned result =>
      if News.success result && (0 <? List.length (News.articles result))%nat then
        {| articles := News.articles result; currentIndex := currentIndex s;
           loading := false; error := None; slideDirection := slideDirection s |}
      else if (List.length (News.articles result) =? 0)%nat then
        {| articles := articles s; currentIndex := currentIndex s;
           loading := false; error := Some "No recent articles found";
           slideDirection := slideDirection s |}
      else
        {| articles := articles s; currentIndex := currentIndex s;
           loading := false; error := error s; slideDirection := slideDirection s |}
  | Threw err =>
      {| articles := articles s; currentIndex := currentIndex s;
         loading := false; error := Some (message err);
         slideDirection := slideDirection s |}
  end.

(** A callback waiting in [setTimeout]: the one that moves the carousel
    after the slide-out, and the one that ends the slide-in. *)
Inductive Timeout :=
| AfterSlideOut (setCurrentIndex : nat -> nat) (slideIn : string)
| AfterSlideIn.

(** A timeout fires: the new state, and the timeout it sets. *)
Definition fire (t : Timeout) (s : State) : State * option Timeout :=
  match t with
  | AfterSlideOut setCurrentIndex slideIn =>
      ({| articles := articles s; currentIndex := setCurrentIndex (currentIndex s);
          loading := loading s; error := error s; slideDirection := slideIn |},
       Some AfterSlideIn)
  | AfterSlideIn =>
      ({| articles := articles s; currentIndex := currentIndex s;
          loading := loading s; error := error s; slideDirection := "" |},
       None)
  end.

(** The interval callback of the rotation effect that was set up when there
    were [n] articles; no interval is set up unless [n > 1]. *)
Definition rotationTick (n : nat) (s : State) : State * option Timeout :=
  if (n <=? 1)%nat then (s, None)
  else
    ({| articles := articles s; currentIndex := currentIndex s;
        loading := loading s; error := error s; slideDirection := "slide-out-left" |},
     Some (AfterSlideOut (fun prev => ((prev + 1) mod n)%nat) "slide-in-right")).

(** [goToSlide(index)], called by the dot of an article. *)
Definition goToSlide (index : nat) (s : State) : State * option Timeout :=
  if (index =? currentIndex s)%nat || truthy_str (Some (slideDirection s)) then (s, None)
  else
    let left := (currentIndex s <? index)%nat in
    ({| articles := articles s; currentIndex := currentIndex s;
        loading := loading s; error := error s;
        slideDirection := if left then "slide-out-left" else "slide-out-right" |},
     Some (AfterSlideOut (fun _ => index)
             (if left then "slide-in-right" else "slide-in-left"))).

(** The excerpt shown for a description. *)
Definition excerpt (description : Utf16) : Utf16 :=
  if (120 <? List.length description)%nat
  then (slice0 120 description ++ utf16 "...")%list
  else description.

(** What the component renders: the skeleton, the empty state, or the card
    of the current article with its excerpt and the footer
    ["currentIndex + 1 of articles.length"]; reading a property of
    [articles[currentIndex]] throws when there is no such article. *)
Inductive View :=
| Skeleton
| EmptyState
| Card (article : Article) (excerpt : option Utf16) (position total : nat)
| TypeError.

Definition render (s : State) : View :=
  if loading s then Skeleton
  else if truthy_str (error s) || (List.length (articles s) =? 0)%nat then EmptyState
  else
    match articles s !! currentIndex s with
    | Some article =>
        Card article
          (if truthy_text (description article)
           then excerpt <$> description article else None)
          (currentIndex s + 1)%nat (List.length (articles s))
    | None => TypeError
    end.

End NewsWidget.

(** ** [HeadlinesWidget] *)

Module HeadlinesWidget.

Definition HEADLINES_PER_PAGE : nat := 5.

Record State := {
  headlines : list Headline;
  currentPage : nat;
  loading : bool;
  error : option string;
  slideDirection : string
}.

Definition initial : State :=
  {| headlines := []; currentPage := 0; loading := true; error := None;
     slideDirection := "" |}.

(** [Math.ceil(headlines.length / HEADLINES_PER_PAGE)]: the quotient of a
    length by 5 and its ceiling are exact. *)
Definition totalPages (s : State) : nat :=
  let n := List.length (headlines s) in
  if (n mod HEADLINES_PER_PAGE =? 0)%nat then (n / HEADLINES_PER_PAGE)%nat
  else (n / HEADLINES_PER_PAGE + 1)%nat.

(** [fetchHeadlines] from the point where the body is read. *)
Definition fetchHeadlines (s : State) (outcome : Try Headlines.Response) : State :=
  match outcome with
  | Returned result =>
      if Headlines.success result
         && (0 <? List.length (Headlines.headlines result))%nat then
        {| headlines := Headlines.headlines result; currentPage := currentPage s;
           loading := false; error := None; slideDirection := slideDirection s |}
      else if (List.length (Headlines.headlines result) =? 0)%nat then
        {| headlines := headlines s; currentPage := currentPage s;
           loading := false; error := Some "No headlines found";
           slideDirection := slideDirection s |}
      else
        {| headlines := headlines s; currentPage := currentPage s;
           loading := false; error := error s; slideDirection := slideDirection s |}
  | Threw err =>
      {| headlines := headlines s; currentPage := currentPage s;
         loading := false; error := Some (message err);
         slideDirection := slideDirection s |}
  end.

(** The page that follows [prev] in the rotation set up when there were [n]
    pages: [(prev + 1) % totalPages]. *)
Definition nextPage (n prev : nat) : nat := ((prev + 1) mod n)%nat.

(** The headlines of page [page]: [headlines.slice(start, start + 5)]. *)
Definition pageOf (l : list Headline) (page : nat) : list Headline :=
  let start := (page * HEADLINES_PER_PAGE)%nat in
  take HEADLINES_PER_PAGE (drop start l).

(** [getCurrentHeadlines()] *)
Definition getCurrentHeadlines (s : State) : list Headline :=
  pageOf (headlines s) (currentPage s).

End HeadlinesWidget.

(** ** [PerformanceChart] *)

Module PerformanceChart.

(** What [colorMap[name]] reads: the colour of an own key, a property
    inherited from [Object.prototype] (an object or a function), or
    nothing. *)
Inductive Property :=
| Own (color : string)
| Inherited
| Missing.

(** The colour of a bar: a string, or the inherited property the lookup
    found. *)
Inductive Color :=
| Css (color : string)
| NotAColor.

Module Asset.
(** A bar of the chart: [{ name, return, color }]; the fallback records
    have no [color]. *)
Record t := {
  name : string;
  returnPct : option Z;
  color : option Color
}.
End Asset.

Definition colorMap : list (string * string) :=
  [ ("Gold", "#d4a84b"); ("Silver", "#9ca3a8"); ("S&P 500", "#5a7a9a");
    ("Dow Jones", "#5a8a85"); ("Real Estate", "#5a9a6a"); ("Bonds", "#6a6a6a");
    ("CDs/Savings", "#5a5a5a"); ("Cash (USD)", "#4a4a4a") ].

(** The properties every object literal inherits. *)
Definition objectPrototype : list string :=
  [ "constructor"; "hasOwnProperty"; "isPrototypeOf"; "propertyIsEnumerable";
    "toLocaleString"; "toString"; "valueOf"; "__proto__";
    "__defineGetter__"; "__defineSetter__"; "__lookupGetter__"; "__lookupSetter__" ].

(** [colorMap[name]] *)
Definition lookup (n : string) : Property :=
  match (list_to_map colorMap : gmap string string) !! n with
  | Some c => Own c
  | None => if bool_decide (n ∈ objectPrototype) then Inherited else Missing
  end.

(** [colorMap[item.name] || '#666666'] *)
Definition colorOf (n : string) : Color :=
  match lookup n with
  | Own c => if truthy_str (Some c) then Css c else Css "#666666"
  | Inherited => NotAColor
  | Missing => Css "#666666"
  end.

Definition fallbackData : list Asset.t :=
  [ {| Asset.name := "Gold"; Asset.returnPct := Some 680; Asset.color := None |};
    {| Asset.name := "Silver"; Asset.returnPct := Some 420; Asset.color := None |};
    {| Asset.name := "S&P 500"; Asset.returnPct := Some 450; Asset.color := None |};
    {| Asset.name := "Dow Jones"; Asset.returnPct := Some 380; Asset.color := None |};
    {| Asset.name := "Real Estate"; Asset.returnPct := Some 220; Asset.color := None |};
    {| Asset.name := "Bonds"; Asset.returnPct := Some 85; Asset.color := None |};
    {| Asset.name := "CDs/Savings"; Asset.returnPct := Some 49; Asset.color := None |};
    {| Asset.name := "Cash (USD)"; Asset.returnPct := Some (-44); Asset.color := None |} ].

Record State := {
  assetData : list Asset.t;
  loading : bool;
  error : option string
}.

Definition initial : State :=
  {| assetData := fallbackData; loading := true; error := None |}.

(** [result.data.map(item => ({ ...item, color: ... }))] on the records as
    they arrive. *)
Definition dataWithColors (data : list PerformanceRecord) : list Asset.t :=
  (fun item => {| Asset.name := name item;
                  Asset.returnPct := jsonReturn (returnPct item);
                  Asset.color := Some (colorOf (name item)) |}) <$> data.

(** [fetchPerformance] from the point where the body is read. *)
Definition fetchPerformance (s : State) (outcome : Try Performance.Response) : State :=
  match outcome with
  | Returned result =>
      if Performance.success result
         && (0 <? List.length (Performance.data result))%nat then
        {| assetData := dataWithColors (Performance.data result);
           loading := false; error := error s |}
      else {| assetData := assetData s; loading := false; error := error s |}
  | Threw err =>
      {| assetData := assetData s; loading := false; error := Some (message err) |}
  end.

(** The colour a bar is drawn in:
    [asset.color || colorMap[asset.name] || '#666']. *)
Definition barColor (a : Asset.t) : Color :=
  match Asset.color a with
  | Some NotAColor => NotAColor
  | Some (Css c) =>
      if truthy_str (Some c) then Css c
      else match lookup (Asset.name a) with
           | Own c' => if truthy_str (Some c') then Css c' else Css "#666"
           | Inherited => NotAColor
           | Missing => Css "#666"
           end
  | None =>
      match lookup (Asset.name a) with
      | Own c' => if truthy_str (Some c') then Css c' else Css "#666"
      | Inherited => NotAColor
      | Missing => Css "#666"
      end
  end.

(** The footnote under the chart. *)
Definition footnote (s : State) : string :=
  if loading s then "Loading real-time data..."
  else "*Live data from Yahoo Finance. CDs & Cash are estimated. Past performance does not guarantee future results.".

(** [Math.max(1000, ...assetData.map(a => a.return))]: a [null] return
    converts to [0], and the maximum of integers is exact. *)
Definition maxReturn (assetData : list Asset.t) : Z :=
  foldr Z.max 1000 (default 0 ∘ Asset.returnPct <$> assetData).

(** The grid lines of the axis.  [extra] is
    [Math.ceil(maxReturn / 200) * 200]; the quotient and the product are
    exact below [2000], and from [2000] on every candidate passes the test
    anyway, so that the integer ceiling selects the lines the doubles
    select. *)
Definition gridLines (maxReturn : Z) : list Z :=
  ([0; 200; 400; 600; 800; 1000]
   ++ if decide (1000 < maxReturn) then
        let extra := - (- maxReturn / 200) * 200 in
        filter (fun v => v <= extra) [1200; 1400; 1600; 1800; 2000]
      else [])%list.

End PerformanceChart.

(** ** [PriceTile] and [MarketWidget] *)

Module PriceTile.

(** The props of a tile, the missing ones replaced by their defaults. *)
Record Props := {
  name : string;
  price : JsPrice;
  changePercent : JsPrice;
  variant : string;
  isUpdated : bool;
  showDollarSign : bool
}.

(** A formatted number: the placeholder, [val.toLocaleString('en-US', ...)]
    with two decimals, or [prefix + val.toFixed(2) + '%']. *)
Inductive Text :=
| Dashes
| Localized (val : float)
| Percent (prefix : string) (val : float).

(** [val >= 0], [null] converting to [0] and [undefined] to [NaN]. *)
Definition nonNegative (val : JsPrice) : bool :=
  match val with
  | Num x => (0 <=? x)%float
  | Null => true
  | Undefined => false
  end.

Definition formatPrice (val : JsPrice) : Text :=
  match val with
  | Null | Undefined => Dashes
  | Num x => Localized x
  end.

Definition formatPercent (val : JsPrice) : Text :=
  match val with
  | Null | Undefined => Dashes
  | Num x => Percent (if nonNegative val then "+" else "") x
  end.

(** [[...].filter(Boolean).join(' ')] *)
Definition tileClasses (variant : string) (isUpdated : bool) : string :=
  String.concat " "
    (filter (fun c => c <> "")
       ["price-tile"; String.append "price-tile--" variant;
        if isUpdated then "price-tile--updated" else ""]).

(** What the tile shows. *)
Record View := {
  className : string;
  currency : bool;
  priceValue : Text;
  label : string;
  badge : string;
  percent : Text
}.

Definition render (p : Props) : View :=
  let isPositive := nonNegative (changePercent p) in
  {| className := tileClasses (variant p) (isUpdated p);
     currency := showDollarSign p;
     priceValue := formatPrice (price p);
     label := name p;
     badge := String.append "tile-badge "
                (if isPositive then "badge-positive" else "badge-negative");
     percent := formatPercent (changePercent p) |}.

End PriceTile.

Module MarketWidget.

(** [data?.[key]?.price] *)
Definition priceOf (data : option Prices.Data) (key : string) : JsPrice :=
  match data with
  | Some d => useMarketData.priceOf d key
  | None => Undefined
  end.

(** [data?.[key]?.changePercent]: a number for a metal tile, the quote's
    field for an index tile. *)
Definition changePercentOf (data : option Prices.Data) (key : string) : JsPrice :=
  match data with
  | Some d =>
      if String.eqb key "gold" then
        from_option (fun t => jsonNumber (MetalTile.changePercent t)) Undefined
          (Prices.gold d)
      else if String.eqb key "silver" then
        from_option (fun t => jsonNumber (MetalTile.changePercent t)) Undefined
          (Prices.silver d)
      else if String.eqb key "sp500" then
        from_option (fun t => from_option jsonNumber Undefined (IndexTile.changePercent t))
          Undefined (Prices.sp500 d)
      else if String.eqb key "dow" then
        from_option (fun t => from_option jsonNumber Undefined (IndexTile.changePercent t))
          Undefined (Prices.dow d)
      else Undefined
  | None => Undefined
  end.

(** One of the four tiles. *)
Definition tile (s : useMarketData.State) (name key variant : string)
    (showDollarSign : bool) : PriceTile.View :=
  PriceTile.render
    {| PriceTile.name := name;
       PriceTile.price := priceOf (useMarketData.data s) key;
       PriceTile.changePercent := changePercentOf (useMarketData.data s) key;
       PriceTile.variant := variant;
       PriceTile.isUpdated := bool_decide (key ∈ useMarketData.updatedTiles s);
       PriceTile.showDollarSign := showDollarSign |}.

(** What the widget renders: the skeleton ([None]) or the four tiles. *)
Definition render (s : useMarketData.State) : option (list PriceTile.View) :=
  if useMarketData.loading s
     && match useMarketData.data s with Some _ => false | None => true end
  then None
  else Some [ tile s "GOLD (OZ)" "gold" "gold" true;
              tile s "SILVER (OZ)" "silver" "silver" true;
              tile s "S&P 500" "sp500" "blue" false;
              tile s "DOW" "dow" "teal" false ].

End MarketWidget.

(** ** Vocabulary of the client's properties *)

(** The carousel points at one of its articles. *)
Definition inRange (s : NewsWidget.State) : Prop :=
  (NewsWidget.currentIndex s < List.length (NewsWidget.articles s))%nat.

(** The state once the timeouts set by a callback of the carousel have
    fired. *)
Definition settle (r : NewsWidget.State * option NewsWidget.Timeout) : NewsWidget.State :=
  match r with
  | (s, None) => s
  | (s, Some t) =>
      match NewsWidget.fire t s with
      | (s', None) => s'
      | (s', Some t') => (NewsWidget.fire t' s').1
      end
  end.

(** A body of [/api/prices] that arrives with status 200. *)
Definition answered (body : Prices.Response) : Try useMarketData.HttpResponse :=
  Returned {| useMarketData.ok := true; useMarketData.status := 200;
              useMarketData.json := Returned body |}.

(** The price the hook remembers for a tile, [undefined] if none. *)
Definition remembered (prev : gmap string JsPrice) (key : string) : JsPrice :=
  default Undefined (prev !! key).

(** The value [fetch] obtained on a miss at [w] is of no use [dt] seconds
    later if the provider then fails: the call is rejected with the error
    of the provider, although the store still holds the value. *)
Definition lostAfter {R B} (k : Key) (fetch : World -> R -> Settled (ValueOf k) * World)
    (request : Env -> R -> Try B) (w : World) (dt : nat) : Prop :=
  forall (response response' : R) (v : ValueOf k) (e : Error),
    cache_get w k = None ->
    (fetch w response).1 = Fulfilled v ->
    request (env w) response' = Threw e ->
    fetch (tick dt (fetch w response).2) response'
    = (Rejected e, tick dt (fetch w response).2)
    /\ NodeCache.getStale (cache (tick dt (fetch w response).2)) k = Some v.

(** From the specification's words, "drop any article whose key was already
    seen in this fetch ... order of first occurrence is preserved": the
    first element of each key, in the order of the list.  An element stays,
    and after it the first elements of the other keys. *)
Fixpoint firstOfEachKey {A K} `{EqDecision K} (key : A -> K) (l : list A) : list A :=
  match l with
  | [] => []
  | a :: rest => a :: filter (fun b => key b <> key a) (firstOfEachKey key rest)
  end.

(** ** Requests that overlap *)

(** A fetcher awaits its provider while the server goes on serving other
    requests.  [w] is the world at the call and [w'] the world in which the
    [await] settles: the first [cache.get] runs in [w], and so does the
    whole call when it throws before it awaits; the write, or the read of
    the [catch] block, runs in [w'].  With [w' = w] these are the fetchers
    of a server that serves one request after the other. *)
Module Overlapped.

(** [async function fetchMetalsPrices()]; without the credential it throws
    before [await axios.get(...)]. *)
Definition fetchMetalsPrices (w w' : World) (response : Try MetalsApi.Data)
    : Settled Metals.Result * World :=
  match cache_get w metals_prices with
  | Some cached => (Fulfilled cached, w)
  | None =>
      let w' := if truthy_str (METALS_API_KEY (env w)) then w' else w in
      match metalsRequest (env w) response with
      | Returned result => (Fulfilled result, cache_set w' metals_prices result None)
      | Threw error =>
          match cache_get w' metals_prices with
          | Some staleCache =>
              (Fulfilled {| Metals.gold := Metals.gold staleCache;
                            Metals.silver := Metals.silver staleCache;
                            Metals.stale := true |}, w')
          | None => (Rejected error, w')
          end
      end
  end.

(** [async function fetchStockIndices()]; its [try] block starts with an
    [await]. *)
Definition fetchStockIndices (w w' : World) (quotes : Try (Yahoo.Quote * Yahoo.Quote))
    : Settled Stocks.Result * World :=
  match cache_get w stock_indices with
  | Some cached => (Fulfilled cached, w)
  | None =>
      match stocksRequest quotes with
      | Returned result => (Fulfilled result, cache_set w' stock_indices result None)
      | Threw error =>
          match cache_get w' stock_indices with
          | Some staleCache =>
              (Fulfilled {| Stocks.sp500 := Stocks.sp500 staleCache;
                            Stocks.dow := Stocks.dow staleCache;
                            Stocks.stale := true |}, w')
          | None => (Rejected error, w')
          end
      end
  end.

(** The body [/api/prices] answers with: [Promise.allSettled] calls both
    fetchers in [w], before either resumes; the metals fetch settles in
    [wm], the stocks fetch in [ws], and the body is built at time [t]. *)
Definition GET_api_prices (w wm ws : World) (metals : Try MetalsApi.Data)
    (quotes : Try (Yahoo.Quote * Yahoo.Quote)) (t : Z) : Prices.Response :=
  pricesResponse (fetchMetalsPrices w wm metals).1 (fetchStockIndices w ws quotes).1 t.

End Overlapped.

(** The age of an entry and its TTL: every entry was stored in the past
    with the TTL of its source. *)
Definition wellTimed (w : World) : Prop :=
  forall k e, entry w k = Some e ->
    NodeCache.storedAt e <= now w /\ NodeCache.ttlSeconds e = specTTL (env w) k.

(** ** Refreshes of [useMarketData] one after the other *)

(** A refresh that starts once the refreshes before it have settled and the
    hook has rendered again: its callback captured the [data] of the state
    it finds. *)
Definition refresh (s : useMarketData.State) (outcome : Try useMarketData.HttpResponse)
    : useMarketData.State :=
  useMarketData.fetchData (useMarketData.data s) s outcome.

Definition refreshes (s : useMarketData.State) (outcomes : list (Try useMarketData.HttpResponse))
    : useMarketData.State :=
  foldl refresh s outcomes.

(** The data of the last answer the hook accepted among [outcomes], [d] if
    it accepted none. *)
Definition lastAccepted (d : option Prices.Data) (outcomes : list (Try useMarketData.HttpResponse))
    : option Prices.Data :=
  foldl (fun d outcome =>
           match useMarketData.accepted outcome with
           | Returned result => Some (Prices.data result)
           | Threw _ => d
           end) d outcomes.

(** * Properties *)

(** ** The cache store *)

Section cache_store.
Context (w : World) (k : Key) (v : ValueOf k) (ttl : option Z).

Lemma entry_cache_set_eq :
  entry (cache_set w k v ttl) k
  = Some {| NodeCache.value := v; NodeCache.storedAt := now w;
            NodeCache.ttlSeconds := default (NodeCache.stdTTL (cache w)) ttl |}.
Proof.
  unfold entry, cache_set, NodeCache.set; simpl.
  destruct (decide (k = k)) as [E|]; [|done].
  by rewrite (proof_irrel E eq_refl).
Qed.

Lemma entry_cache_set_ne k' :
  k <> k' -> entry (cache_set w k v ttl) k' = entry w k'.
Proof.
  intros Hne. unfold entry, cache_set, NodeCache.set; simpl.
  by destruct (decide (k = k')).
Qed.

(** A read at the instant of the write sees the value unless the TTL is
    negative. *)
Lemma cache_get_cache_set :
  0 <= default (NodeCache.stdTTL (cache w)) ttl ->
  cache_get (cache_set w k v ttl) k = Some v.
Proof.
  intros Httl. unfold cache_get, NodeCache.get.
  change (NodeCache.data (cache (cache_set w k v ttl)) k)
    with (entry (cache_set w k v ttl) k).
  rewrite entry_cache_set_eq; simpl.
  case_decide; [lia | done].
Qed.

End cache_store.

(** [get] and [getStale] agree while the entry is fresh; afterwards only
    [getStale] still answers. *)
Lemma cache_get_spec (w : World) (k : Key) :
  cache_get w k
  = e ← entry w k;
    if decide (now w - NodeCache.storedAt e > NodeCache.ttlSeconds e) then None
    else Some (NodeCache.value e).
Proof. unfold cache_get, NodeCache.get, entry. by destruct (NodeCache.data _ _). Qed.

Lemma cache_get_getStale (w : World) (k : Key) (v : ValueOf k) :
  cache_get w k = Some v -> NodeCache.getStale (cache w) k = Some v.
Proof.
  unfold cache_get, NodeCache.get, NodeCache.getStale.
  destruct (NodeCache.data _ _) as [e|]; [|done]. simpl.
  case_decide; [done|]. by intros [= ->].
Qed.

(** ** Numbers *)

Example Math_round_examples :
  Math_round 2.5 = Int 3 /\ Math_round (-2.5) = Int (-2)
  /\ Math_round 150 = Int 150 /\ Math_round (-0.3) = Int 0
  /\ Math_round 0.49999999999999994 = Int 0 /\ Math_round (-0.5) = Int 0
  /\ Math_round 0.5 = Int 1 /\ Math_round 1e22 = Int (10 ^ 22)
  /\ Math_round (0 / 0) = NaN /\ Math_round (1 / 0) = Infinity false.
Proof. vm_compute. repeat split. Qed.

(** On integer-valued doubles [sub_sign] is the sign of the double
    difference, also where the difference rounds or overflows. *)
Example sub_sign_is_sign_of_difference :
  forallb (fun x => forallb (fun y =>
      bool_decide (sub_sign (Math_round x) (Math_round y) = signOf (x - y)%float))
    Sample.integralSamples) Sample.integralSamples = true.
Proof. vm_compute. reflexivity. Qed.

Example CACHE_TTL_examples :
  CACHE_TTL Sample.env0 = 30 /\ CACHE_TTL Sample.envNoMetalsKey = 60
  /\ CACHE_TTL {| METALS_API_KEY := None; NEWS_API_KEY := None;
                  CACHE_TTL_parsed := Some 0 |} = 30.
Proof. done. Qed.

(** ** Stale fallback *)

(** An upstream failure is rejected whenever the first [cache.get] missed:
    the fallback reads the cache with the same [get]. *)
Lemma fetchMetalsPrices_failure (w : World) (response : Try MetalsApi.Data) (error : Error) :
  cache_get w metals_prices = None ->
  metalsRequest (env w) response = Threw error ->
  fetchMetalsPrices w response = (Rejected error, w).
Proof. intros Hmiss Hreq. unfold fetchMetalsPrices. by rewrite Hmiss, Hreq. Qed.

(** An entry past its TTL is still stored, and is of no use to the
    fallback. *)
Lemma expired_entry_is_no_fallback (w : World) (response : Try MetalsApi.Data)
    (error : Error) (e : NodeCache.CacheEntry Metals.Result) :
  entry w metals_prices = Some e ->
  now w - NodeCache.storedAt e > NodeCache.ttlSeconds e ->
  metalsRequest (env w) response = Threw error ->
  fetchMetalsPrices w response = (Rejected error, w)
  /\ NodeCache.getStale (cache w) metals_prices = Some (NodeCache.value e).
Proof.
  intros He Hexpired Hreq. split.
  - apply fetchMetalsPrices_failure; [|done].
    rewrite cache_get_spec, He; simpl. by case_decide.
  - unfold NodeCache.getStale. unfold entry in He. by rewrite He.
Qed.

(** C1 (fails on the code): gold is fetched and cached at time 0 with the
    default TTL of 30 s; at time 31 the entry is still stored (a stale read
    would return it), the provider fails, and [fetchMetalsPrices] rejects
    instead of returning the stored value: [/api/prices] answers with an
    absent gold field and the warning of a failed source. *)
Theorem stale_fallback_lost_after_ttl :
  let w1 := (GET_api_prices (boot Sample.env0 0) (Sample.metalsOk 2000 25) Sample.quotesOk).2 in
  let w2 := tick 31 w1 in
  let r := (GET_api_prices w2 (Threw Sample.down) Sample.quotesOk).1 in
  (Metals.price ∘ Metals.gold <$> NodeCache.getStale (cache w2) metals_prices)
    = Some (Some 2000%float)
  /\ (fetchMetalsPrices w2 (Threw Sample.down)).1 = Rejected Sample.down
  /\ Prices.gold (Prices.data r) = None
  /\ Prices.warnings r = Some ["Unable to fetch metals prices"].
Proof. vm_compute. repeat split. Qed.

(** ** Partial failures *)

(** The handler of [/api/prices] is its post-processing applied to what the
    two fetchers settle to. *)
Lemma GET_api_prices_unfold (w : World) (metals : Try MetalsApi.Data)
    (quotes : Try (Yahoo.Quote * Yahoo.Quote)) :
  (GET_api_prices w metals quotes).1
  = pricesResponse (fetchMetalsPrices w metals).1
      (fetchStockIndices (fetchMetalsPrices w metals).2 quotes).1
      (now (fetchStockIndices (fetchMetalsPrices w metals).2 quotes).2).
Proof.
  unfold GET_api_prices.
  destruct (fetchMetalsPrices w metals) as [mr w1]; simpl.
  by destruct (fetchStockIndices w1 quotes) as [sr w2].
Qed.

(** Every combination of outcomes gives a complete envelope. *)
Lemma pricesResponse_total (mr : Settled Metals.Result) (sr : Settled Stocks.Result) (t : Z) :
  let r := pricesResponse mr sr t in
  Prices.success r = true
  /\ match mr with
     | Rejected _ =>
         Prices.gold (Prices.data r) = None /\ Prices.silver (Prices.data r) = None
     | Fulfilled m =>
         Prices.gold (Prices.data r) = Some (goldTile (Metals.gold m))
         /\ Prices.silver (Prices.data r) = Some (silverTile (Metals.silver m))
     end
  /\ match sr with
     | Rejected _ =>
         Prices.sp500 (Prices.data r) = None /\ Prices.dow (Prices.data r) = None
     | Fulfilled s =>
         Prices.sp500 (Prices.data r) = Some (indexTile "^GSPC" "S&P 500" (Stocks.sp500 s))
         /\ Prices.dow (Prices.data r) = Some (indexTile "^DJI" "Dow Jones" (Stocks.dow s))
     end
  /\ occurrences "Unable to fetch metals prices" (warningsOf r) = failed mr
  /\ occurrences "Unable to fetch stock indices" (warningsOf r) = failed sr
  /\ List.length (warningsOf r)
     = (failed mr + failed sr + staleCount Metals.stale mr + staleCount Stocks.stale sr)%nat.
Proof.
  destruct mr as [[g s [|]]|e], sr as [[sp d [|]]|e']; vm_compute; repeat split.
Qed.

(** C2: [/api/prices] answers [success: true] for every combination of
    fetch outcomes; a failed source leaves its data fields absent and adds
    exactly one warning, a succeeding source populates its fields, and when
    both fail the two warnings are all there is.  An article, headline or
    performance endpoint whose fetch fails answers [success: false] with the
    error's message and an empty payload. *)
Theorem partial_failure_envelopes :
  (forall w metals quotes,
     let mr := (fetchMetalsPrices w metals).1 in
     let sr := (fetchStockIndices (fetchMetalsPrices w metals).2 quotes).1 in
     let r := (GET_api_prices w metals quotes).1 in
     Prices.success r = true
     /\ match mr with
        | Rejected _ =>
            Prices.gold (Prices.data r) = None /\ Prices.silver (Prices.data r) = None
        | Fulfilled m =>
            Prices.gold (Prices.data r) = Some (goldTile (Metals.gold m))
            /\ Prices.silver (Prices.data r) = Some (silverTile (Metals.silver m))
        end
     /\ match sr with
        | Rejected _ =>
            Prices.sp500 (Prices.data r) = None /\ Prices.dow (Prices.data r) = None
        | Fulfilled s =>
            Prices.sp500 (Prices.data r)
              = Some (indexTile "^GSPC" "S&P 500" (Stocks.sp500 s))
            /\ Prices.dow (Prices.data r)
              = Some (indexTile "^DJI" "Dow Jones" (Stocks.dow s))
        end
     /\ occurrences "Unable to fetch metals prices" (warningsOf r) = failed mr
     /\ occurrences "Unable to fetch stock indices" (warningsOf r) = failed sr
     /\ List.length (warningsOf r)
        = (failed mr + failed sr + staleCount Metals.stale mr
           + staleCount Stocks.stale sr)%nat)
  /\ (forall e e' t,
        Prices.warnings (pricesResponse (Rejected e) (Rejected e') t)
        = Some ["Unable to fetch metals prices"; "Unable to fetch stock indices"])
  /\ (forall w response,
        match (fetchNews w response).1 with
        | Rejected e => (GET_api_news w response).1 = newsFailure e
        | Fulfilled a =>
            News.success (GET_api_news w response).1 = true
            /\ News.articles (GET_api_news w response).1 = a
        end)
  /\ (forall w response,
        match (fetchMacroNews w response).1 with
        | Rejected e => (GET_api_macro_news w response).1 = newsFailure e
        | Fulfilled a =>
            News.success (GET_api_macro_news w response).1 = true
            /\ News.articles (GET_api_macro_news w response).1 = a
        end)
  /\ (forall w response,
        match (fetchInflationNews w response).1 with
        | Rejected e => (GET_api_news_inflation w response).1 = newsFailure e
        | Fulfilled a =>
            News.success (GET_api_news_inflation w response).1 = true
            /\ News.articles (GET_api_news_inflation w response).1 = a
        end)
  /\ (forall w response,
        match (fetchGoldNews w response).1 with
        | Rejected e => (GET_api_news_gold w response).1 = newsFailure e
        | Fulfilled a =>
            News.success (GET_api_news_gold w response).1 = true
            /\ News.articles (GET_api_news_gold w response).1 = a
        end)
  /\ (forall w response,
        match (fetchBullishHeadlines w response).1 with
        | Rejected e => (GET_api_news_headlines w response).1 = headlinesFailure e
        | Fulfilled h =>
            Headlines.success (GET_api_news_headlines w response).1 = true
            /\ Headlines.headlines (GET_api_news_headlines w response).1 = h
        end)
  /\ (forall w up,
        match cache_get w performance_data, yahooFinance up with
        | None, Threw e => (GET_api_performance w up).1 = performanceFailure e
        | _, _ => Performance.success (GET_api_performance w up).1 = true
        end).
Proof.
  split; [|split; [|repeat split]].
  - intros w metals quotes mr sr r. subst r. rewrite GET_api_prices_unfold.
    apply pricesResponse_total.
  - done.
  - intros w response. unfold GET_api_news.
    by destruct (fetchNews w response) as [[a|e] w'].
  - intros w response. unfold GET_api_macro_news.
    by destruct (fetchMacroNews w response) as [[a|e] w'].
  - intros w response. unfold GET_api_news_inflation.
    by destruct (fetchInflationNews w response) as [[a|e] w'].
  - intros w response. unfold GET_api_news_gold.
    by destruct (fetchGoldNews w response) as [[a|e] w'].
  - intros w response. unfold GET_api_news_headlines.
    by destruct (fetchBullishHeadlines w response) as [[h|e] w'].
  - intros w up. unfold GET_api_performance.
    destruct (cache_get w performance_data); [done|].
    by destruct (yahooFinance up).
Qed.

Lemma partial_failure_envelopes_witness :
  let r := (GET_api_prices (boot Sample.envNoMetalsKey 0) (Sample.metalsOk 2000 25)
              Sample.quotesOk).1 in
  Prices.success r = true
  /\ (Prices.gold (Prices.data r) = None /\ Prices.silver (Prices.data r) = None)
  /\ (Prices.sp500 (Prices.data r)
        = Some (indexTile "^GSPC" "S&P 500" (indexOf (Sample.quote 5000)))
      /\ Prices.dow (Prices.data r)
        = Some (indexTile "^DJI" "Dow Jones" (indexOf (Sample.quote 39000))))
  /\ occurrences "Unable to fetch metals prices" (warningsOf r) = 1%nat
  /\ occurrences "Unable to fetch stock indices" (warningsOf r) = 0%nat
  /\ List.length (warningsOf r) = 1%nat.
Proof.
  exact (proj1 partial_failure_envelopes (boot Sample.envNoMetalsKey 0)
           (Sample.metalsOk 2000 25) Sample.quotesOk).
Defined.

Lemma news_failure_example :
  (GET_api_news (boot Sample.env0 0) (Threw Sample.down)).1
  = {| News.success := false; News.error := Some "timeout of 10000ms exceeded";
       News.articles := []; News.lastUpdated := None |}
  /\ (GET_api_news (boot Sample.envNoMetalsKey 0)
        (Returned {| NewsApi.status := "error";
                     NewsApi.message := Some "apiKeyInvalid";
                     NewsApi.articles := [] |})).1
     = {| News.success := false; News.error := Some "apiKeyInvalid";
          News.articles := []; News.lastUpdated := None |}.
Proof. by vm_compute. Qed.

(** ** The metals tiles *)

Lemma spotPrice_null (direct inverse : option float) :
  truthy_opt direct = false -> truthy_opt inverse = false ->
  spotPrice direct inverse = None.
Proof.
  unfold spotPrice. intros -> Hinv.
  destruct inverse as [r|]; [|done]. simpl in Hinv. by rewrite Hinv.
Qed.

(** What a fresh, successful metals fetch returns. *)
Lemma fetchMetalsPrices_fresh (w : World) (d : MetalsApi.Data) :
  cache_get w metals_prices = None ->
  truthy_str (METALS_API_KEY (env w)) = true ->
  MetalsApi.success d = true ->
  (fetchMetalsPrices w (Returned d)).1
  = Fulfilled
      {| Metals.gold :=
           {| Metals.price :=
                spotPrice (MetalsApi.USDXAU (MetalsApi.rates d)) (MetalsApi.XAU (MetalsApi.rates d));
              Metals.timestamp := MetalsApi.timestamp d |};
         Metals.silver :=
           {| Metals.price :=
                spotPrice (MetalsApi.USDXAG (MetalsApi.rates d)) (MetalsApi.XAG (MetalsApi.rates d));
              Metals.timestamp := MetalsApi.timestamp d |};
         Metals.stale := false |}.
Proof.
  intros Hmiss Hkey Hok. unfold fetchMetalsPrices, metalsRequest.
  by rewrite Hmiss, Hkey, Hok.
Qed.

(** C3: whenever the metals fetch yields a gold price [p], the gold tile of
    [/api/prices] carries [previousClose = p * 0.998], [change = p * 0.002]
    and [changePercent = 0.2]; for a silver price [q] the tile carries
    [q * 0.995], [q * 0.005] and [0.5]; the products are those of binary64
    arithmetic, and for the gold price 2000 they are exactly 1996 and 4. *)
Theorem metals_synthetic_change (w : World) (metals : Try MetalsApi.Data)
    (quotes : Try (Yahoo.Quote * Yahoo.Quote)) (m : Metals.Result) :
  (fetchMetalsPrices w metals).1 = Fulfilled m ->
  let r := (GET_api_prices w metals quotes).1 in
  (forall p, Metals.price (Metals.gold m) = Some p ->
     exists t, Prices.gold (Prices.data r) = Some t
       /\ MetalTile.price t = Some p
       /\ MetalTile.previousClose t = (p * 0.998)%float
       /\ MetalTile.change t = (p * 0.002)%float
       /\ MetalTile.changePercent t = 0.2%float)
  /\ (forall q, Metals.price (Metals.silver m) = Some q ->
     exists t, Prices.silver (Prices.data r) = Some t
       /\ MetalTile.price t = Some q
       /\ MetalTile.previousClose t = (q * 0.995)%float
       /\ MetalTile.change t = (q * 0.005)%float
       /\ MetalTile.changePercent t = 0.5%float)
  /\ (Metals.price (Metals.gold m) = Some 2000%float ->
     exists t, Prices.gold (Prices.data r) = Some t
       /\ MetalTile.previousClose t = 1996%float
       /\ MetalTile.change t = 4%float
       /\ MetalTile.changePercent t = 0.2%float).
Proof.
  intros Hm r.
  assert (Prices.gold (Prices.data r) = Some (goldTile (Metals.gold m))
          /\ Prices.silver (Prices.data r) = Some (silverTile (Metals.silver m)))
    as [Hgold Hsilver].
  { subst r. rewrite GET_api_prices_unfold, Hm.
    apply (pricesResponse_total (Fulfilled m)). }
  split; [|split].
  - intros p Hp. exists (goldTile (Metals.gold m)).
    split; [done|]. unfold goldTile; simpl. by rewrite Hp.
  - intros q Hq. exists (silverTile (Metals.silver m)).
    split; [done|]. unfold silverTile; simpl. by rewrite Hq.
  - intros Hp. exists (goldTile (Metals.gold m)).
    split; [done|]. unfold goldTile; simpl. rewrite Hp. by vm_compute.
Qed.

Lemma metals_synthetic_change_witness :
  exists t,
    Prices.gold (Prices.data
      (GET_api_prices (boot Sample.env0 0) (Sample.metalsOk 2000 25) Sample.quotesOk).1)
    = Some t
    /\ MetalTile.previousClose t = 1996%float
    /\ MetalTile.change t = 4%float
    /\ MetalTile.changePercent t = 0.2%float.
Proof.
  exact (proj2 (proj2 (metals_synthetic_change (boot Sample.env0 0)
           (Sample.metalsOk 2000 25) Sample.quotesOk _ eq_refl)) eq_refl).
Defined.

(** C10: when the provider answers successfully but a metal has neither a
    truthy direct rate nor a truthy inverse rate, the price recorded for the
    metal is [null], and [/api/prices] still emits the metal's tile, with
    [previousClose] and [change] equal to 0 and the fixed [changePercent]. *)
Theorem missing_rate_emits_zero_tile (w : World) (d : MetalsApi.Data)
    (quotes : Try (Yahoo.Quote * Yahoo.Quote)) :
  cache_get w metals_prices = None ->
  truthy_str (METALS_API_KEY (env w)) = true ->
  MetalsApi.success d = true ->
  let r := (GET_api_prices w (Returned d) quotes).1 in
  (truthy_opt (MetalsApi.USDXAU (MetalsApi.rates d)) = false ->
   truthy_opt (MetalsApi.XAU (MetalsApi.rates d)) = false ->
   (exists m, (fetchMetalsPrices w (Returned d)).1 = Fulfilled m
      /\ Metals.price (Metals.gold m) = None)
   /\ Prices.gold (Prices.data r)
      = Some {| MetalTile.symbol := "XAU"; MetalTile.name := "Gold";
                MetalTile.price := None;
                MetalTile.previousClose := 0%float;
                MetalTile.change := 0%float;
                MetalTile.changePercent := 0.2%float;
                MetalTile.unit := "USD/oz" |})
  /\ (truthy_opt (MetalsApi.USDXAG (MetalsApi.rates d)) = false ->
      truthy_opt (MetalsApi.XAG (MetalsApi.rates d)) = false ->
      (exists m, (fetchMetalsPrices w (Returned d)).1 = Fulfilled m
         /\ Metals.price (Metals.silver m) = None)
      /\ Prices.silver (Prices.data r)
         = Some {| MetalTile.symbol := "XAG"; MetalTile.name := "Silver";
                   MetalTile.price := None;
                   MetalTile.previousClose := 0%float;
                   MetalTile.change := 0%float;
                   MetalTile.changePercent := 0.5%float;
                   MetalTile.unit := "USD/oz" |}).
Proof.
  intros Hmiss Hkey Hok r.
  pose proof (fetchMetalsPrices_fresh w d Hmiss Hkey Hok) as Hfetch.
  split; intros Hdirect Hinverse.
  - rewrite (spotPrice_null _ _ Hdirect Hinverse) in Hfetch.
    split; [eexists; split; [exact Hfetch|done]|].
    subst r. rewrite GET_api_prices_unfold, Hfetch.
    match goal with |- context [pricesResponse ?mr ?sr ?t] =>
      destruct (pricesResponse_total mr sr t) as (_ & [-> _] & _) end.
    by vm_compute.
  - rewrite (spotPrice_null _ _ Hdirect Hinverse) in Hfetch.
    split; [eexists; split; [exact Hfetch|done]|].
    subst r. rewrite GET_api_prices_unfold, Hfetch.
    match goal with |- context [pricesResponse ?mr ?sr ?t] =>
      destruct (pricesResponse_total mr sr t) as (_ & [_ ->] & _) end.
    by vm_compute.
Qed.

Lemma missing_rate_emits_zero_tile_witness :
  let r := (GET_api_prices (boot Sample.env0 0) (Returned Sample.noRates)
              Sample.quotesOk).1 in
  (MetalTile.price <$> Prices.gold (Prices.data r)) = Some None
  /\ (MetalTile.previousClose <$> Prices.gold (Prices.data r)) = Some 0%float
  /\ (MetalTile.change <$> Prices.silver (Prices.data r)) = Some 0%float
  /\ (MetalTile.changePercent <$> Prices.silver (Prices.data r)) = Some 0.5%float.
Proof.
  pose proof (missing_rate_emits_zero_tile (boot Sample.env0 0) Sample.noRates
    Sample.quotesOk eq_refl eq_refl eq_refl) as [Hgold Hsilver].
  destruct (Hgold eq_refl eq_refl) as [_ Hg].
  destruct (Hsilver eq_refl eq_refl) as [_ Hs].
  cbv zeta. rewrite Hg, Hs. repeat split.
Defined.

(** ** Deduplication of headlines *)

Lemma sublist_fmap {A B} (f : A -> B) (l1 l2 : list A) :
  l1 `sublist_of` l2 -> (f <$> l1) `sublist_of` (f <$> l2).
Proof. induction 1; simpl; by constructor. Qed.

Section dedup.
Implicit Types (seen : gset (option Utf16)) (l : list NewsApi.RawArticle).

Lemma dedupFilter_sublist seen l : dedupFilter seen l `sublist_of` l.
Proof.
  revert seen. induction l as [|x l IH]; intros seen; simpl; [constructor|].
  case_decide; by constructor.
Qed.

Lemma dedupFilter_fresh seen l a : a ∈ dedupFilter seen l -> keyOf a ∉ seen.
Proof.
  revert seen. induction l as [|x l IH]; intros seen; simpl; [by intros ?%elem_of_nil|].
  case_decide as Hx; [by apply IH|].
  intros [->|Ha]%elem_of_cons; [done|].
  apply IH in Ha. set_solver.
Qed.

Lemma dedupFilter_NoDup seen l : NoDup (keyOf <$> dedupFilter seen l).
Proof.
  revert seen. induction l as [|x l IH]; intros seen; simpl; [constructor|].
  case_decide as Hx; [by apply IH|].
  rewrite fmap_cons. apply NoDup_cons. split; [|by apply IH].
  intros (b & Hkey & Hb)%list_elem_of_fmap. apply dedupFilter_fresh in Hb.
  unfold keyOf in *. set_solver.
Qed.

Lemma dedupFilter_complete seen l a :
  a ∈ l -> keyOf a ∉ seen -> exists b, b ∈ dedupFilter seen l /\ keyOf b = keyOf a.
Proof.
  revert seen. induction l as [|x l IH]; intros seen; simpl; [by intros ?%elem_of_nil|].
  intros [->|Ha]%elem_of_cons Hfresh.
  - case_decide as Hx; [done|]. exists x. split; [left|done].
  - case_decide as Hx; [by apply IH|].
    destruct (decide (keyOf a = keyOf x)) as [Heq|Hne].
    + exists x. split; [left|done].
    + destruct (IH ({[ keyOf x ]} ∪ seen) Ha) as (b & Hb & Hkey).
      { apply not_elem_of_union. split; [by apply not_elem_of_singleton|done]. }
      exists b. split; [by right|done].
Qed.

Lemma dedupFilter_first seen l a :
  a ∈ dedupFilter seen l -> firstOfItsKey a l.
Proof.
  revert seen. induction l as [|x l IH]; intros seen; simpl; [by intros ?%elem_of_nil|].
  case_decide as Hx.
  - intros Ha. pose proof (dedupFilter_fresh _ _ _ Ha) as Hfresh.
    destruct (IH _ Ha) as (l1 & l2 & -> & Hl1).
    exists (x :: l1), l2. split; [done|].
    intros b [->|Hb]%elem_of_cons; [|by apply Hl1].
    unfold keyOf in *. congruence.
  - intros [->|Ha]%elem_of_cons.
    + exists [], l. split; [done|]. by intros b ?%elem_of_nil.
    + pose proof (dedupFilter_fresh _ _ _ Ha) as Hfresh.
      destruct (IH _ Ha) as (l1 & l2 & -> & Hl1).
      exists (x :: l1), l2. split; [done|].
      intros b [->|Hb]%elem_of_cons; [|by apply Hl1].
      unfold keyOf in *. set_solver.
Qed.

(** The headline filter is the deduplication of the eligible articles: a
    rejected title neither passes nor marks its key as seen. *)
Lemma headlineFilter_eligible seen l :
  headlineFilter seen l = dedupFilter seen (eligible l).
Proof.
  revert seen. induction l as [|x l IH]; intros seen; [done|].
  unfold eligible in *. simpl. rewrite filter_cons.
  destruct (placeholderTitle (NewsApi.title x)) eqn:Hp.
  - destruct (decide (true = false)) as [?|_]; [done|]. case_decide; apply IH.
  - destruct (decide (false = false)) as [_|?]; [|done]. simpl.
    case_decide; [apply IH|]. f_equal. apply IH.
Qed.

End dedup.

Lemma dedupArticles_keys (raw : list NewsApi.RawArticle) :
  dedupKey ∘ title <$> dedupArticles raw = take 10 (keyOf <$> dedupFilter ∅ raw).
Proof.
  unfold dedupArticles. rewrite fmap_take, <- list_fmap_compose. done.
Qed.

Lemma dedupHeadlines_keys (raw : list NewsApi.RawArticle) :
  dedupKey ∘ h_title <$> dedupHeadlines raw = take 25 (keyOf <$> headlineFilter ∅ raw).
Proof.
  unfold dedupHeadlines. rewrite fmap_take, <- list_fmap_compose. done.
Qed.

Lemma fetchMacroNews_fresh (w : World) (response : Try NewsApi.Data) raw :
  cache_get w macro_news = None -> newsRequest (env w) response = Returned raw ->
  fetchMacroNews w response
  = (Fulfilled (dedupArticles raw), cache_set w macro_news (dedupArticles raw) (Some 600)).
Proof. intros Hmiss Hreq. unfold fetchMacroNews. by rewrite Hmiss, Hreq. Qed.

Lemma fetchInflationNews_fresh (w : World) (response : Try NewsApi.Data) raw :
  cache_get w inflation_news = None -> newsRequest (env w) response = Returned raw ->
  fetchInflationNews w response
  = (Fulfilled (dedupArticles raw), cache_set w inflation_news (dedupArticles raw) (Some 600)).
Proof. intros Hmiss Hreq. unfold fetchInflationNews. by rewrite Hmiss, Hreq. Qed.

Lemma fetchGoldNews_fresh (w : World) (response : Try NewsApi.Data) raw :
  cache_get w gold_news = None -> newsRequest (env w) response = Returned raw ->
  fetchGoldNews w response
  = (Fulfilled (dedupArticles raw), cache_set w gold_news (dedupArticles raw) (Some 600)).
Proof. intros Hmiss Hreq. unfold fetchGoldNews. by rewrite Hmiss, Hreq. Qed.

Lemma fetchBullishHeadlines_fresh (w : World) (response : Try NewsApi.Data) raw :
  cache_get w bullish_headlines = None -> newsRequest (env w) response = Returned raw ->
  fetchBullishHeadlines w response
  = (Fulfilled (dedupHeadlines raw),
     cache_set w bullish_headlines (dedupHeadlines raw) (Some 600)).
Proof. intros Hmiss Hreq. unfold fetchBullishHeadlines. by rewrite Hmiss, Hreq. Qed.

Lemma fetchNews_fresh (w : World) (response : Try NewsApi.Data) raw :
  cache_get w news = None -> newsRequest (env w) response = Returned raw ->
  fetchNews w response
  = (Fulfilled (projectPlain <$> raw), cache_set w news (projectPlain <$> raw) (Some 43200)).
Proof. intros Hmiss Hreq. unfold fetchNews. by rewrite Hmiss, Hreq. Qed.

(** *** The key *)

Lemma toLowerCase_app (a b : Utf16) :
  toLowerCase (a ++ b)%list = (toLowerCase a ++ toLowerCase b)%list.
Proof. apply bind_app. Qed.

Lemma strip_non_alnum_spec (s : Utf16) :
  Forall (fun c => is_a_z0_9 c = true) (strip_non_alnum s)
  /\ (List.length (strip_non_alnum s) <= List.length s)%nat.
Proof.
  induction s as [|c s [IH1 IH2]]; simpl; [by split|].
  destruct (is_a_z0_9 c) eqn:Hc; simpl; split; try done; [by constructor|lia..].
Qed.

Lemma strip_non_alnum_fixed (s : Utf16) :
  Forall (fun c => is_a_z0_9 c = true) s -> strip_non_alnum s = s.
Proof. induction 1 as [|c s Hc _ IH]; simpl; [done|]. by rewrite Hc, IH. Qed.

Lemma lower_unit_fixed (c : N) : is_a_z0_9 c = true -> lower_unit c = [c].
Proof.
  unfold is_a_z0_9, lower_unit. intros Hc.
  apply orb_true_iff in Hc. rewrite !andb_true_iff, !N.leb_le in Hc.
  rewrite (proj2 (andb_false_iff _ _)) by (rewrite !N.leb_gt; lia).
  by rewrite !(proj2 (N.eqb_neq _ _)) by lia.
Qed.

Lemma toLowerCase_fixed (s : Utf16) :
  Forall (fun c => is_a_z0_9 c = true) s -> toLowerCase s = s.
Proof.
  induction 1 as [|c s Hc _ IH]; [done|].
  unfold toLowerCase in *. rewrite bind_cons, IH, (lower_unit_fixed c Hc). done.
Qed.

(** The key looks at the first 50 code units of the lowercased title
    only. *)
Lemma dedupKey_cut (head tail : Utf16) :
  List.length (toLowerCase head) = 50%nat ->
  dedupKey (Some (head ++ tail)%list) = Some (strip_non_alnum (toLowerCase head)).
Proof.
  intros Hlen. unfold dedupKey, slice0; simpl.
  by rewrite toLowerCase_app, take_app_length'.
Qed.

(** *** First occurrences *)

Section firstOfEachKey.
Context {A K : Type} `{EqDecision K} (key : A -> K).

Lemma firstOfEachKey_sublist (l : list A) : firstOfEachKey key l `sublist_of` l.
Proof.
  induction l as [|a l IH]; simpl; [done|].
  apply sublist_skip. etrans; [apply sublist_filter|done].
Qed.

Lemma firstOfEachKey_NoDup (l : list A) : NoDup (key <$> firstOfEachKey key l).
Proof.
  induction l as [|a l IH]; simpl; [constructor|].
  apply NoDup_cons. split.
  - intros (b & Hkey & Hb)%list_elem_of_fmap.
    apply list_elem_of_filter in Hb as [Hne _]. by destruct Hne.
  - eapply sublist_NoDup; [exact IH|]. apply sublist_fmap, sublist_filter.
Qed.

Lemma firstOfEachKey_keys (l : list A) (k : K) :
  k ∈ (key <$> firstOfEachKey key l) <-> k ∈ (key <$> l).
Proof.
  induction l as [|a l IH]; cbn [firstOfEachKey]; [done|].
  rewrite !fmap_cons, !elem_of_cons, <- IH, !list_elem_of_fmap. split.
  - intros [?|(b & -> & [_ Hb]%list_elem_of_filter)]; [by left|right; eauto].
  - intros [?|(b & -> & Hb)]; [by left|].
    destruct (decide (key b = key a)) as [?|Hne]; [by left|right].
    exists b. split; [done|]. by apply list_elem_of_filter.
Qed.

Lemma firstOfEachKey_fmap (l : list A) :
  key <$> firstOfEachKey key l = firstOfEachKey id (key <$> l).
Proof.
  induction l as [|a l IH]; cbn [firstOfEachKey]; [done|].
  rewrite !fmap_cons. cbn [firstOfEachKey]. f_equal. rewrite <- IH.
  generalize (firstOfEachKey key l). intros l'.
  induction l' as [|b l' IH']; [done|].
  rewrite fmap_cons, !filter_cons. unfold id at 1 2.
  destruct (decide (key b <> key a)); by rewrite ?fmap_cons, IH'.
Qed.

End firstOfEachKey.

Lemma firstOfEachKey_id_NoDup {K} `{EqDecision K} (l : list K) :
  NoDup (firstOfEachKey id l).
Proof. rewrite <- (list_fmap_id (firstOfEachKey id l)). apply firstOfEachKey_NoDup. Qed.

Lemma firstOfEachKey_id_keys {K} `{EqDecision K} (l : list K) (k : K) :
  k ∈ firstOfEachKey id l <-> k ∈ l.
Proof.
  pose proof (firstOfEachKey_keys id l k) as H'.
  by rewrite !list_fmap_id in H'.
Qed.

Section dedup_exact.
Implicit Types (seen : gset (option Utf16)) (l : list NewsApi.RawArticle).

Lemma dedupFilter_firstOfEachKey seen l :
  dedupFilter seen l = filter (fun a => keyOf a ∉ seen) (firstOfEachKey keyOf l).
Proof.
  revert seen. induction l as [|x l IH]; intros seen; simpl; [done|].
  rewrite filter_cons. fold (keyOf x). case_decide as Hx.
  - rewrite decide_False by (by intros H; apply H).
    rewrite IH, list_filter_filter. apply list_filter_iff. intros b. split.
    + intros Hb. split; [done|]. by intros Heq; rewrite Heq in Hb.
    + by intros [Hb _].
  - rewrite decide_True by done. f_equal.
    rewrite IH, list_filter_filter. apply list_filter_iff. intros b.
    rewrite not_elem_of_union, not_elem_of_singleton. tauto.
Qed.

Lemma dedupFilter_exact l : dedupFilter ∅ l = firstOfEachKey keyOf l.
Proof.
  rewrite dedupFilter_firstOfEachKey.
  induction (firstOfEachKey keyOf l) as [|a l' IH]; [done|].
  rewrite filter_cons, decide_True by apply not_elem_of_empty. by rewrite IH.
Qed.

Lemma headlineFilter_exact l : headlineFilter ∅ l = firstOfEachKey keyOf (eligible l).
Proof. by rewrite headlineFilter_eligible, dedupFilter_exact. Qed.

End dedup_exact.

(** C4: the key of an article is its lowercased title cut to 50 code units
    and stripped of everything but a-z and 0-9: it holds at most 50 code
    units, all of them a-z or 0-9; a title that is such a string is its own
    key; and two titles that continue the same 50 units differently have
    the same key.  On a miss, the macro, inflation and gold fetchers return
    the first article of each key, in the order of the provider's list,
    projected and cut to 10, and the headline fetcher the same of the
    articles with an acceptable title, cut to 25.  So the keys of the output
    are the first 10 (or 25) distinct keys of the input in the order of
    their first occurrence, each once: articles of one key collapse to a
    single entry, the first of them, and while the cap is not reached every
    key of the input has its entry. *)
Theorem dedup_by_normalized_title (raw : list NewsApi.RawArticle) :
  (forall t key, dedupKey (Some t) = Some key ->
     Forall (fun c => is_a_z0_9 c = true) key /\ (List.length key <= 50)%nat)
  /\ (forall t, Forall (fun c => is_a_z0_9 c = true) t -> (List.length t <= 50)%nat ->
        dedupKey (Some t) = Some t)
  /\ (forall head tail tail' : Utf16,
        List.length (toLowerCase head) = 50%nat ->
        dedupKey (Some (head ++ tail)%list) = dedupKey (Some (head ++ tail')%list))
  /\ dedupKey None = None
  /\ (forall w response,
        newsRequest (env w) response = Returned raw ->
        (cache_get w macro_news = None ->
           (fetchMacroNews w response).1
           = Fulfilled (take 10 (projectArticle <$> firstOfEachKey keyOf raw)))
        /\ (cache_get w inflation_news = None ->
           (fetchInflationNews w response).1
           = Fulfilled (take 10 (projectArticle <$> firstOfEachKey keyOf raw)))
        /\ (cache_get w gold_news = None ->
           (fetchGoldNews w response).1
           = Fulfilled (take 10 (projectArticle <$> firstOfEachKey keyOf raw)))
        /\ (cache_get w bullish_headlines = None ->
           (fetchBullishHeadlines w response).1
           = Fulfilled (take 25 (projectHeadline <$> firstOfEachKey keyOf (eligible raw)))))
  /\ dedupKey ∘ title <$> dedupArticles raw = take 10 (firstOfEachKey id (keyOf <$> raw))
  /\ dedupKey ∘ h_title <$> dedupHeadlines raw
     = take 25 (firstOfEachKey id (keyOf <$> eligible raw))
  /\ NoDup (firstOfEachKey id (keyOf <$> raw))
  /\ (forall k, k ∈ firstOfEachKey id (keyOf <$> raw) <-> k ∈ (keyOf <$> raw))
  /\ NoDup (dedupKey ∘ title <$> dedupArticles raw)
  /\ NoDup (dedupKey ∘ h_title <$> dedupHeadlines raw)
  /\ ((List.length (dedupArticles raw) < 10)%nat ->
        forall a, a ∈ raw ->
          exists x, x ∈ dedupArticles raw /\ dedupKey (title x) = keyOf a)
  /\ ((List.length (dedupHeadlines raw) < 25)%nat ->
        forall a, a ∈ eligible raw ->
          exists x, x ∈ dedupHeadlines raw /\ dedupKey (h_title x) = keyOf a)
  /\ dedupArticles raw `sublist_of` (projectArticle <$> raw)
  /\ dedupHeadlines raw `sublist_of` (projectHeadline <$> raw)
  /\ (forall x, x ∈ dedupArticles raw ->
        exists a, x = projectArticle a /\ firstOfItsKey a raw)
  /\ (forall x, x ∈ dedupHeadlines raw ->
        exists a, x = projectHeadline a /\ firstOfItsKey a (eligible raw)).
Proof.
  assert (dedupArticles raw = take 10 (projectArticle <$> firstOfEachKey keyOf raw))
    as Harticles by (unfold dedupArticles; by rewrite dedupFilter_exact).
  assert (dedupHeadlines raw
          = take 25 (projectHeadline <$> firstOfEachKey keyOf (eligible raw)))
    as Hheadlines by (unfold dedupHeadlines; by rewrite headlineFilter_exact).
  assert (dedupKey ∘ title <$> dedupArticles raw
          = take 10 (firstOfEachKey id (keyOf <$> raw))) as Hkeys.
  { by rewrite dedupArticles_keys, dedupFilter_exact, firstOfEachKey_fmap. }
  assert (dedupKey ∘ h_title <$> dedupHeadlines raw
          = take 25 (firstOfEachKey id (keyOf <$> eligible raw))) as Hkeys'.
  { by rewrite dedupHeadlines_keys, headlineFilter_exact, firstOfEachKey_fmap. }
  split.
  { intros t key Hkey.
    assert (key = strip_non_alnum (take 50 (toLowerCase t))) as ->
      by (unfold dedupKey, slice0 in *; simpl in *; congruence).
    destruct (strip_non_alnum_spec (take 50 (toLowerCase t))) as [H1 H2].
    split; [done|]. rewrite length_take in H2. lia. }
  split.
  { intros t Ht Hlen. unfold dedupKey, slice0; simpl.
    by rewrite toLowerCase_fixed, take_ge, strip_non_alnum_fixed. }
  split; [intros head tail tail' Hlen; by rewrite !dedupKey_cut|].
  split; [done|]. split.
  { intros w response Hreq. rewrite <- Harticles, <- Hheadlines.
    repeat split; intros Hmiss.
    - by rewrite (fetchMacroNews_fresh _ _ _ Hmiss Hreq).
    - by rewrite (fetchInflationNews_fresh _ _ _ Hmiss Hreq).
    - by rewrite (fetchGoldNews_fresh _ _ _ Hmiss Hreq).
    - by rewrite (fetchBullishHeadlines_fresh _ _ _ Hmiss Hreq). }
  split; [done|]. split; [done|].
  split; [apply firstOfEachKey_id_NoDup|].
  split; [intros k; apply firstOfEachKey_id_keys|].
  split.
  { rewrite Hkeys. eapply sublist_NoDup; [apply firstOfEachKey_id_NoDup|].
    apply sublist_take. }
  split.
  { rewrite Hkeys'. eapply sublist_NoDup; [apply firstOfEachKey_id_NoDup|].
    apply sublist_take. }
  split.
  { intros Hcap a Ha. rewrite Harticles in Hcap |- *.
    rewrite length_take in Hcap. rewrite take_ge by lia.
    assert (keyOf a ∈ (keyOf <$> firstOfEachKey keyOf raw)) as Hk.
    { apply firstOfEachKey_keys, list_elem_of_fmap. by exists a. }
    apply list_elem_of_fmap in Hk as (b & Hkey & Hb).
    exists (projectArticle b). split; [|done].
    apply list_elem_of_fmap. by exists b. }
  split.
  { intros Hcap a Ha. rewrite Hheadlines in Hcap |- *.
    rewrite length_take in Hcap. rewrite take_ge by lia.
    assert (keyOf a ∈ (keyOf <$> firstOfEachKey keyOf (eligible raw))) as Hk.
    { apply firstOfEachKey_keys, list_elem_of_fmap. by exists a. }
    apply list_elem_of_fmap in Hk as (b & Hkey & Hb).
    exists (projectHeadline b). split; [|done].
    apply list_elem_of_fmap. by exists b. }
  split.
  { unfold dedupArticles. etrans; [apply sublist_take|].
    apply sublist_fmap, dedupFilter_sublist. }
  split.
  { unfold dedupHeadlines. etrans; [apply sublist_take|].
    apply sublist_fmap. rewrite headlineFilter_eligible.
    etrans; [apply dedupFilter_sublist|apply sublist_filter]. }
  split.
  - intros x Hx. unfold dedupArticles in Hx.
    apply (sublist_subseteq _ _ (sublist_take _ _)) in Hx.
    apply list_elem_of_fmap in Hx as (a & -> & Ha).
    exists a. split; [done|]. by eapply dedupFilter_first.
  - intros x Hx. unfold dedupHeadlines in Hx.
    apply (sublist_subseteq _ _ (sublist_take _ _)) in Hx.
    apply list_elem_of_fmap in Hx as (a & -> & Ha).
    exists a. split; [done|]. rewrite headlineFilter_eligible in Ha.
    by eapply dedupFilter_first.
Qed.

Lemma dedup_by_normalized_title_witness :
  (fetchMacroNews (boot Sample.env0 0) Sample.longNews).1
  = Fulfilled
      [ projectArticle
          (Sample.article (Some "Gold Prices Surge To Record Highs As Investors Seek Safety")
             "https://example.com/1");
        projectArticle (Sample.article (Some "Silver catches up") "https://example.com/3");
        projectArticle
          (Sample.article (Some "Gold prices surge, to record highs, as investors see fit")
             "https://example.com/4") ]
  /\ dedupKey (Some (utf16 Sample.fifty ++ utf16 "k Safety")%list)
     = dedupKey (Some (utf16 Sample.fifty ++ utf16 " INFLATION RISE")%list)
  /\ dedupKey (Some (utf16 "goldprices2024")) = Some (utf16 "goldprices2024").
Proof.
  destruct (dedup_by_normalized_title Sample.longTitles)
    as (_ & Hown & Hcut & _ & Hfetch & _).
  split; [|split].
  - exact (proj1 (Hfetch (boot Sample.env0 0) Sample.longNews eq_refl) eq_refl).
  - exact (Hcut (utf16 Sample.fifty) (utf16 "k Safety") (utf16 " INFLATION RISE") eq_refl).
  - apply Hown; [|vm_compute; lia]. by repeat constructor.
Defined.

(** ** Placeholder titles *)

(** C5 (fails on the code): only [fetchBullishHeadlines] rejects a missing
    title or the provider's ["[Removed]"] marker.  On an answer that holds a
    redacted article and an article without a title, the general, macro,
    inflation and gold fetchers return both, while the headline fetcher
    drops them. *)
Theorem placeholder_titles_pass_article_fetchers :
  let w := boot Sample.env0 0 in
  let titles (r : Settled (list Article)) :=
    match r with Fulfilled l => title <$> l | Rejected _ => [] end in
  titles (fetchNews w Sample.newsOk).1
    = (fmap utf16 <$> [Some "[Removed]"; None; Some "Gold Hits $2,000!"; Some "GOLD hits 2000"])
  /\ titles (fetchMacroNews w Sample.newsOk).1
    = (fmap utf16 <$> [Some "[Removed]"; None; Some "Gold Hits $2,000!"])
  /\ titles (fetchInflationNews w Sample.newsOk).1
    = (fmap utf16 <$> [Some "[Removed]"; None; Some "Gold Hits $2,000!"])
  /\ titles (fetchGoldNews w Sample.newsOk).1
    = (fmap utf16 <$> [Some "[Removed]"; None; Some "Gold Hits $2,000!"])
  /\ (News.articles (GET_api_macro_news w Sample.newsOk).1) !! 1%nat
    = Some (projectArticle (Sample.article None "https://example.com/untitled"))
  /\ (fetchBullishHeadlines w Sample.newsOk).1
    = Fulfilled [projectHeadline (Sample.article (Some "Gold Hits $2,000!")
                                    "https://example.com/a")].
Proof. vm_compute. repeat split. Qed.

(** What the headline fetcher does guarantee: no headline it computes has a
    missing title, an empty title or a title that includes the marker. *)
Lemma dedupHeadlines_no_placeholder (raw : list NewsApi.RawArticle) (h : Headline) :
  h ∈ dedupHeadlines raw -> placeholderTitle (h_title h) = false.
Proof.
  unfold dedupHeadlines. intros Hh.
  apply (sublist_subseteq _ _ (sublist_take _ _)) in Hh.
  apply list_elem_of_fmap in Hh as (a & -> & Ha).
  rewrite headlineFilter_eligible in Ha.
  apply (sublist_subseteq _ _ (dedupFilter_sublist _ _)) in Ha.
  unfold eligible in Ha. by apply list_elem_of_filter in Ha as [Ha _].
Qed.

(** ** What a request writes *)

Ltac fetch_effect f :=
  intros; unfold writesAtMost, f; repeat case_match; simpl; eauto.

Lemma fetchMetalsPrices_effect w response :
  writesAtMost metals_prices w (fetchMetalsPrices w response).2.
Proof. fetch_effect fetchMetalsPrices. Qed.

Lemma fetchStockIndices_effect w quotes :
  writesAtMost stock_indices w (fetchStockIndices w quotes).2.
Proof. fetch_effect fetchStockIndices. Qed.

Lemma fetchNews_effect w response :
  writesAtMost news w (fetchNews w response).2.
Proof. fetch_effect fetchNews. Qed.

Lemma fetchMacroNews_effect w response :
  writesAtMost macro_news w (fetchMacroNews w response).2.
Proof. fetch_effect fetchMacroNews. Qed.

Lemma fetchInflationNews_effect w response :
  writesAtMost inflation_news w (fetchInflationNews w response).2.
Proof. fetch_effect fetchInflationNews. Qed.

Lemma fetchGoldNews_effect w response :
  writesAtMost gold_news w (fetchGoldNews w response).2.
Proof. fetch_effect fetchGoldNews. Qed.

Lemma fetchBullishHeadlines_effect w response :
  writesAtMost bullish_headlines w (fetchBullishHeadlines w response).2.
Proof. fetch_effect fetchBullishHeadlines. Qed.

Lemma GET_api_performance_effect w up :
  (GET_api_performance w up).2 = w
  \/ (GET_api_performance w up).2 = cache_set w performance_data (assetData up) (Some 3600).
Proof. unfold GET_api_performance; repeat case_match; simpl; eauto. Qed.

Lemma writesAtMost_frame k0 w w' :
  writesAtMost k0 w w' ->
  env w' = env w /\ now w' = now w
  /\ NodeCache.stdTTL (cache w') = NodeCache.stdTTL (cache w).
Proof. by intros [->|[v ->]]. Qed.

Lemma writesAtMost_entry k0 w w' k :
  writesAtMost k0 w w' ->
  entry w' k = entry w k
  \/ (k = k0 /\ exists v, entry w' k
        = Some {| NodeCache.value := v; NodeCache.storedAt := now w;
                  NodeCache.ttlSeconds :=
                    default (NodeCache.stdTTL (cache w)) (ttlArgument k) |}).
Proof.
  intros [->|[v ->]]; [by left|].
  destruct (decide (k0 = k)) as [<-|Hne].
  - right. split; [done|]. exists v. apply entry_cache_set_eq.
  - left. by apply entry_cache_set_ne.
Qed.

Lemma writesAtMost_other k0 w w' k :
  writesAtMost k0 w w' -> k <> k0 -> entry w' k = entry w k.
Proof. intros Hw Hne. by destruct (writesAtMost_entry _ _ _ k Hw) as [?|[? _]]. Qed.

(** What serving a request does to the world: at most two writes, each by
    the fetcher of the key. *)
Lemma serve_effect (w : World) (r : Request) :
  match r with
  | Get_prices _ _ =>
      exists w1, writesAtMost metals_prices w w1
                 /\ writesAtMost stock_indices w1 (serve w r).2
  | Get_news _ => writesAtMost news w (serve w r).2
  | Get_macro_news _ => writesAtMost macro_news w (serve w r).2
  | Get_news_inflation _ => writesAtMost inflation_news w (serve w r).2
  | Get_news_gold _ => writesAtMost gold_news w (serve w r).2
  | Get_news_headlines _ => writesAtMost bullish_headlines w (serve w r).2
  | Get_performance up =>
      (serve w r).2 = w
      \/ (serve w r).2 = cache_set w performance_data (assetData up) (Some 3600)
  | Get_health => (serve w r).2 = w
  end.
Proof.
  destruct r as [metals quotes|response|response|response|response|response|up|]; simpl.
  - unfold GET_api_prices.
    pose proof (fetchMetalsPrices_effect w metals) as H1.
    destruct (fetchMetalsPrices w metals) as [mr w1]; simpl in *.
    pose proof (fetchStockIndices_effect w1 quotes) as H2.
    destruct (fetchStockIndices w1 quotes) as [sr w2]; simpl in *. eauto.
  - unfold GET_api_news. pose proof (fetchNews_effect w response) as H.
    by destruct (fetchNews w response).
  - unfold GET_api_macro_news. pose proof (fetchMacroNews_effect w response) as H.
    by destruct (fetchMacroNews w response).
  - unfold GET_api_news_inflation. pose proof (fetchInflationNews_effect w response) as H.
    by destruct (fetchInflationNews w response).
  - unfold GET_api_news_gold. pose proof (fetchGoldNews_effect w response) as H.
    by destruct (fetchGoldNews w response).
  - unfold GET_api_news_headlines.
    pose proof (fetchBullishHeadlines_effect w response) as H.
    by destruct (fetchBullishHeadlines w response).
  - apply GET_api_performance_effect.
  - done.
Qed.

(** Serving a request writes at most two keys, each with the TTL argument
    of its source. *)
Lemma serve_writes (w : World) (r : Request) :
  exists k1 k2 w1, writesAtMost k1 w w1 /\ writesAtMost k2 w1 (serve w r).2.
Proof.
  pose proof (serve_effect w r) as H. destruct r; simpl in H.
  - destruct H as (w1 & H1 & H2). eauto 6.
  - exists news, news, w. split; [by left|done].
  - exists news, macro_news, w. split; [by left|done].
  - exists news, inflation_news, w. split; [by left|done].
  - exists news, gold_news, w. split; [by left|done].
  - exists news, bullish_headlines, w. split; [by left|done].
  - exists news, performance_data, w. split; [by left|].
    destruct H as [H|H]; [by left|right; eauto].
  - exists news, news, w. split; by left.
Qed.

Lemma serve_frame (w : World) (r : Request) :
  env (serve w r).2 = env w /\ now (serve w r).2 = now w
  /\ NodeCache.stdTTL (cache (serve w r).2) = NodeCache.stdTTL (cache w).
Proof.
  destruct (serve_writes w r) as (k1 & k2 & w1 & H1 & H2).
  apply writesAtMost_frame in H1 as (?&?&?), H2 as (?&?&?).
  repeat split; congruence.
Qed.

(** The store of a running server keeps the TTL it was built with. *)
Lemma reachable_stdTTL (w : World) :
  reachable w -> NodeCache.stdTTL (cache w) = CACHE_TTL (env w).
Proof.
  induction 1 as [e t0|w r _ IH|w dt _ IH]; [done| |done].
  destruct (serve_frame w r) as (-> & _ & ->). done.
Qed.

Lemma default_ttlArgument (e : Env) (k : Key) :
  default (CACHE_TTL e) (ttlArgument k) = specTTL e k.
Proof. by destruct k. Qed.

(** C6: on a running server a fetch that misses the cache and gets an answer
    from its provider stores the value it returns, stamped with the time of
    the request and carrying the TTL of its source: for metals prices and
    stock indices the number [CACHE_TTL] of the environment, 30 s when the
    variable is missing, does not parse or is 0; 43200 s for the general
    news feed; 600 s for the macro, inflation and gold feeds and for the
    headlines; 3600 s for the performance data.  And whenever serving a
    request changes the entry of a key, the new entry carries that time and
    that TTL. *)
Theorem cache_writes_use_source_ttl (w : World) :
  reachable w ->
  let defaultTTL :=
    match CACHE_TTL_parsed (env w) with
    | Some n => if decide (n = 0) then 30 else n
    | None => 30
    end in
  (forall response result,
     cache_get w metals_prices = None ->
     metalsRequest (env w) response = Returned result ->
     entry (fetchMetalsPrices w response).2 metals_prices
     = Some {| NodeCache.value := result; NodeCache.storedAt := now w;
               NodeCache.ttlSeconds := defaultTTL |})
  /\ (forall quotes result,
        cache_get w stock_indices = None ->
        stocksRequest quotes = Returned result ->
        entry (fetchStockIndices w quotes).2 stock_indices
        = Some {| NodeCache.value := result; NodeCache.storedAt := now w;
                  NodeCache.ttlSeconds := defaultTTL |})
  /\ (forall response raw,
        newsRequest (env w) response = Returned raw ->
        (cache_get w news = None ->
         entry (fetchNews w response).2 news
         = Some {| NodeCache.value := projectPlain <$> raw; NodeCache.storedAt := now w;
                   NodeCache.ttlSeconds := 43200 |})
        /\ (cache_get w macro_news = None ->
            entry (fetchMacroNews w response).2 macro_news
            = Some {| NodeCache.value := dedupArticles raw; NodeCache.storedAt := now w;
                      NodeCache.ttlSeconds := 600 |})
        /\ (cache_get w inflation_news = None ->
            entry (fetchInflationNews w response).2 inflation_news
            = Some {| NodeCache.value := dedupArticles raw; NodeCache.storedAt := now w;
                      NodeCache.ttlSeconds := 600 |})
        /\ (cache_get w gold_news = None ->
            entry (fetchGoldNews w response).2 gold_news
            = Some {| NodeCache.value := dedupArticles raw; NodeCache.storedAt := now w;
                      NodeCache.ttlSeconds := 600 |})
        /\ (cache_get w bullish_headlines = None ->
            entry (fetchBullishHeadlines w response).2 bullish_headlines
            = Some {| NodeCache.value := dedupHeadlines raw; NodeCache.storedAt := now w;
                      NodeCache.ttlSeconds := 600 |}))
  /\ (forall up,
        cache_get w performance_data = None -> yahooFinance up = Returned () ->
        entry (GET_api_performance w up).2 performance_data
        = Some {| NodeCache.value := assetData up; NodeCache.storedAt := now w;
                  NodeCache.ttlSeconds := 3600 |})
  /\ (forall r k,
        entry (serve w r).2 k <> entry w k ->
        exists v, entry (serve w r).2 k
          = Some {| NodeCache.value := v; NodeCache.storedAt := now w;
                    NodeCache.ttlSeconds :=
                      match k with
                      | metals_prices | stock_indices => defaultTTL
                      | news => 43200
                      | macro_news | inflation_news | gold_news | bullish_headlines => 600
                      | performance_data => 3600
                      end |}).
Proof.
  intros Hreach defaultTTL.
  pose proof (reachable_stdTTL w Hreach) as Hstd.
  change (CACHE_TTL (env w)) with defaultTTL in Hstd.
  split; [|split; [|split; [|split]]].
  - intros response result Hmiss Hrequest. unfold fetchMetalsPrices.
    rewrite Hmiss, Hrequest. cbn [snd]. by rewrite entry_cache_set_eq, Hstd.
  - intros quotes result Hmiss Hrequest. unfold fetchStockIndices.
    rewrite Hmiss, Hrequest. cbn [snd]. by rewrite entry_cache_set_eq, Hstd.
  - intros response raw Hrequest. repeat split; intros Hmiss.
    + rewrite (fetchNews_fresh _ _ _ Hmiss Hrequest). apply entry_cache_set_eq.
    + rewrite (fetchMacroNews_fresh _ _ _ Hmiss Hrequest). apply entry_cache_set_eq.
    + rewrite (fetchInflationNews_fresh _ _ _ Hmiss Hrequest). apply entry_cache_set_eq.
    + rewrite (fetchGoldNews_fresh _ _ _ Hmiss Hrequest). apply entry_cache_set_eq.
    + rewrite (fetchBullishHeadlines_fresh _ _ _ Hmiss Hrequest). apply entry_cache_set_eq.
  - intros up Hmiss Himport. unfold GET_api_performance.
    rewrite Hmiss, Himport. apply entry_cache_set_eq.
  - intros r k Hchanged.
    assert (exists v, entry (serve w r).2 k
              = Some {| NodeCache.value := v; NodeCache.storedAt := now w;
                        NodeCache.ttlSeconds := specTTL (env w) k |}) as [v Hv].
    { destruct (serve_writes w r) as (k1 & k2 & w1 & H1 & H2).
      pose proof (writesAtMost_frame _ _ _ H1) as (_ & Hnow & Hstd1).
      destruct (writesAtMost_entry _ _ _ k H2) as [Hsame2|[_ [v Hv]]].
      - destruct (writesAtMost_entry _ _ _ k H1) as [Hsame1|[_ [v Hv]]]; [congruence|].
        exists v. rewrite Hsame2, Hv, Hstd. by destruct k.
      - exists v. rewrite Hv, Hnow, Hstd1, Hstd. by destruct k. }
    exists v. rewrite Hv. by destruct k.
Qed.

Lemma cache_writes_use_source_ttl_witness :
  entry (fetchStockIndices (boot Sample.envNoMetalsKey 0) Sample.quotesOk).2 stock_indices
  = Some {| NodeCache.value :=
              {| Stocks.sp500 := indexOf (Sample.quote 5000);
                 Stocks.dow := indexOf (Sample.quote 39000);
                 Stocks.stale := false |};
            NodeCache.storedAt := 0;
            NodeCache.ttlSeconds := 60 |}.
Proof.
  exact (proj1 (proj2 (cache_writes_use_source_ttl (boot Sample.envNoMetalsKey 0)
                         (reachable_boot Sample.envNoMetalsKey 0)))
           Sample.quotesOk _ eq_refl eq_refl).
Defined.

(** ** Health *)


(** ** Sorting *)

Section sorting.
Context {A : Type} (compareFn : A -> A -> comparison).

Lemma extendRun_app (isDescending : bool) (previous : A) (l : list A) :
  ((extendRun compareFn isDescending previous l).1
   ++ (extendRun compareFn isDescending previous l).2)%list = l.
Proof.
  revert previous. induction l as [|current l IH]; intros previous; simpl; [done|].
  destruct (if isDescending then _ else _); simpl; [done|].
  specialize (IH current).
  destruct (extendRun compareFn isDescending current l) as [run rest]; simpl in *.
  by rewrite IH.
Qed.

Lemma CountAndMakeRun_Permutation (l : list A) :
  ((CountAndMakeRun compareFn l).1 ++ (CountAndMakeRun compareFn l).2)%list ≡ₚ l.
Proof.
  destruct l as [|elementHigh [|elementLow l]]; simpl; [done|done|].
  pose proof (extendRun_app (negative (compareFn elementLow elementHigh)) elementLow l) as H.
  destruct (extendRun _ _ _ _) as [run rest]; simpl in *.
  destruct (negative _); rewrite ?reverse_Permutation; simpl; by rewrite H.
Qed.

Lemma binaryInsert_Permutation (sorted : list A) (pivot : A) :
  binaryInsert compareFn sorted pivot ≡ₚ pivot :: sorted.
Proof.
  unfold binaryInsert. rewrite <- Permutation_middle. by rewrite take_drop.
Qed.

Lemma foldl_binaryInsert_Permutation (rest run : list A) :
  foldl (binaryInsert compareFn) run rest ≡ₚ (run ++ rest)%list.
Proof.
  revert run. induction rest as [|pivot rest IH]; intros run; simpl.
  - by rewrite app_nil_r.
  - rewrite IH, binaryInsert_Permutation. by rewrite <- Permutation_middle.
Qed.

Lemma Array_sort_Permutation (l : list A) : Array_sort compareFn l ≡ₚ l.
Proof.
  unfold Array_sort. pose proof (CountAndMakeRun_Permutation l) as H.
  destruct (CountAndMakeRun compareFn l) as [run rest]; simpl in *.
  by rewrite foldl_binaryInsert_Permutation.
Qed.

(** The search needs no more than [right - left] turns. *)
Lemma binarySearch_enough (pivot : A) (sorted : list A) (fuel fuel' left right : nat) :
  (right - left <= fuel)%nat -> (right - left <= fuel')%nat ->
  binarySearch compareFn pivot sorted fuel left right
  = binarySearch compareFn pivot sorted fuel' left right.
Proof.
  revert fuel' left right.
  induction fuel as [|fuel IH]; intros fuel' left right Hfuel Hfuel'.
  - destruct fuel' as [|fuel']; cbn [binarySearch]; [done|].
    by rewrite (proj2 (Nat.ltb_ge _ _)) by lia.
  - cbn [binarySearch]. destruct (left <? right)%nat eqn:Hlt.
    2: { destruct fuel' as [|fuel']; cbn [binarySearch]; [done|]. by rewrite Hlt. }
    apply Nat.ltb_lt in Hlt.
    destruct fuel' as [|fuel']; [lia|]. cbn [binarySearch].
    rewrite (proj2 (Nat.ltb_lt _ _) Hlt).
    assert ((right - left) / 2 < right - left)%nat as Hhalf by (apply Nat.div_lt; lia).
    destruct (sorted !! _); [|done].
    destruct (negative _); apply IH; lia.
Qed.

Lemma binarySearch_fuel (pivot : A) (sorted : list A) (fuel left right : nat) :
  (right - left <= fuel)%nat ->
  binarySearch compareFn pivot sorted fuel left right
  = binarySearch compareFn pivot sorted (right - left) left right.
Proof. intros Hfuel. by apply binarySearch_enough. Qed.

(** When the comparator agrees with a transitive order [R] on the elements
    that satisfy [P] (a negative result puts the first argument before the
    second, any other result the second before the first), the sort orders
    by [R] every array of such elements. *)
Context (R : relation A) (P : A -> Prop) `{!Transitive R}.
Hypothesis compare_negative :
  forall x y, P x -> P y -> negative (compareFn x y) = true -> R x y.
Hypothesis compare_not_negative :
  forall x y, P x -> P y -> negative (compareFn x y) = false -> R y x.

Lemma extendRun_ascending (previous : A) (l : list A) :
  P previous -> Forall P l ->
  Sorted R (previous :: (extendRun compareFn false previous l).1).
Proof using All.
  intros Hprevious Hl. revert previous Hprevious.
  induction Hl as [|current l Hcurrent Hl IH]; intros previous Hprevious; simpl.
  - by repeat constructor.
  - destruct (negative (compareFn current previous)) eqn:Horder; simpl.
    + by repeat constructor.
    + specialize (IH current Hcurrent).
      destruct (extendRun compareFn false current l) as [run rest]; simpl in *.
      constructor; [done|]. constructor. by apply compare_not_negative.
Qed.

Lemma extendRun_descending (previous : A) (l : list A) :
  P previous -> Forall P l ->
  Sorted (flip R) (previous :: (extendRun compareFn true previous l).1).
Proof using All.
  intros Hprevious Hl. revert previous Hprevious.
  induction Hl as [|current l Hcurrent Hl IH]; intros previous Hprevious; simpl.
  - by repeat constructor.
  - destruct (negative (compareFn current previous)) eqn:Horder; simpl.
    + specialize (IH current Hcurrent).
      destruct (extendRun compareFn true current l) as [run rest]; simpl in *.
      constructor; [done|]. constructor. by apply compare_negative.
    + by repeat constructor.
Qed.

Lemma Sorted_flip_reverse (l : list A) : Sorted (flip R) l -> Sorted R (reverse l).
Proof. intros H. by apply (Sorted_reverse (flip R)) in H. Qed.

Lemma CountAndMakeRun_sorted (l : list A) :
  Forall P l -> StronglySorted R (CountAndMakeRun compareFn l).1.
Proof using All.
  intros Hl. apply Sorted_StronglySorted; [done|].
  destruct l as [|elementHigh [|elementLow l]]; simpl; [constructor|by repeat constructor|].
  apply Forall_cons in Hl as [Hhigh Hl]. apply Forall_cons in Hl as [Hlow Hl].
  destruct (negative (compareFn elementLow elementHigh)) eqn:Horder.
  - pose proof (extendRun_descending elementLow l Hlow Hl) as Hrun.
    destruct (extendRun compareFn true elementLow l) as [run rest]; simpl in *.
    apply Sorted_flip_reverse. constructor; [done|]. constructor.
    by apply compare_negative.
  - pose proof (extendRun_ascending elementLow l Hlow Hl) as Hrun.
    destruct (extendRun compareFn false elementLow l) as [run rest]; simpl in *.
    constructor; [done|]. constructor. by apply compare_not_negative.
Qed.

Lemma StronglySorted_lookup (l : list A) (i j : nat) (x y : A) :
  StronglySorted R l -> l !! i = Some x -> l !! j = Some y -> (i < j)%nat -> R x y.
Proof.
  intros Hsorted. revert i j. induction Hsorted as [|z l Hsorted IH Hz]; intros i j; [done|].
  destruct i as [|i], j as [|j]; simpl; try lia.
  - intros [= <-] Hy _. apply (proj1 (Forall_forall _ _) Hz).
    by eapply list_elem_of_lookup_2.
  - intros Hx Hy Hij. apply (IH i j Hx Hy). lia.
Qed.

(** The invariant of the search loop: the pivot goes after every element
    left of [left] and before every element from [right] on. *)
Lemma binarySearch_bounds (pivot : A) (sorted : list A) (fuel left right : nat) :
  P pivot -> Forall P sorted -> StronglySorted R sorted ->
  (left <= right <= List.length sorted)%nat -> (right - left <= fuel)%nat ->
  Forall (fun x => R x pivot) (take left sorted) ->
  Forall (R pivot) (drop right sorted) ->
  let found := binarySearch compareFn pivot sorted fuel left right in
  Forall (fun x => R x pivot) (take found sorted) /\ Forall (R pivot) (drop found sorted).
Proof using All.
  intros Hpivot HP Hsorted. revert left right.
  induction fuel as [|fuel IH]; intros left right Hrange Hfuel Hleft Hright;
    cbv zeta; cbn [binarySearch].
  - replace left with right in * by lia. done.
  - destruct (left <? right)%nat eqn:Hlt.
    2: { apply Nat.ltb_ge in Hlt. replace left with right in * by lia. done. }
    apply Nat.ltb_lt in Hlt.
    assert ((right - left) / 2 < right - left)%nat as Hhalf by (apply Nat.div_lt; lia).
    set (mid := (left + (right - left) / 2)%nat) in *.
    destruct (lookup_lt_is_Some_2 sorted mid ltac:(lia)) as [element Helement].
    rewrite Helement.
    assert (P element) as Hel
      by (apply (proj1 (Forall_forall _ _) HP); by eapply list_elem_of_lookup_2).
    destruct (negative (compareFn pivot element)) eqn:Horder.
    + apply IH; [lia|lia|done|].
      apply Forall_lookup. intros i y Hy. rewrite lookup_drop in Hy.
      pose proof (compare_negative _ _ Hpivot Hel Horder) as Hpe.
      destruct i as [|i].
      * rewrite Nat.add_0_r, Helement in Hy. by injection Hy as <-.
      * transitivity element; [done|].
        apply (StronglySorted_lookup sorted mid (mid + S i) element y); [done..|lia].
    + apply IH; [lia|lia| |done].
      apply Forall_lookup. intros i x Hx.
      apply lookup_take_Some in Hx as [Hx Hi].
      pose proof (compare_not_negative _ _ Hpivot Hel Horder) as Hep.
      destruct (decide (i = mid)) as [->|Hne].
      * rewrite Helement in Hx. by injection Hx as <-.
      * transitivity element; [|done].
        apply (StronglySorted_lookup sorted i mid x element); [done..|lia].
Qed.

Lemma binaryInsert_sorted (sorted : list A) (pivot : A) :
  P pivot -> Forall P sorted -> StronglySorted R sorted ->
  StronglySorted R (binaryInsert compareFn sorted pivot).
Proof using All.
  intros Hpivot HP Hsorted. unfold binaryInsert.
  destruct (binarySearch_bounds pivot sorted (List.length sorted) 0 (List.length sorted))
    as [Hbefore Hafter]; [done|done|done|lia|lia|by rewrite take_0|by rewrite drop_all|].
  set (found := binarySearch _ _ _ _ _ _) in *.
  pose proof Hsorted as Hsplit. rewrite <- (take_drop found sorted) in Hsplit.
  apply StronglySorted_app in Hsplit as (Hcross & Htake & Hdrop).
  apply StronglySorted_app_2; [|done|by constructor].
  intros x1 x2 Hx1 [->|Hx2]%elem_of_cons.
  - by apply (proj1 (Forall_forall _ _) Hbefore).
  - by apply Hcross.
Qed.

Lemma foldl_binaryInsert_sorted (rest run : list A) :
  Forall P rest -> Forall P run -> StronglySorted R run ->
  StronglySorted R (foldl (binaryInsert compareFn) run rest).
Proof using All.
  intros Hrest. revert run.
  induction Hrest as [|pivot rest Hpivot Hrest IH]; intros run Hrun Hsorted; simpl; [done|].
  apply IH.
  - rewrite binaryInsert_Permutation. by constructor.
  - by apply binaryInsert_sorted.
Qed.

Lemma Array_sort_sorted (l : list A) : Forall P l -> StronglySorted R (Array_sort compareFn l).
Proof using All.
  intros Hl. unfold Array_sort.
  pose proof (CountAndMakeRun_sorted l Hl) as Hrun.
  pose proof (CountAndMakeRun_Permutation l) as Hperm.
  destruct (CountAndMakeRun compareFn l) as [run rest]; simpl in *.
  rewrite <- Hperm in Hl. apply Forall_app in Hl as [Hrun' Hrest].
  by apply foldl_binaryInsert_sorted.
Qed.

End sorting.

Lemma sub_sign_Lt (x y : Rounded) : sub_sign x y = Lt -> Rounded_le x y.
Proof.
  destruct x as [a| |[|]], y as [b| |[|]]; simpl; try done.
  intros H. change (a < b) in H. lia.
Qed.

Lemma sub_sign_not_Lt (x y : Rounded) :
  x <> NaN -> y <> NaN -> sub_sign x y <> Lt -> Rounded_le y x.
Proof.
  destruct x as [a| |[|]], y as [b| |[|]]; simpl; try done.
  intros _ _ H. destruct (Z.compare_spec a b); [lia|done|lia].
Qed.

Lemma Rounded_le_trans (x y z : Rounded) :
  Rounded_le x y -> Rounded_le y z -> Rounded_le x z.
Proof.
  destruct x as [a| |[|]], y as [b| |[|]], z as [c| |[|]]; simpl; try done. lia.
Qed.

#[local] Instance descending_Transitive : Transitive descending.
Proof. intros a b c Hab Hbc. unfold descending in *. by eapply Rounded_le_trans. Qed.

Lemma Array_sort_descending (l : list PerformanceRecord) :
  Forall numericReturn l ->
  StronglySorted descending (Array_sort byReturnDescending l).
Proof.
  apply (Array_sort_sorted byReturnDescending descending numericReturn).
  - intros x y Hx Hy Horder. unfold byReturnDescending, descending in *.
    apply sub_sign_Lt. by destruct (sub_sign _ _).
  - intros x y Hx Hy Horder. unfold byReturnDescending, descending in *.
    apply sub_sign_not_Lt; [done|done|]. by destruct (sub_sign _ _).
Qed.

(** ** Binary64 arithmetic never invents a NaN *)

Section binary64.

Lemma shr_1_nonneg (mrs : shr_record) : 0 <= shr_m mrs -> 0 <= shr_m (shr_1 mrs).
Proof. destruct mrs as [[|[p|p|]|p] r s]; simpl; lia. Qed.

Lemma iter_pos_invariant {A} (P : A -> Prop) (f : A -> A) :
  (forall x, P x -> P (f x)) -> forall n x, P x -> P (iter_pos f n x).
Proof. intros Hf. induction n as [n IH|n IH|]; simpl; auto. Qed.

Lemma shr_nonneg (mrs : shr_record) (e n : Z) :
  0 <= shr_m mrs -> 0 <= shr_m (shr mrs e n).1.
Proof.
  intros H. destruct n as [|p|p]; simpl; [done| |done].
  by apply (iter_pos_invariant (fun r => 0 <= shr_m r)), H; apply shr_1_nonneg.
Qed.

Lemma shr_fexp_nonneg (m e : Z) (l : location) :
  0 <= m -> 0 <= shr_m (shr_fexp prec emax m e l).1.
Proof.
  intros H. unfold shr_fexp. apply shr_nonneg.
  by destruct l as [|[| |]].
Qed.

Lemma round_nearest_even_nonneg (m : Z) (l : location) :
  0 <= m -> 0 <= round_nearest_even m l.
Proof.
  intros H. destruct l as [|[| |]]; simpl; [done| |done|lia].
  destruct (Z.even m); lia.
Qed.

Lemma binary_round_aux_not_nan (sx : bool) (mx ex : Z) (lx : location) :
  0 <= mx -> binary_round_aux prec emax sx mx ex lx <> S754_nan.
Proof.
  intros H. unfold binary_round_aux.
  pose proof (shr_fexp_nonneg mx ex lx H) as H1.
  destruct (shr_fexp prec emax mx ex lx) as [mrs' e']; simpl in H1.
  pose proof (shr_fexp_nonneg _ e' loc_Exact
                (round_nearest_even_nonneg _ (loc_of_shr_record mrs') H1)) as H2.
  destruct (shr_fexp prec emax _ e' loc_Exact) as [mrs'' e'']; simpl in H2.
  destruct (shr_m mrs'') as [|p|p]; [done| |lia].
  by destruct (e'' <=? emax - prec).
Qed.

Lemma binary_normalize_not_nan (m e : Z) (sz : bool) :
  binary_normalize prec emax m e sz <> S754_nan.
Proof.
  destruct m as [|p|p]; simpl; [done| |]; unfold binary_round;
    destruct (shl_align _ _ _) as [mz ez]; by apply binary_round_aux_not_nan.
Qed.

Lemma SFsub_not_nan (x y : spec_float) :
  finite_or_zero x -> finite_or_zero y -> SF64sub x y <> S754_nan.
Proof.
  destruct x as [sx|sx| |sx mx ex], y as [sy|sy| |sy my ey]; simpl; try done.
  - intros _ _. by destruct sx, sy.
  - intros _ _. apply binary_normalize_not_nan.
Qed.

Lemma SFdiv_not_nan (x : spec_float) (sy : bool) (my : positive) (ey : Z) :
  x <> S754_nan -> SF64div x (S754_finite sy my ey) <> S754_nan.
Proof.
  destruct x as [sx|sx| |sx mx ex]; simpl; try done.
  intros _. unfold SFdiv_core_binary.
  set (m' := match _ with Z0 => Z.pos mx | Z.pos _ => _ | Z.neg _ => 0 end).
  assert (0 <= m') as Hm'.
  { subst m'. destruct (_ - _ - _) as [|p|p]; [lia| |lia]. by apply Z.shiftl_nonneg. }
  pose proof (Z.div_pos m' (Z.pos my) Hm' ltac:(lia)) as Hq.
  unfold Z.div in Hq. destruct (Z.div_eucl m' (Z.pos my)) as [q r].
  by apply binary_round_aux_not_nan.
Qed.

Lemma SFmul_not_nan (x : spec_float) (sy : bool) (my : positive) (ey : Z) :
  x <> S754_nan -> SF64mul x (S754_finite sy my ey) <> S754_nan.
Proof.
  destruct x as [sx|sx| |sx mx ex]; simpl; try done.
  intros _. by apply binary_round_aux_not_nan.
Qed.

Lemma isPrice_finite (c : float) :
  isPrice c = true -> exists m e, Prim2SF c = S754_finite false m e.
Proof.
  unfold isPrice. intros [Hpos Hfin]%andb_true_iff.
  rewrite ltb_spec in Hpos, Hfin.
  change (Prim2SF 0) with (S754_zero false) in Hpos.
  change (Prim2SF infinity) with (S754_infinity false) in Hfin.
  destruct (Prim2SF c) as [s|s| |s m e]; simpl in *; try done.
  - by destruct s.
  - destruct s; [done|]. eauto.
Qed.

Lemma Math_round_NaN (x : float) : Math_round x = NaN -> Prim2SF x = S754_nan.
Proof.
  unfold Math_round. destruct (Prim2SF x) as [s|s| |s m e]; [done|done|done|].
  by destruct e.
Qed.

(** The return of a history that starts and ends at a price is a number. *)
Lemma returnPct_numeric (startPrice endPrice : float) :
  isPrice startPrice = true -> isPrice endPrice = true ->
  Math_round (((endPrice - startPrice) / startPrice) * 100)%float <> NaN.
Proof.
  intros (ms & es & Hs)%isPrice_finite (me & ee & He)%isPrice_finite.
  assert (Prim2SF (((endPrice - startPrice) / startPrice) * 100)%float <> S754_nan)
    as Hnum.
  { rewrite mul_spec.
    change (Prim2SF 100) with (S754_finite false 7036874417766400 (-46)).
    apply SFmul_not_nan. rewrite div_spec, Hs. apply SFdiv_not_nan.
    rewrite sub_spec, He, Hs. by apply SFsub_not_nan. }
  intros Hround. by apply Hnum, Math_round_NaN.
Qed.

End binary64.

(** ** Historical performance *)

Lemma fetchHistory_two_or_more (first : Yahoo.Row) (rows : list Yahoo.Row)
    (final : Yahoo.Row) (n : string) :
  fetchHistory (Returned (Some (first :: rows ++ [final]))) n
  = Some {| name := n;
            returnPct :=
              Math_round (((Yahoo.close final - Yahoo.close first)
                           / Yahoo.close first) * 100)%float |}.
Proof.
  unfold fetchHistory.
  destruct (rows ++ [final])%list as [|r l] eqn:E.
  - by destruct rows.
  - rewrite <- E, app_comm_cons, last_snoc. done.
Qed.

Lemma fetchHistory_too_short (rows : list Yahoo.Row) (n : string) :
  (List.length rows < 2)%nat -> fetchHistory (Returned (Some rows)) n = None.
Proof.
  destruct rows as [|? [|? ?]]; simpl; [done|done|lia].
Qed.

Lemma assetData_Permutation (up : PerformanceUpstream) :
  assetData up ≡ₚ omap id (historyResults up) ++ staticEstimates.
Proof. apply Array_sort_Permutation. Qed.

Lemma assetData_hasEstimates (up : PerformanceUpstream) : hasEstimates (assetData up).
Proof.
  unfold hasEstimates. rewrite !assetData_Permutation, length_app.
  repeat split.
  - apply elem_of_app. right. by left.
  - apply elem_of_app. right. right. by left.
  - simpl. lia.
Qed.

Lemma GET_api_performance_fresh (w : World) (up : PerformanceUpstream) :
  cache_get w performance_data = None ->
  yahooFinance up = Returned () ->
  GET_api_performance w up
  = ({| Performance.success := true; Performance.error := None;
        Performance.data := assetData up |},
     cache_set w performance_data (assetData up) (Some 3600)).
Proof. intros Hmiss Himport. unfold GET_api_performance. by rewrite Hmiss, Himport. Qed.

Lemma fetchHistory_numeric (history : Try (option (list Yahoo.Row))) (n : string)
    (r : PerformanceRecord) :
  priced history -> fetchHistory history n = Some r -> numericReturn r.
Proof.
  destruct history as [[rows|]|err]; simpl; [|done|done].
  intros Hpriced.
  destruct rows as [|first [|second rest]]; [done|done|].
  destruct (last _) as [final|] eqn:Hlast; [|done].
  intros [= <-]. unfold numericReturn; simpl.
  apply returnPct_numeric.
  - exact (Forall_inv Hpriced).
  - apply last_Some_elem_of in Hlast.
    apply (proj1 (Forall_forall _ _) Hpriced). by right.
Qed.

Lemma historyResults_numeric (up : PerformanceUpstream) :
  pricedHistories up -> Forall numericReturn (omap id (historyResults up)).
Proof.
  intros (Hgold & Hsilver & Hsp500 & Hdow & HrealEstate & Hbonds).
  apply Forall_forall. intros r (o & Ho & Hr)%list_elem_of_omap.
  simpl in Hr. subst o. unfold historyResults in Ho.
  rewrite !elem_of_cons, elem_of_nil in Ho.
  destruct Ho as [Ho|[Ho|[Ho|[Ho|[Ho|[Ho|[]]]]]]]; symmetry in Ho.
  - exact (fetchHistory_numeric _ _ _ Hgold Ho).
  - exact (fetchHistory_numeric _ _ _ Hsilver Ho).
  - exact (fetchHistory_numeric _ _ _ Hsp500 Ho).
  - exact (fetchHistory_numeric _ _ _ Hdow Ho).
  - exact (fetchHistory_numeric _ _ _ HrealEstate Ho).
  - exact (fetchHistory_numeric _ _ _ Hbonds Ho).
Qed.

(** [Math.round] of a finite double [(-1)^s * m * 2^e] is the integer [z]
    nearest to it, the upper one of two that are as near:
    [z - 1/2 <= m * 2^e < z + 1/2], written without fractions. *)
Lemma Math_round_nearest (x : float) (s : bool) (m : positive) (e : Z) :
  Prim2SF x = S754_finite s m e ->
  exists z, Math_round x = Int z
    /\ let n := if s then Z.neg m else Z.pos m in
       (2 * z - 1) * 2 ^ Z.max 0 (- e) <= 2 * n * 2 ^ Z.max 0 e
       < (2 * z + 1) * 2 ^ Z.max 0 (- e).
Proof.
  intros Hx. unfold Math_round. rewrite Hx.
  set (n := if s then Z.neg m else Z.pos m).
  destruct e as [|p|p].
  - exists (n * 2 ^ 0). split; [done|]. cbv zeta.
    change (- 0) with 0. rewrite Z.max_id. change (2 ^ 0) with 1. lia.
  - exists (n * 2 ^ Z.pos p). split; [done|]. cbv zeta.
    rewrite Z.max_l by lia. rewrite Z.max_r by lia.
    change (2 ^ 0) with 1. lia.
  - exists ((2 * n + 2 ^ Z.pos p) / 2 ^ (Z.pos p + 1)). split; [done|]. cbv zeta.
    rewrite Z.max_r by lia. rewrite Z.max_l by lia.
    change (- Z.neg p) with (Z.pos p). change (2 ^ 0) with 1.
    assert (0 < 2 ^ Z.pos p) as Hpos by (apply Z.pow_pos_nonneg; lia).
    rewrite Z.pow_add_r by lia. change (2 ^ 1) with 2.
    pose proof (Z.mul_div_le (2 * n + 2 ^ Z.pos p) (2 ^ Z.pos p * 2) ltac:(lia)) as Hlow.
    pose proof (Z.mul_succ_div_gt (2 * n + 2 ^ Z.pos p) (2 ^ Z.pos p * 2) ltac:(lia)) as Hhigh.
    set (z := (2 * n + 2 ^ Z.pos p) / (2 ^ Z.pos p * 2)) in *. nia.
Qed.

(** The list is sorted descending by return exactly when no computed return
    is [NaN]. *)
Lemma assetData_sorted_iff (up : PerformanceUpstream) :
  StronglySorted descending (assetData up)
  <-> Forall numericReturn (omap id (historyResults up)).
Proof.
  split.
  - intros Hsorted. apply Forall_forall. intros r Hr Hnan.
    assert (r ∈ assetData up) as Hin
      by (rewrite assetData_Permutation; apply elem_of_app; by left).
    assert ({| name := "CDs/Savings"; returnPct := Int 49 |} ∈ assetData up) as Hcd
      by apply assetData_hasEstimates.
    apply list_elem_of_lookup in Hin as [i Hi]. apply list_elem_of_lookup in Hcd as [j Hj].
    destruct (Nat.lt_trichotomy i j) as [Hlt|[->|Hgt]].
    + pose proof (StronglySorted_lookup descending _ _ _ _ _ Hsorted Hi Hj Hlt) as H.
      unfold descending in H. rewrite Hnan in H. exact H.
    + rewrite Hi in Hj. injection Hj as ->. done.
    + pose proof (StronglySorted_lookup descending _ _ _ _ _ Hsorted Hj Hi Hgt) as H.
      unfold descending in H. rewrite Hnan in H. exact H.
  - intros Hnum. apply Array_sort_descending.
    apply Forall_app. split; [done|].
    repeat constructor; by unfold numericReturn.
Qed.

(** C7: a history of two or more rows yields the return
    [Math.round((lastClose - firstClose) / firstClose * 100)], the nearest
    integer (150 for the closes 100 and 250); a failed fetch yields no
    record, and the list the handler sorts holds the records of the symbols
    that succeeded and the two static estimates.  But nothing guards the
    division: a history whose closes are 0 at both ends has the return
    [NaN], where the sibling [calculatePercentChange] answers [null] for a
    previous price of 0.  The comparator then answers [NaN], which the sort
    reads as a tie, and the endpoint answers with Gold (10) before
    CDs/Savings (49): the list is not sorted descending by return. *)
Theorem performance_unsorted_on_zero_closes :
  (forall first rows final n,
     fetchHistory (Returned (Some (first :: rows ++ [final]))) n
     = Some {| name := n;
               returnPct :=
                 Math_round (((Yahoo.close final - Yahoo.close first)
                              / Yahoo.close first) * 100)%float |})
  /\ (forall x s m e, Prim2SF x = S754_finite s m e ->
        exists z, Math_round x = Int z
          /\ let n := if s then Z.neg m else Z.pos m in
             (2 * z - 1) * 2 ^ Z.max 0 (- e) <= 2 * n * 2 ^ Z.max 0 e
             < (2 * z + 1) * 2 ^ Z.max 0 (- e))
  /\ Math_round 149.5 = Int 150 /\ Math_round 150.49 = Int 150
  /\ Math_round (-2.5) = Int (-2)
  /\ fetchHistory (Sample.closes [100; 250]%float) "Gold"
     = Some {| name := "Gold"; returnPct := Int 150 |}
  /\ (forall err n, fetchHistory (Threw err) n = None)
  /\ (forall up,
        assetData up
        ≡ₚ omap id [ fetchHistory (history_gold up) "Gold";
                     fetchHistory (history_silver up) "Silver";
                     fetchHistory (history_sp500 up) "S&P 500";
                     fetchHistory (history_dow up) "Dow Jones";
                     fetchHistory (history_realEstate up) "Real Estate";
                     fetchHistory (history_bonds up) "Bonds" ]
           ++ [ {| name := "CDs/Savings"; returnPct := Int 49 |};
                {| name := "Cash (USD)"; returnPct := Int (-44) |} ])
  /\ fetchHistory (Sample.closes [0; 0]%float) "Silver"
     = Some {| name := "Silver"; returnPct := NaN |}
  /\ (forall current, calculatePercentChange current (Some 0%float) = None)
  /\ (forall a b, returnPct a = NaN -> byReturnDescending a b = Eq /\ byReturnDescending b a = Eq)
  /\ (GET_api_performance (boot Sample.env0 0) Sample.zeroHistory).1
     = {| Performance.success := true; Performance.error := None;
          Performance.data :=
            [ {| name := "Gold"; returnPct := Int 10 |};
              {| name := "Silver"; returnPct := NaN |};
              {| name := "CDs/Savings"; returnPct := Int 49 |};
              {| name := "Cash (USD)"; returnPct := Int (-44) |} ] |}
  /\ ~ descending {| name := "Gold"; returnPct := Int 10 |}
                  {| name := "CDs/Savings"; returnPct := Int 49 |}
  /\ ~ StronglySorted descending (assetData Sample.zeroHistory).
Proof.
  split; [apply fetchHistory_two_or_more|].
  split; [apply Math_round_nearest|].
  split; [by vm_compute|]. split; [by vm_compute|]. split; [by vm_compute|].
  split; [by vm_compute|].
  split; [done|].
  split; [apply assetData_Permutation|].
  split; [by vm_compute|].
  split.
  { intros [c|]; [|done]. unfold calculatePercentChange.
    change (truthy 0%float) with false. by rewrite orb_true_r. }
  split.
  { intros a b Hnan. unfold byReturnDescending. rewrite Hnan.
    split; [by destruct (returnPct b)|done]. }
  split; [by vm_compute|]. split.
  - unfold descending; simpl. lia.
  - intros Hsorted. vm_compute in Hsorted.
    apply StronglySorted_inv in Hsorted as [_ Hall].
    apply Forall_cons in Hall as [Hnan _]. exact Hnan.
Qed.

(** The list of [/api/performance] is sorted descending by return exactly
    when no computed return is [NaN]; it is so whenever the closes of the
    histories are positive finite numbers, and then the endpoint answers,
    on a miss, with a list in which no record has a higher return than a
    record before it. *)
Theorem performance_sorted_unless_nan (up : PerformanceUpstream) :
  (StronglySorted descending (assetData up)
   <-> Forall numericReturn (omap id (historyResults up)))
  /\ (pricedHistories up -> StronglySorted descending (assetData up))
  /\ (forall w,
        cache_get w performance_data = None -> yahooFinance up = Returned () ->
        pricedHistories up ->
        forall i j a b,
          Performance.data (GET_api_performance w up).1 !! i = Some a ->
          Performance.data (GET_api_performance w up).1 !! j = Some b ->
          (i < j)%nat ->
          Rounded_le (returnPct b) (returnPct a)).
Proof.
  split; [apply assetData_sorted_iff|].
  assert (pricedHistories up -> StronglySorted descending (assetData up)) as Hsorted
    by (intros Hpriced; by apply assetData_sorted_iff, historyResults_numeric).
  split; [done|].
  intros w Hmiss Himport Hpriced i j a b Ha Hb Hij.
  rewrite GET_api_performance_fresh in Ha, Hb by done. simpl in Ha, Hb.
  exact (StronglySorted_lookup descending _ _ _ _ _ (Hsorted Hpriced) Ha Hb Hij).
Qed.

Lemma performance_sorted_unless_nan_witness :
  StronglySorted descending
    [ {| name := "S&P 500"; returnPct := Int 300 |};
      {| name := "Gold"; returnPct := Int 150 |};
      {| name := "CDs/Savings"; returnPct := Int 49 |};
      {| name := "Cash (USD)"; returnPct := Int (-44) |} ].
Proof.
  apply (proj1 (proj2 (performance_sorted_unless_nan Sample.someHistories))).
  unfold pricedHistories, Sample.someHistories; simpl.
  repeat split; repeat constructor.
Defined.

(** A request leaves the performance entry alone, or writes the list the
    performance handler built. *)
Lemma serve_performance_entry (w : World) (r : Request) :
  entry (serve w r).2 performance_data = entry w performance_data
  \/ exists up, entry (serve w r).2 performance_data
       = Some {| NodeCache.value := assetData up; NodeCache.storedAt := now w;
                 NodeCache.ttlSeconds := 3600 |}.
Proof.
  pose proof (serve_effect w r) as Heff.
  destruct r as [metals quotes|response|response|response|response|response|up|];
    simpl in Heff.
  - destruct Heff as (w1 & H1 & H2). left.
    etrans; [exact (writesAtMost_other _ _ _ performance_data H2 ltac:(done))|].
    exact (writesAtMost_other _ _ _ performance_data H1 ltac:(done)).
  - left. exact (writesAtMost_other _ _ _ performance_data Heff ltac:(done)).
  - left. exact (writesAtMost_other _ _ _ performance_data Heff ltac:(done)).
  - left. exact (writesAtMost_other _ _ _ performance_data Heff ltac:(done)).
  - left. exact (writesAtMost_other _ _ _ performance_data Heff ltac:(done)).
  - left. exact (writesAtMost_other _ _ _ performance_data Heff ltac:(done)).
  - destruct Heff as [Heq|Heq].
    + left. by f_equal.
    + right. exists up. etrans; [exact (f_equal (fun x => entry x performance_data) Heq)|].
      apply entry_cache_set_eq.
  - by left.
Qed.

(** On a running server the performance entry, fresh or expired, was built
    by the performance handler: it holds the two static estimates. *)
Lemma reachable_performance (w : World) :
  reachable w ->
  forall e, entry w performance_data = Some e -> hasEstimates (NodeCache.value e).
Proof.
  induction 1 as [env0 t0|w r _ IH|w dt _ IH]; [done| |done].
  intros e. destruct (serve_performance_entry w r) as [->|[up ->]]; [apply IH|].
  intros [= <-]. apply assetData_hasEstimates.
Qed.

(** C9: a per-symbol fetch that throws, or that returns no history or fewer
    than two rows, yields [null] and not a rejection, so that with the
    import done the handler answers [success: true] whatever the six
    fetches did; and on a running server every [success: true] answer of
    [/api/performance], computed or read from the cache, holds the records
    ("CDs/Savings", 49) and ("Cash (USD)", -44) and at least two entries. *)
Theorem performance_always_has_estimates (w : World) (up : PerformanceUpstream) :
  reachable w ->
  let r := (GET_api_performance w up).1 in
  (forall err n, fetchHistory (Threw err) n = None)
  /\ (forall n, fetchHistory (Returned None) n = None)
  /\ (forall rows n,
        (List.length rows < 2)%nat -> fetchHistory (Returned (Some rows)) n = None)
  /\ (cache_get w performance_data = None -> yahooFinance up = Returned () ->
      Performance.success r = true)
  /\ (Performance.success r = true ->
      {| name := "CDs/Savings"; returnPct := Int 49 |} ∈ Performance.data r
      /\ {| name := "Cash (USD)"; returnPct := Int (-44) |} ∈ Performance.data r
      /\ (2 <= List.length (Performance.data r))%nat).
Proof.
  intros Hreach r.
  split; [done|]. split; [done|]. split; [apply fetchHistory_too_short|].
  subst r. split.
  - intros Hmiss Himport. by rewrite GET_api_performance_fresh.
  - unfold GET_api_performance.
    rewrite cache_get_spec.
    destruct (entry w performance_data) as [e|] eqn:He; simpl.
    + case_decide.
      * destruct (yahooFinance up); simpl; [|done].
        intros _. apply assetData_hasEstimates.
      * intros _. by apply (reachable_performance w Hreach e).
    + destruct (yahooFinance up); simpl; [|done].
      intros _. apply assetData_hasEstimates.
Qed.

Lemma performance_always_has_estimates_witness :
  let w1 := (serve (boot Sample.env0 0) (Get_performance Sample.someHistories)).2 in
  let r := (GET_api_performance (tick 60 w1) Sample.allHistoriesFail).1 in
  List.length (Performance.data r) = 4%nat
  /\ {| name := "CDs/Savings"; returnPct := Int 49 |} ∈ Performance.data r
  /\ {| name := "Cash (USD)"; returnPct := Int (-44) |} ∈ Performance.data r
  /\ (2 <= List.length (Performance.data r))%nat.
Proof.
  split; [reflexivity|].
  refine (proj2 (proj2 (proj2 (proj2
    (performance_always_has_estimates
       (tick 60 (serve (boot Sample.env0 0) (Get_performance Sample.someHistories)).2)
       Sample.allHistoriesFail _)))) eq_refl).
  apply reachable_tick, reachable_serve, reachable_boot.
Defined.

(** Every source of a freshly started server, asked once: the TTLs the
    entries carry. *)
Example ttl_of_each_source :
  let requests :=
    [ Get_prices (Sample.metalsOk 2000 25) Sample.quotesOk;
      Get_news Sample.newsOk;
      Get_macro_news Sample.newsOk;
      Get_news_inflation Sample.newsOk;
      Get_news_gold Sample.newsOk;
      Get_news_headlines Sample.newsOk;
      Get_performance Sample.someHistories ] in
  let w := foldl (fun w r => (serve w r).2) (boot Sample.env0 0) requests in
  let w' := foldl (fun w r => (serve w r).2) (boot Sample.envNoMetalsKey 0) requests in
  (NodeCache.ttlSeconds <$> entry w metals_prices) = Some 30
  /\ (NodeCache.ttlSeconds <$> entry w stock_indices) = Some 30
  /\ (NodeCache.ttlSeconds <$> entry w news) = Some 43200
  /\ (NodeCache.ttlSeconds <$> entry w macro_news) = Some 600
  /\ (NodeCache.ttlSeconds <$> entry w inflation_news) = Some 600
  /\ (NodeCache.ttlSeconds <$> entry w gold_news) = Some 600
  /\ (NodeCache.ttlSeconds <$> entry w bullish_headlines) = Some 600
  /\ (NodeCache.ttlSeconds <$> entry w performance_data) = Some 3600
  /\ (NodeCache.ttlSeconds <$> entry w' metals_prices) = None
  /\ (NodeCache.ttlSeconds <$> entry w' stock_indices) = Some 60.
Proof. vm_compute. repeat split. Qed.

(** ** Further properties of the fetchers *)

Lemma fetchBullishHeadlines_writes (w : World) (response : Try NewsApi.Data) :
  (fetchBullishHeadlines w response).2 = w
  \/ exists raw, (fetchBullishHeadlines w response).2
       = cache_set w bullish_headlines (dedupHeadlines raw) (Some 600).
Proof. unfold fetchBullishHeadlines; repeat case_match; simpl; eauto. Qed.

Lemma serve_headlines_entry (w : World) (r : Request) :
  entry (serve w r).2 bullish_headlines = entry w bullish_headlines
  \/ exists raw, entry (serve w r).2 bullish_headlines
       = Some {| NodeCache.value := dedupHeadlines raw; NodeCache.storedAt := now w;
                 NodeCache.ttlSeconds := 600 |}.
Proof.
  pose proof (serve_effect w r) as Heff.
  destruct r as [metals quotes|response|response|response|response|response|up|];
    simpl in Heff.
  - destruct Heff as (w1 & H1 & H2). left.
    etrans; [exact (writesAtMost_other _ _ _ bullish_headlines H2 ltac:(done))|].
    exact (writesAtMost_other _ _ _ bullish_headlines H1 ltac:(done)).
  - left. exact (writesAtMost_other _ _ _ bullish_headlines Heff ltac:(done)).
  - left. exact (writesAtMost_other _ _ _ bullish_headlines Heff ltac:(done)).
  - left. exact (writesAtMost_other _ _ _ bullish_headlines Heff ltac:(done)).
  - left. exact (writesAtMost_other _ _ _ bullish_headlines Heff ltac:(done)).
  - clear Heff. simpl. unfold GET_api_news_headlines.
    pose proof (fetchBullishHeadlines_writes w response) as H.
    destruct (fetchBullishHeadlines w response) as [res w']; simpl in *.
    destruct H as [->|[raw ->]]; [by left|right].
    exists raw.
    exact (entry_cache_set_eq w bullish_headlines (dedupHeadlines raw) (Some 600)).
  - destruct Heff as [Heq|Heq].
    + left. by f_equal.
    + left. etrans; [exact (f_equal (fun x => entry x bullish_headlines) Heq)|].
      by apply entry_cache_set_ne.
  - by left.
Qed.

Lemma placeholderTitle_false (h : Headline) :
  placeholderTitle (h_title h) = false -> properTitle h.
Proof.
  unfold placeholderTitle, properTitle.
  destruct (h_title h) as [t|]; [|done].
  intros [Hne Hinc]%orb_false_iff. exists t. split; [done|]. split; [|done].
  intros ->. done.
Qed.

Lemma reachable_headlines (w : World) :
  reachable w ->
  forall e, entry w bullish_headlines = Some e ->
            Forall properTitle (NodeCache.value e).
Proof.
  induction 1 as [env0 t0|w r _ IH|w dt _ IH]; [done| |done].
  intros e. destruct (serve_headlines_entry w r) as [->|[raw ->]]; [apply IH|].
  intros [= <-]. simpl. apply Forall_forall. intros h Hh.
  by apply placeholderTitle_false, (dedupHeadlines_no_placeholder raw).
Qed.

(** On a running server no headline of [/api/news/headlines], computed or
    cached, has a missing title, an empty title or a title that includes
    ["[Removed]"]. *)
Theorem headlines_have_proper_titles (w : World) (response : Try NewsApi.Data)
    (h : Headline) :
  reachable w ->
  h ∈ Headlines.headlines (GET_api_news_headlines w response).1 ->
  properTitle h.
Proof.
  intros Hreach. unfold GET_api_news_headlines, fetchBullishHeadlines.
  rewrite cache_get_spec.
  assert (forall e, entry w bullish_headlines = Some e ->
                    h ∈ NodeCache.value e -> properTitle h) as Hcached.
  { intros e He Hh.
    by eapply (proj1 (Forall_forall _ _) (reachable_headlines w Hreach e He)). }
  destruct (entry w bullish_headlines) as [e|]; simpl.
  - case_decide; [|by apply Hcached].
    destruct (newsRequest (env w) response) as [raw|err]; simpl.
    + intros Hh. by apply placeholderTitle_false, (dedupHeadlines_no_placeholder raw).
    + by intros ?%elem_of_nil.
  - destruct (newsRequest (env w) response) as [raw|err]; simpl.
    + intros Hh. by apply placeholderTitle_false, (dedupHeadlines_no_placeholder raw).
    + by intros ?%elem_of_nil.
Qed.

Lemma headlines_have_proper_titles_witness :
  properTitle (projectHeadline (Sample.article (Some "Gold Hits $2,000!")
                                  "https://example.com/a")).
Proof.
  apply (headlines_have_proper_titles (boot Sample.env0 0) Sample.newsOk).
  - apply reachable_boot.
  - vm_compute. by left.
Defined.

(** Without its credential a fetcher that misses the cache fails before any
    call is made, whatever the provider would have answered. *)
Theorem missing_credential_rejects (w : World) :
  (truthy_str (METALS_API_KEY (env w)) = false ->
   cache_get w metals_prices = None ->
   forall response,
     fetchMetalsPrices w response
     = (Rejected {| message := "METALS_API_KEY not configured" |}, w))
  /\ (truthy_str (NEWS_API_KEY (env w)) = false ->
      forall response,
        (cache_get w news = None ->
           (GET_api_news w response).1
           = newsFailure {| message := "NEWS_API_KEY not configured" |})
        /\ (cache_get w macro_news = None ->
           (GET_api_macro_news w response).1
           = newsFailure {| message := "NEWS_API_KEY not configured" |})
        /\ (cache_get w inflation_news = None ->
           (GET_api_news_inflation w response).1
           = newsFailure {| message := "NEWS_API_KEY not configured" |})
        /\ (cache_get w gold_news = None ->
           (GET_api_news_gold w response).1
           = newsFailure {| message := "NEWS_API_KEY not configured" |})
        /\ (cache_get w bullish_headlines = None ->
           (GET_api_news_headlines w response).1
           = headlinesFailure {| message := "NEWS_API_KEY not configured" |})).
Proof.
  split.
  - intros Hkey Hmiss response.
    unfold fetchMetalsPrices, metalsRequest. by rewrite Hmiss, Hkey.
  - intros Hkey response. repeat split; intros Hmiss.
    + unfold GET_api_news, fetchNews, newsRequest. by rewrite Hmiss, Hkey.
    + unfold GET_api_macro_news, fetchMacroNews, newsRequest. by rewrite Hmiss, Hkey.
    + unfold GET_api_news_inflation, fetchInflationNews, newsRequest.
      by rewrite Hmiss, Hkey.
    + unfold GET_api_news_gold, fetchGoldNews, newsRequest. by rewrite Hmiss, Hkey.
    + unfold GET_api_news_headlines, fetchBullishHeadlines, newsRequest.
      by rewrite Hmiss, Hkey.
Qed.

Lemma missing_credential_rejects_witness :
  fetchMetalsPrices (boot Sample.envNoMetalsKey 0) (Sample.metalsOk 2000 25)
  = (Rejected {| message := "METALS_API_KEY not configured" |}, boot Sample.envNoMetalsKey 0).
Proof.
  exact (proj1 (missing_credential_rejects (boot Sample.envNoMetalsKey 0)) eq_refl eq_refl
           (Sample.metalsOk 2000 25)).
Defined.

(** The index tiles of [/api/prices] carry the numbers of the source as
    they came: a fresh fetch passes the quote's price, previous close,
    change, percent change and market state through. *)
Theorem index_tiles_pass_through (w : World) (metals : Try MetalsApi.Data)
    (sp dw : Yahoo.Quote) :
  cache_get (fetchMetalsPrices w metals).2 stock_indices = None ->
  let r := (GET_api_prices w metals (Returned (sp, dw))).1 in
  Prices.sp500 (Prices.data r)
  = Some {| IndexTile.symbol := "^GSPC"; IndexTile.name := "S&P 500";
            IndexTile.price := Yahoo.regularMarketPrice sp;
            IndexTile.previousClose := Yahoo.regularMarketPreviousClose sp;
            IndexTile.change := Yahoo.regularMarketChange sp;
            IndexTile.changePercent := Yahoo.regularMarketChangePercent sp;
            IndexTile.marketState := Yahoo.marketState sp;
            IndexTile.unit := "points" |}
  /\ Prices.dow (Prices.data r)
     = Some {| IndexTile.symbol := "^DJI"; IndexTile.name := "Dow Jones";
               IndexTile.price := Yahoo.regularMarketPrice dw;
               IndexTile.previousClose := Yahoo.regularMarketPreviousClose dw;
               IndexTile.change := Yahoo.regularMarketChange dw;
               IndexTile.changePercent := Yahoo.regularMarketChangePercent dw;
               IndexTile.marketState := Yahoo.marketState dw;
               IndexTile.unit := "points" |}.
Proof.
  intros Hmiss r. subst r. unfold GET_api_prices.
  destruct (fetchMetalsPrices w metals) as [mr w1]; simpl in Hmiss.
  unfold fetchStockIndices. rewrite Hmiss. simpl.
  unfold pricesResponse. by destruct (processMetals mr).
Qed.

Lemma index_tiles_pass_through_witness :
  (IndexTile.price <$> Prices.sp500 (Prices.data
     (GET_api_prices (boot Sample.env0 0) (Threw Sample.down) Sample.quotesOk).1))
  = Some (Some 5000%float).
Proof.
  exact (f_equal (fmap IndexTile.price)
           (proj1 (index_tiles_pass_through (boot Sample.env0 0) (Threw Sample.down)
                     (Sample.quote 5000) (Sample.quote 39000) eq_refl))).
Defined.

(** ** What the cache holds on a running server *)

Lemma cache_get_entry (w : World) (k : Key) (v : ValueOf k) :
  cache_get w k = Some v -> exists e, entry w k = Some e /\ NodeCache.value e = v.
Proof.
  rewrite cache_get_spec. destruct (entry w k) as [e|]; simpl; [|done].
  case_decide; [done|]. intros [= <-]. eauto.
Qed.

Lemma wellStored_hit (w : World) (k : Key) (v : ValueOf k) :
  wellStored w -> cache_get w k = Some v -> storedBy k v.
Proof. intros Hw (e & He & <-)%cache_get_entry. by apply Hw. Qed.

Lemma writesStored_writesAtMost k w w' : writesStored k w w' -> writesAtMost k w w'.
Proof. intros [->|(v & _ & ->)]; [by left|right; eauto]. Qed.

Lemma writesStored_wellStored k w w' :
  writesStored k w w' -> wellStored w -> wellStored w'.
Proof.
  intros [->|(v & Hv & ->)] Hw; [done|]. intros k' e He.
  destruct (decide (k = k')) as [<-|Hne].
  - rewrite entry_cache_set_eq in He. by injection He as <-.
  - rewrite entry_cache_set_ne in He by done. by apply Hw.
Qed.

Ltac fetch_stored f :=
  intros; unfold writesStored, f; repeat case_match; simpl; try (by left);
  right; eexists; (split; [|reflexivity]); simpl; eauto.

Lemma fetchMetalsPrices_stored w response :
  writesStored metals_prices w (fetchMetalsPrices w response).2.
Proof. fetch_stored fetchMetalsPrices. Qed.

Lemma fetchStockIndices_stored w quotes :
  writesStored stock_indices w (fetchStockIndices w quotes).2.
Proof. fetch_stored fetchStockIndices. Qed.

Lemma fetchNews_stored w response :
  writesStored news w (fetchNews w response).2.
Proof. fetch_stored fetchNews. Qed.

Lemma fetchMacroNews_stored w response :
  writesStored macro_news w (fetchMacroNews w response).2.
Proof. fetch_stored fetchMacroNews. Qed.

Lemma fetchInflationNews_stored w response :
  writesStored inflation_news w (fetchInflationNews w response).2.
Proof. fetch_stored fetchInflationNews. Qed.

Lemma fetchGoldNews_stored w response :
  writesStored gold_news w (fetchGoldNews w response).2.
Proof. fetch_stored fetchGoldNews. Qed.

Lemma fetchBullishHeadlines_stored w response :
  writesStored bullish_headlines w (fetchBullishHeadlines w response).2.
Proof. fetch_stored fetchBullishHeadlines. Qed.

Lemma GET_api_performance_stored w up :
  writesStored performance_data w (GET_api_performance w up).2.
Proof. fetch_stored GET_api_performance. Qed.

(** Serving a request keeps the cache well stored. *)
Lemma serve_wellStored (w : World) (r : Request) :
  wellStored w -> wellStored (serve w r).2.
Proof.
  intros Hw.
  destruct r as [metals quotes|response|response|response|response|response|up|]; simpl.
  - unfold GET_api_prices.
    pose proof (fetchMetalsPrices_stored w metals) as H1.
    destruct (fetchMetalsPrices w metals) as [mr w1]; simpl in *.
    pose proof (fetchStockIndices_stored w1 quotes) as H2.
    destruct (fetchStockIndices w1 quotes) as [sr w2]; simpl in *.
    eauto using writesStored_wellStored.
  - unfold GET_api_news. pose proof (fetchNews_stored w response) as H.
    destruct (fetchNews w response); simpl in *. eauto using writesStored_wellStored.
  - unfold GET_api_macro_news. pose proof (fetchMacroNews_stored w response) as H.
    destruct (fetchMacroNews w response); simpl in *. eauto using writesStored_wellStored.
  - unfold GET_api_news_inflation. pose proof (fetchInflationNews_stored w response) as H.
    destruct (fetchInflationNews w response); simpl in *.
    eauto using writesStored_wellStored.
  - unfold GET_api_news_gold. pose proof (fetchGoldNews_stored w response) as H.
    destruct (fetchGoldNews w response); simpl in *. eauto using writesStored_wellStored.
  - unfold GET_api_news_headlines.
    pose proof (fetchBullishHeadlines_stored w response) as H.
    destruct (fetchBullishHeadlines w response); simpl in *.
    eauto using writesStored_wellStored.
  - eauto using writesStored_wellStored, GET_api_performance_stored.
  - done.
Qed.

(** The cache of a running server holds nothing but values its sources
    computed. *)
Lemma reachable_wellStored (w : World) : reachable w -> wellStored w.
Proof.
  induction 1 as [e t0|w r _ IH|w dt _ IH]; [by intros k e' [=]| |done].
  by apply serve_wellStored.
Qed.

(** What a fetcher is fulfilled with is a value of its source: a hit, or the
    value just computed.  The fallback of the [catch] block reads the cache
    at the instant of the miss and finds nothing. *)
Ltac fetch_fulfilled f k :=
  let Hw := fresh "Hw" in let Hhit := fresh "Hhit" in
  intros Hw; unfold f;
  destruct (cache_get _ k) eqn:Hhit; simpl;
  [ intros [= <-]; by apply (wellStored_hit _ k) in Hhit
  | repeat case_match; simpl; intros [= <-]; simpl; eauto ].

Lemma fetchMetalsPrices_fulfilled w response m :
  wellStored w -> (fetchMetalsPrices w response).1 = Fulfilled m ->
  storedBy metals_prices m.
Proof. fetch_fulfilled fetchMetalsPrices metals_prices. Qed.

Lemma fetchStockIndices_fulfilled w quotes s :
  wellStored w -> (fetchStockIndices w quotes).1 = Fulfilled s ->
  storedBy stock_indices s.
Proof. fetch_fulfilled fetchStockIndices stock_indices. Qed.

Lemma fetchNews_fulfilled w response l :
  wellStored w -> (fetchNews w response).1 = Fulfilled l -> storedBy news l.
Proof. fetch_fulfilled fetchNews news. Qed.

Lemma fetchMacroNews_fulfilled w response l :
  wellStored w -> (fetchMacroNews w response).1 = Fulfilled l -> storedBy macro_news l.
Proof. fetch_fulfilled fetchMacroNews macro_news. Qed.

Lemma fetchInflationNews_fulfilled w response l :
  wellStored w -> (fetchInflationNews w response).1 = Fulfilled l ->
  storedBy inflation_news l.
Proof. fetch_fulfilled fetchInflationNews inflation_news. Qed.

Lemma fetchGoldNews_fulfilled w response l :
  wellStored w -> (fetchGoldNews w response).1 = Fulfilled l -> storedBy gold_news l.
Proof. fetch_fulfilled fetchGoldNews gold_news. Qed.

Lemma fetchBullishHeadlines_fulfilled w response l :
  wellStored w -> (fetchBullishHeadlines w response).1 = Fulfilled l ->
  storedBy bullish_headlines l.
Proof. fetch_fulfilled fetchBullishHeadlines bullish_headlines. Qed.

Lemma GET_api_performance_data w up :
  wellStored w -> Performance.success (GET_api_performance w up).1 = true ->
  storedBy performance_data (Performance.data (GET_api_performance w up).1).
Proof.
  intros Hw. unfold GET_api_performance.
  destruct (cache_get _ performance_data) eqn:Hhit; simpl.
  - intros _. by apply (wellStored_hit _ performance_data) in Hhit.
  - by case_match; simpl; eauto.
Qed.

(** ** The age of what the cache holds *)

(** An entry is left alone by a request, or replaced by one stored at the
    time of the request with the TTL of its source. *)
Lemma serve_entry (w : World) (r : Request) (k : Key) :
  NodeCache.stdTTL (cache w) = CACHE_TTL (env w) ->
  entry (serve w r).2 k = entry w k
  \/ exists v, entry (serve w r).2 k
       = Some {| NodeCache.value := v; NodeCache.storedAt := now w;
                 NodeCache.ttlSeconds := specTTL (env w) k |}.
Proof.
  intros Hstd. destruct (serve_writes w r) as (k1 & k2 & w1 & H1 & H2).
  pose proof (writesAtMost_frame _ _ _ H1) as (_ & Hnow & Hstd1).
  destruct (writesAtMost_entry _ _ _ k H2) as [Hsame2|[_ [v Hv]]].
  - destruct (writesAtMost_entry _ _ _ k H1) as [Hsame1|[_ [v Hv]]]; [left; congruence|].
    right. exists v. rewrite Hsame2, Hv, Hstd. by rewrite default_ttlArgument.
  - right. exists v. rewrite Hv, Hnow, Hstd1, Hstd. by rewrite default_ttlArgument.
Qed.

Lemma reachable_wellTimed (w : World) : reachable w -> wellTimed w.
Proof.
  induction 1 as [e t0|w r Hreach IH|w dt Hreach IH].
  - by intros k e' [=].
  - intros k e He. destruct (serve_frame w r) as (Henv & Hnow & _). rewrite Henv, Hnow.
    destruct (serve_entry w r k (reachable_stdTTL w Hreach)) as [Hsame|[v Hv]].
    + rewrite Hsame in He. by apply IH.
    + rewrite Hv in He. injection He as <-. simpl. split; [lia|done].
  - intros k e He. destruct (IH k e He) as [Hpast Httl]. split; [simpl; lia|done].
Qed.

(** What a running server reads from its cache is a value its source
    computed from an answer of the provider, stored not more than the TTL
    of the source ago (and not in the future), under that TTL; the fetcher
    returns it as it is, whatever the provider would answer now, and writes
    nothing. *)
Theorem cache_hit_skips_upstream (w : World) :
  reachable w ->
  (forall k v, cache_get w k = Some v ->
     storedBy k v
     /\ exists storedAt,
          entry w k = Some {| NodeCache.value := v; NodeCache.storedAt := storedAt;
                              NodeCache.ttlSeconds := specTTL (env w) k |}
          /\ 0 <= now w - storedAt <= specTTL (env w) k)
  /\ (forall v response, cache_get w metals_prices = Some v ->
     fetchMetalsPrices w response = (Fulfilled v, w))
  /\ (forall v quotes, cache_get w stock_indices = Some v ->
     fetchStockIndices w quotes = (Fulfilled v, w))
  /\ (forall v response, cache_get w news = Some v ->
     fetchNews w response = (Fulfilled v, w))
  /\ (forall v response, cache_get w macro_news = Some v ->
     fetchMacroNews w response = (Fulfilled v, w))
  /\ (forall v response, cache_get w inflation_news = Some v ->
     fetchInflationNews w response = (Fulfilled v, w))
  /\ (forall v response, cache_get w gold_news = Some v ->
     fetchGoldNews w response = (Fulfilled v, w))
  /\ (forall v response, cache_get w bullish_headlines = Some v ->
     fetchBullishHeadlines w response = (Fulfilled v, w))
  /\ (forall v up, cache_get w performance_data = Some v ->
     GET_api_performance w up
     = ({| Performance.success := true; Performance.error := None;
           Performance.data := v |}, w)).
Proof.
  intros Hreach. split.
  { intros k v Hhit.
    split; [exact (wellStored_hit w k v (reachable_wellStored w Hreach) Hhit)|].
    rewrite cache_get_spec in Hhit.
    destruct (entry w k) as [[v' storedAt ttl]|] eqn:He; simpl in Hhit; [|done].
    destruct (reachable_wellTimed w Hreach k _ He) as [Hpast Httl]; simpl in *.
    case_decide; [done|]. injection Hhit as ->. subst ttl.
    exists storedAt. split; [done|lia]. }
  repeat split; intros v up Hhit.
  - unfold fetchMetalsPrices. by rewrite Hhit.
  - unfold fetchStockIndices. by rewrite Hhit.
  - unfold fetchNews. by rewrite Hhit.
  - unfold fetchMacroNews. by rewrite Hhit.
  - unfold fetchInflationNews. by rewrite Hhit.
  - unfold fetchGoldNews. by rewrite Hhit.
  - unfold fetchBullishHeadlines. by rewrite Hhit.
  - unfold GET_api_performance. by rewrite Hhit.
Qed.

Lemma cache_hit_skips_upstream_witness :
  (exists storedAt,
     entry (tick 30 (serve (boot Sample.env0 0)
                       (Get_prices (Sample.metalsOk 2000 25) Sample.quotesOk)).2)
       metals_prices
     = Some {| NodeCache.value :=
                 {| Metals.gold := {| Metals.price := Some 2000%float;
                                      Metals.timestamp := Some 1700000000 |};
                    Metals.silver := {| Metals.price := Some 25%float;
                                        Metals.timestamp := Some 1700000000 |};
                    Metals.stale := false |};
               NodeCache.storedAt := storedAt; NodeCache.ttlSeconds := 30 |}
     /\ 0 <= 30 - storedAt <= 30)
  /\ fetchMetalsPrices
       (tick 30 (serve (boot Sample.env0 0)
                   (Get_prices (Sample.metalsOk 2000 25) Sample.quotesOk)).2)
       (Threw Sample.down)
     = (Fulfilled {| Metals.gold := {| Metals.price := Some 2000%float;
                                       Metals.timestamp := Some 1700000000 |};
                     Metals.silver := {| Metals.price := Some 25%float;
                                         Metals.timestamp := Some 1700000000 |};
                     Metals.stale := false |},
        tick 30 (serve (boot Sample.env0 0)
                   (Get_prices (Sample.metalsOk 2000 25) Sample.quotesOk)).2).
Proof.
  destruct (cache_hit_skips_upstream
              (tick 30 (serve (boot Sample.env0 0)
                          (Get_prices (Sample.metalsOk 2000 25) Sample.quotesOk)).2)
              (reachable_tick _ _ (reachable_serve _ _ (reachable_boot _ _))))
    as (Hage & Hmetals & _).
  split.
  - exact (proj2 (Hage metals_prices _ eq_refl)).
  - exact (Hmetals _ (Threw Sample.down) eq_refl).
Defined.

(** ** Failures leave the cache alone *)

Ltac fetch_rejected f :=
  unfold f; repeat case_match; simpl; intros; simplify_eq; done.

Lemma fetchMetalsPrices_rejected w response e :
  (fetchMetalsPrices w response).1 = Rejected e -> (fetchMetalsPrices w response).2 = w.
Proof. fetch_rejected fetchMetalsPrices. Qed.

Lemma fetchStockIndices_rejected w quotes e :
  (fetchStockIndices w quotes).1 = Rejected e -> (fetchStockIndices w quotes).2 = w.
Proof. fetch_rejected fetchStockIndices. Qed.

Lemma fetchNews_rejected w response e :
  (fetchNews w response).1 = Rejected e -> (fetchNews w response).2 = w.
Proof. fetch_rejected fetchNews. Qed.

Lemma fetchMacroNews_rejected w response e :
  (fetchMacroNews w response).1 = Rejected e -> (fetchMacroNews w response).2 = w.
Proof. fetch_rejected fetchMacroNews. Qed.

Lemma fetchInflationNews_rejected w response e :
  (fetchInflationNews w response).1 = Rejected e -> (fetchInflationNews w response).2 = w.
Proof. fetch_rejected fetchInflationNews. Qed.

Lemma fetchGoldNews_rejected w response e :
  (fetchGoldNews w response).1 = Rejected e -> (fetchGoldNews w response).2 = w.
Proof. fetch_rejected fetchGoldNews. Qed.

Lemma fetchBullishHeadlines_rejected w response e :
  (fetchBullishHeadlines w response).1 = Rejected e ->
  (fetchBullishHeadlines w response).2 = w.
Proof. fetch_rejected fetchBullishHeadlines. Qed.

(** An envelope with [success: false] comes from a rejected fetch. *)
Lemma newsEnvelope_unsuccessful (r : Settled (list Article)) (t : Z) :
  News.success (newsEnvelope r t) = false -> exists e, r = Rejected e.
Proof. destruct r; simpl; [done|eauto]. Qed.

(** A request that is answered with [success: false] writes nothing, and
    [/api/prices] writes nothing under the key of a source whose tiles it
    answers with [null]: a failure is never cached, and it never replaces
    or removes the entry that is there. *)
Theorem failures_are_not_cached (w : World) :
  (forall r, unsuccessful (serve w r).1 -> (serve w r).2 = w)
  /\ (forall metals quotes,
        (Prices.gold (Prices.data (GET_api_prices w metals quotes).1) = None ->
           entry (GET_api_prices w metals quotes).2 metals_prices = entry w metals_prices)
        /\ (Prices.sp500 (Prices.data (GET_api_prices w metals quotes).1) = None ->
           entry (GET_api_prices w metals quotes).2 stock_indices = entry w stock_indices)).
Proof.
  split.
  - intros [metals quotes|response|response|response|response|response|up|]; simpl.
    + rewrite GET_api_prices_unfold.
      by destruct (pricesResponse_total (fetchMetalsPrices w metals).1
        (fetchStockIndices (fetchMetalsPrices w metals).2 quotes).1
        (now (fetchStockIndices (fetchMetalsPrices w metals).2 quotes).2)) as [-> _].
    + unfold GET_api_news. pose proof (fetchNews_rejected w response) as H.
      destruct (fetchNews w response) as [r w']; simpl in *.
      intros [e ->]%newsEnvelope_unsuccessful. eauto.
    + unfold GET_api_macro_news. pose proof (fetchMacroNews_rejected w response) as H.
      destruct (fetchMacroNews w response) as [r w']; simpl in *.
      intros [e ->]%newsEnvelope_unsuccessful. eauto.
    + unfold GET_api_news_inflation.
      pose proof (fetchInflationNews_rejected w response) as H.
      destruct (fetchInflationNews w response) as [r w']; simpl in *.
      intros [e ->]%newsEnvelope_unsuccessful. eauto.
    + unfold GET_api_news_gold. pose proof (fetchGoldNews_rejected w response) as H.
      destruct (fetchGoldNews w response) as [r w']; simpl in *.
      intros [e ->]%newsEnvelope_unsuccessful. eauto.
    + unfold GET_api_news_headlines.
      pose proof (fetchBullishHeadlines_rejected w response) as H.
      destruct (fetchBullishHeadlines w response) as [[l|e] w']; simpl in *; [done|eauto].
    + unfold GET_api_performance. by repeat case_match.
    + done.
  - intros metals quotes. unfold GET_api_prices.
    pose proof (fetchMetalsPrices_rejected w metals) as Hm.
    pose proof (fetchMetalsPrices_effect w metals) as Hm'.
    destruct (fetchMetalsPrices w metals) as [mr w1]; simpl in *.
    pose proof (fetchStockIndices_rejected w1 quotes) as Hs.
    pose proof (fetchStockIndices_effect w1 quotes) as Hs'.
    destruct (fetchStockIndices w1 quotes) as [sr w2]; simpl in *.
    split; intros Hnull.
    + rewrite (writesAtMost_other _ _ _ metals_prices Hs') by done.
      destruct mr as [m|e]; [by destruct sr|]. by rewrite (Hm e).
    + destruct sr as [s|e]; [by destruct mr|]. rewrite (Hs e) by done.
      by rewrite (writesAtMost_other _ _ _ stock_indices Hm').
Qed.

Lemma failures_are_not_cached_witness :
  (serve (boot Sample.env0 0) (Get_news (Threw Sample.down))).2 = boot Sample.env0 0.
Proof.
  apply (proj1 (failures_are_not_cached (boot Sample.env0 0))
           (Get_news (Threw Sample.down))).
  reflexivity.
Defined.

(** ** Sources do not disturb each other *)

(** Serving a request changes no entry but those of the route's own keys,
    and neither the configuration nor the clock: what another route reads
    from the cache afterwards is what it would have read before. *)
Theorem requests_write_only_their_keys (w : World) (r : Request) (k : Key) :
  k ∉ keysOf r ->
  entry (serve w r).2 k = entry w k
  /\ cache_get (serve w r).2 k = cache_get w k
  /\ env (serve w r).2 = env w
  /\ now (serve w r).2 = now w.
Proof.
  intros Hk. destruct (serve_frame w r) as (Henv & Hnow & _).
  assert (entry (serve w r).2 k = entry w k) as Hentry.
  { pose proof (serve_effect w r) as H. destruct r; simpl in Hk; lazy beta iota in H.
    - destruct H as (w1 & H1 & H2).
      rewrite (writesAtMost_other _ _ _ k H2), (writesAtMost_other _ _ _ k H1);
        [done|set_solver..].
    - apply (writesAtMost_other _ _ _ k H). set_solver.
    - apply (writesAtMost_other _ _ _ k H). set_solver.
    - apply (writesAtMost_other _ _ _ k H). set_solver.
    - apply (writesAtMost_other _ _ _ k H). set_solver.
    - apply (writesAtMost_other _ _ _ k H). set_solver.
    - destruct H as [->| ->]; [done|]. apply entry_cache_set_ne. set_solver.
    - by rewrite H. }
  repeat split; [done| |done|done].
  by rewrite !cache_get_spec, Hentry, Hnow.
Qed.

Lemma requests_write_only_their_keys_witness :
  entry (serve (boot Sample.env0 0) (Get_news Sample.newsOk)).2 metals_prices
  = entry (boot Sample.env0 0) metals_prices.
Proof.
  apply (requests_write_only_their_keys (boot Sample.env0 0) (Get_news Sample.newsOk)
           metals_prices).
  simpl. apply not_elem_of_cons. split; [done|apply not_elem_of_nil].
Defined.

(** ** Time to live *)

(** What a key reads [dt] seconds after it was written. *)
Lemma cache_get_after (w : World) (k : Key) (v : ValueOf k) (ttl : option Z) (dt : nat) :
  cache_get (tick dt (cache_set w k v ttl)) k
  = if decide (Z.of_nat dt > default (NodeCache.stdTTL (cache w)) ttl) then None
    else Some v.
Proof.
  rewrite cache_get_spec.
  change (entry (tick dt (cache_set w k v ttl)) k) with (entry (cache_set w k v ttl) k).
  rewrite entry_cache_set_eq; simpl. repeat case_decide; try done; lia.
Qed.

Ltac kept_for f :=
  let Hmiss := fresh "Hmiss" in let Hful := fresh "Hful" in
  intros ? ? ? Hmiss Hful; unfold f in Hful |- *; rewrite Hmiss in Hful |- *;
  case_match; simpl in Hful;
  [ injection Hful as <-; simpl; rewrite cache_get_after; simpl;
    case_decide; [lia|done]
  | done ].

(** A value fetched on a miss is served for the whole TTL of its source,
    whatever happens to the provider in between: the later call does not
    read the provider's answer, cannot fail and writes nothing. *)
Theorem fetched_value_is_served_for_its_ttl (w : World) (dt : nat) :
  reachable w ->
  (Z.of_nat dt <= CACHE_TTL (env w) ->
     keptFor fetchMetalsPrices metals_prices w dt
     /\ keptFor fetchStockIndices stock_indices w dt)
  /\ (Z.of_nat dt <= 43200 -> keptFor fetchNews news w dt)
  /\ (Z.of_nat dt <= 600 ->
        keptFor fetchMacroNews macro_news w dt
        /\ keptFor fetchInflationNews inflation_news w dt
        /\ keptFor fetchGoldNews gold_news w dt
        /\ keptFor fetchBullishHeadlines bullish_headlines w dt)
  /\ (Z.of_nat dt <= 3600 ->
        forall up up',
          cache_get w performance_data = None ->
          Performance.success (GET_api_performance w up).1 = true ->
          GET_api_performance (tick dt (GET_api_performance w up).2) up'
          = ((GET_api_performance w up).1, tick dt (GET_api_performance w up).2)).
Proof.
  intros Hstd%reachable_stdTTL. unfold keptFor.
  split; [|split; [|split]]; intros Hdt; repeat split.
  - kept_for fetchMetalsPrices.
  - kept_for fetchStockIndices.
  - kept_for fetchNews.
  - kept_for fetchMacroNews.
  - kept_for fetchInflationNews.
  - kept_for fetchGoldNews.
  - kept_for fetchBullishHeadlines.
  - intros up up' Hmiss Hok. unfold GET_api_performance in Hok |- *.
    rewrite Hmiss in Hok |- *. case_match; simpl in Hok; [|done]. simpl.
    rewrite cache_get_after; simpl. case_decide; [lia|done].
Qed.

Lemma fetched_value_is_served_for_its_ttl_witness :
  fetchMetalsPrices
    (tick 30 (fetchMetalsPrices (boot Sample.env0 0) (Sample.metalsOk 2000 25)).2)
    (Threw Sample.down)
  = ((fetchMetalsPrices (boot Sample.env0 0) (Sample.metalsOk 2000 25)).1,
     tick 30 (fetchMetalsPrices (boot Sample.env0 0) (Sample.metalsOk 2000 25)).2).
Proof.
  refine (proj1 (proj1 (fetched_value_is_served_for_its_ttl (boot Sample.env0 0) 30
            (reachable_boot _ _)) _) (Sample.metalsOk 2000 25) (Threw Sample.down) _ _ _).
  - vm_compute. discriminate.
  - reflexivity.
  - reflexivity.
Defined.

(** ** The feeds on a running server *)

Lemma dedupArticles_capped (raw : list NewsApi.RawArticle) :
  (List.length (dedupArticles raw) <= 10)%nat
  /\ NoDup (dedupKey ∘ title <$> dedupArticles raw).
Proof.
  split.
  - unfold dedupArticles. rewrite length_take. lia.
  - rewrite dedupArticles_keys.
    eapply sublist_NoDup; [apply dedupFilter_NoDup|apply sublist_take].
Qed.

Lemma dedupHeadlines_capped (raw : list NewsApi.RawArticle) :
  (List.length (dedupHeadlines raw) <= 25)%nat
  /\ NoDup (dedupKey ∘ h_title <$> dedupHeadlines raw).
Proof.
  split.
  - unfold dedupHeadlines. rewrite length_take. lia.
  - rewrite dedupHeadlines_keys, headlineFilter_eligible.
    eapply sublist_NoDup; [apply dedupFilter_NoDup|apply sublist_take].
Qed.

Lemma newsEnvelope_capped (r : Settled (list Article)) (t : Z) :
  (forall l, r = Fulfilled l -> exists raw, l = dedupArticles raw) ->
  (List.length (News.articles (newsEnvelope r t)) <= 10)%nat
  /\ NoDup (dedupKey ∘ title <$> News.articles (newsEnvelope r t)).
Proof.
  destruct r as [l|e]; simpl; intros H.
  - destruct (H l eq_refl) as [raw ->]. apply dedupArticles_capped.
  - split; [lia|constructor].
Qed.

(** On a running server the macro, inflation and gold endpoints answer with
    at most 10 articles and the headlines endpoint with at most 25
    headlines, no two of them with the same deduplication key, whether the
    answer is computed or read from the cache. *)
Theorem served_feeds_are_capped_and_distinct (w : World) (response : Try NewsApi.Data) :
  reachable w ->
  Forall (fun r : News.Response =>
            (List.length (News.articles r) <= 10)%nat
            /\ NoDup (dedupKey ∘ title <$> News.articles r))
    [ (GET_api_macro_news w response).1;
      (GET_api_news_inflation w response).1;
      (GET_api_news_gold w response).1 ]
  /\ (List.length (Headlines.headlines (GET_api_news_headlines w response).1) <= 25)%nat
  /\ NoDup (dedupKey ∘ h_title
            <$> Headlines.headlines (GET_api_news_headlines w response).1).
Proof.
  intros Hw%reachable_wellStored. split; [repeat apply Forall_cons_2; [..|done]|].
  - unfold GET_api_macro_news.
    pose proof (fetchMacroNews_fulfilled w response) as H.
    destruct (fetchMacroNews w response) as [r w']; simpl in *.
    apply newsEnvelope_capped. intros l ->. by apply H.
  - unfold GET_api_news_inflation.
    pose proof (fetchInflationNews_fulfilled w response) as H.
    destruct (fetchInflationNews w response) as [r w']; simpl in *.
    apply newsEnvelope_capped. intros l ->. by apply H.
  - unfold GET_api_news_gold.
    pose proof (fetchGoldNews_fulfilled w response) as H.
    destruct (fetchGoldNews w response) as [r w']; simpl in *.
    apply newsEnvelope_capped. intros l ->. by apply H.
  - unfold GET_api_news_headlines.
    pose proof (fetchBullishHeadlines_fulfilled w response) as H.
    destruct (fetchBullishHeadlines w response) as [[l|e] w']; simpl in *.
    + destruct (H l Hw eq_refl) as [raw ->]. apply dedupHeadlines_capped.
    + split; [lia|constructor].
Qed.

Lemma served_feeds_are_capped_and_distinct_witness :
  (List.length (Headlines.headlines
     (GET_api_news_headlines (boot Sample.env0 0) Sample.newsOk).1) <= 25)%nat.
Proof.
  exact (proj1 (proj2 (served_feeds_are_capped_and_distinct (boot Sample.env0 0)
                         Sample.newsOk (reachable_boot _ _)))).
Defined.

(** ** Deduplication of a feed without duplicates *)

Section dedup_identity.
Implicit Types (seen : gset (option Utf16)) (l : list NewsApi.RawArticle).

Lemma dedupFilter_distinct seen l :
  NoDup (keyOf <$> l) -> (forall a, a ∈ l -> keyOf a ∉ seen) -> dedupFilter seen l = l.
Proof.
  revert seen. induction l as [|x l IH]; intros seen Hnd Hfresh; simpl; [done|].
  rewrite fmap_cons in Hnd. apply NoDup_cons in Hnd as [Hx Hnd].
  case_decide as Hseen.
  - destruct (Hfresh x); [by left|done].
  - f_equal. apply IH; [done|]. intros a Ha.
    apply not_elem_of_union. split.
    + apply not_elem_of_singleton. intros Heq. apply Hx.
      apply list_elem_of_fmap. exists a. by split.
    + apply Hfresh. by right.
Qed.

Lemma dedupFilter_idempotent l : dedupFilter ∅ (dedupFilter ∅ l) = dedupFilter ∅ l.
Proof.
  apply dedupFilter_distinct; [apply dedupFilter_NoDup|].
  intros a _. apply not_elem_of_empty.
Qed.

Lemma eligible_fixed l :
  (forall a, a ∈ l -> placeholderTitle (NewsApi.title a) = false) -> eligible l = l.
Proof.
  unfold eligible. induction l as [|x l IH]; intros H; [done|].
  rewrite filter_cons. case_decide as Hx.
  - f_equal. apply IH. intros a Ha. apply H. by right.
  - destruct Hx. apply H. by left.
Qed.

Lemma headlineFilter_idempotent l :
  headlineFilter ∅ (headlineFilter ∅ l) = headlineFilter ∅ l.
Proof.
  rewrite !headlineFilter_eligible, eligible_fixed; [apply dedupFilter_idempotent|].
  intros a Ha. apply (sublist_subseteq _ _ (dedupFilter_sublist _ _)) in Ha.
  unfold eligible in Ha. by apply list_elem_of_filter in Ha as [Ha _].
Qed.

End dedup_identity.

(** Deduplication only removes duplicates: a feed whose articles have
    pairwise distinct keys passes the filter unchanged, so that only the
    projection and the cap of 10 apply; and filtering a second time changes
    nothing. *)
Theorem distinct_feeds_pass_deduplication (raw : list NewsApi.RawArticle) :
  (NoDup (keyOf <$> raw) ->
     dedupFilter ∅ raw = raw
     /\ dedupArticles raw = take 10 (projectArticle <$> raw))
  /\ dedupFilter ∅ (dedupFilter ∅ raw) = dedupFilter ∅ raw
  /\ headlineFilter ∅ (headlineFilter ∅ raw) = headlineFilter ∅ raw.
Proof.
  split; [|split; [apply dedupFilter_idempotent|apply headlineFilter_idempotent]].
  intros Hnd.
  assert (dedupFilter ∅ raw = raw) as Hid.
  { apply dedupFilter_distinct; [done|]. intros a _. apply not_elem_of_empty. }
  split; [done|]. unfold dedupArticles. by rewrite Hid.
Qed.

Lemma distinct_feeds_pass_deduplication_witness :
  dedupFilter ∅ [Sample.article (Some "Gold rises") "https://example.com/a";
                 Sample.article (Some "Silver falls") "https://example.com/b"]
  = [Sample.article (Some "Gold rises") "https://example.com/a";
     Sample.article (Some "Silver falls") "https://example.com/b"].
Proof.
  apply (proj1 (distinct_feeds_pass_deduplication _)).
  vm_compute. apply NoDup_cons. split; [|apply NoDup_singleton].
  intros H%list_elem_of_singleton. discriminate H.
Defined.

(** ** The numbers of the metal tiles *)

Lemma SFeqb_refl (s : spec_float) : s <> S754_nan -> SFeqb s s = true.
Proof.
  destruct s as [b|b| |b m e]; [by destruct b|by destruct b|done|]. intros _.
  unfold SFeqb; simpl. rewrite Z.compare_refl, Pos.compare_cont_refl. by destruct b.
Qed.

Lemma is_nan_false (x : float) : is_nan x = false <-> Prim2SF x <> S754_nan.
Proof.
  unfold is_nan. rewrite eqb_spec. split.
  - intros H Hnan. by rewrite Hnan in H.
  - intros H. by rewrite SFeqb_refl.
Qed.

Lemma truthy_Prim2SF (x : float) :
  truthy x = true ->
  match Prim2SF x with S754_finite _ _ _ | S754_infinity _ => True | _ => False end.
Proof.
  unfold truthy, is_zero, is_nan. rewrite !eqb_spec.
  change (Prim2SF zero) with (S754_zero false).
  by destruct (Prim2SF x) as [b|b| |b m e].
Qed.

Lemma truthy_not_nan (x : float) : truthy x = true -> is_nan x = false.
Proof.
  intros Hx%truthy_Prim2SF. apply is_nan_false. intros E. by rewrite E in Hx.
Qed.

Lemma reciprocal_not_nan (r : float) : truthy r = true -> is_nan (1 / r) = false.
Proof.
  intros Hr%truthy_Prim2SF. apply is_nan_false. rewrite div_spec.
  change (Prim2SF 1) with (S754_finite false 4503599627370496 (-52)).
  destruct (Prim2SF r) as [b|b| |b m e]; [done|done|done|].
  by apply SFdiv_not_nan.
Qed.

(** The price of a metal is [null] or a number: never [NaN]. *)
Lemma spotPrice_notNaN (direct inverse : option float) :
  notNaN (spotPrice direct inverse).
Proof.
  unfold spotPrice.
  destruct (truthy_opt direct) eqn:Hd.
  - destruct direct as [d|]; [|done]. by apply truthy_not_nan.
  - destruct inverse as [r|]; [|done].
    destruct (truthy r) eqn:Hr; [|done]. by apply reciprocal_not_nan.
Qed.

Lemma toNumber_mul_not_nan (price : option float) (c : float) :
  notNaN price -> (exists s m e, Prim2SF c = S754_finite s m e) ->
  is_nan (toNumber price * c) = false.
Proof.
  intros Hp (s & m & e & Hc). apply is_nan_false.
  rewrite mul_spec, Hc. apply SFmul_not_nan.
  destruct price as [p|]; simpl; [by apply is_nan_false|done].
Qed.

Lemma metalsRequest_numbers e response m :
  metalsRequest e response = Returned m ->
  Metals.stale m = false
  /\ notNaN (Metals.price (Metals.gold m))
  /\ notNaN (Metals.price (Metals.silver m)).
Proof.
  unfold metalsRequest. repeat case_match; try done. intros [= <-]; simpl.
  repeat split; apply spotPrice_notNaN.
Qed.

Lemma metals_stored_numbers (m : Metals.Result) :
  storedBy metals_prices m ->
  Metals.stale m = false
  /\ notNaN (Metals.price (Metals.gold m))
  /\ notNaN (Metals.price (Metals.silver m)).
Proof. intros (e & response & H). by eapply metalsRequest_numbers. Qed.

Lemma stocks_stored_fresh (s : Stocks.Result) :
  storedBy stock_indices s -> Stocks.stale s = false.
Proof. intros ([[q1 q2]|e] & H); simpl in H; [by injection H as <-|done]. Qed.

(** On a running server no number of a gold or silver tile is [NaN]: the
    price is [null] or a number, and the previous close, the change and the
    percent change are numbers, whether the tile is computed or read from
    the cache. *)
Theorem metal_tiles_hold_numbers (w : World) (metals : Try MetalsApi.Data)
    (quotes : Try (Yahoo.Quote * Yahoo.Quote)) (t : MetalTile.t) :
  reachable w ->
  Prices.gold (Prices.data (GET_api_prices w metals quotes).1) = Some t
  \/ Prices.silver (Prices.data (GET_api_prices w metals quotes).1) = Some t ->
  notNaN (MetalTile.price t)
  /\ is_nan (MetalTile.previousClose t) = false
  /\ is_nan (MetalTile.change t) = false
  /\ is_nan (MetalTile.changePercent t) = false.
Proof.
  intros Hw%reachable_wellStored. rewrite GET_api_prices_unfold.
  pose proof (fetchMetalsPrices_fulfilled w metals) as Hm.
  destruct (fetchMetalsPrices w metals) as [[m|e] w1]; simpl in *.
  - destruct (metals_stored_numbers m (Hm m Hw eq_refl)) as (_ & Hg & Hs).
    unfold pricesResponse, processMetals.
    destruct (processStocks _) as [stocks w2]; simpl.
    intros [[= <-]|[= <-]]; simpl;
      (split; [done|]); repeat split; try done;
      apply toNumber_mul_not_nan; try done; vm_compute; eauto.
  - unfold pricesResponse, processMetals.
    destruct (processStocks _) as [stocks w2]; simpl. by intros [|].
Qed.

Lemma metal_tiles_hold_numbers_witness :
  is_nan (MetalTile.previousClose (goldTile {| Metals.price := Some 2000%float;
                                              Metals.timestamp := Some 1700000000 |}))
  = false.
Proof.
  refine (proj1 (proj2 (metal_tiles_hold_numbers (boot Sample.env0 0)
            (Sample.metalsOk 2000 25) Sample.quotesOk _ (reachable_boot _ _) _))).
  left. reflexivity.
Defined.

(** ** The stale fallback between requests *)

Lemma pricesResponse_stale (mr : Settled Metals.Result) (sr : Settled Stocks.Result) (t : Z) :
  occurrences "Metals data may be stale" (warningsOf (pricesResponse mr sr t))
  = staleCount Metals.stale mr
  /\ occurrences "Stock indices may be stale" (warningsOf (pricesResponse mr sr t))
     = staleCount Stocks.stale sr.
Proof.
  destruct mr as [[g s [|]]|e], sr as [[sp d [|]]|e']; vm_compute; by split.
Qed.

Lemma Overlapped_fetchMetalsPrices_same (w : World) (response : Try MetalsApi.Data) :
  Overlapped.fetchMetalsPrices w w response = fetchMetalsPrices w response.
Proof.
  unfold Overlapped.fetchMetalsPrices, fetchMetalsPrices.
  by destruct (truthy_str (METALS_API_KEY (env w))).
Qed.

Lemma Overlapped_fetchStockIndices_same (w : World) (quotes : Try (Yahoo.Quote * Yahoo.Quote)) :
  Overlapped.fetchStockIndices w w quotes = fetchStockIndices w quotes.
Proof. done. Qed.

(** The metals fetch is fulfilled with a value tagged [stale] exactly when
    it missed the cache, its provider failed, and the cache holds a fresh
    value when it resumes. *)
Lemma Overlapped_fetchMetalsPrices_stale (w w' : World) (response : Try MetalsApi.Data)
    (m : Metals.Result) :
  wellStored w ->
  (Overlapped.fetchMetalsPrices w w' response).1 = Fulfilled m ->
  Metals.stale m = true
  <-> cache_get w metals_prices = None
      /\ truthy_str (METALS_API_KEY (env w)) = true
      /\ (exists error, metalsRequest (env w) response = Threw error)
      /\ exists v, cache_get w' metals_prices = Some v
           /\ m = {| Metals.gold := Metals.gold v; Metals.silver := Metals.silver v;
                     Metals.stale := true |}.
Proof.
  intros Hw. unfold Overlapped.fetchMetalsPrices.
  destruct (cache_get w metals_prices) as [cached|] eqn:Hhit; simpl.
  - intros [= <-]. split; [|by intros (? & _)].
    intros Hstale. apply (wellStored_hit w metals_prices) in Hhit; [|done].
    destruct (metals_stored_numbers _ Hhit) as [Hfresh _]. congruence.
  - destruct (truthy_str (METALS_API_KEY (env w))) eqn:Hkey.
    + destruct (metalsRequest (env w) response) as [result|error] eqn:Hrequest; simpl.
      * intros [= <-]. split; [|by intros (_ & _ & [error Herror] & _)].
        intros Hstale. destruct (metalsRequest_numbers _ _ _ Hrequest) as [Hfresh _].
        congruence.
      * destruct (cache_get w' metals_prices) as [v|] eqn:Hv; simpl; [|done].
        intros [= <-]. split; [|done]. intros _. eauto 10.
    + unfold metalsRequest. rewrite Hkey. simpl. by rewrite Hhit.
Qed.

Lemma Overlapped_fetchStockIndices_stale (w w' : World)
    (quotes : Try (Yahoo.Quote * Yahoo.Quote)) (s : Stocks.Result) :
  wellStored w ->
  (Overlapped.fetchStockIndices w w' quotes).1 = Fulfilled s ->
  Stocks.stale s = true
  <-> cache_get w stock_indices = None
      /\ (exists error, stocksRequest quotes = Threw error)
      /\ exists v, cache_get w' stock_indices = Some v
           /\ s = {| Stocks.sp500 := Stocks.sp500 v; Stocks.dow := Stocks.dow v;
                     Stocks.stale := true |}.
Proof.
  intros Hw. unfold Overlapped.fetchStockIndices.
  destruct (cache_get w stock_indices) as [cached|] eqn:Hhit; simpl.
  - intros [= <-]. split; [|by intros (? & _)].
    intros Hstale. apply (wellStored_hit w stock_indices) in Hhit; [|done].
    pose proof (stocks_stored_fresh _ Hhit). congruence.
  - destruct (stocksRequest quotes) as [result|error] eqn:Hrequest; simpl.
    + intros [= <-]. split; [|by intros (_ & [error Herror] & _)].
      intros Hstale.
      assert (storedBy stock_indices result) as Hstored by (by exists quotes).
      pose proof (stocks_stored_fresh _ Hstored). congruence.
    + destruct (cache_get w' stock_indices) as [v|] eqn:Hv; simpl; [|done].
      intros [= <-]. split; [|done]. intros _. eauto 10.
Qed.

(** The [stale] tag needs two requests that overlap.  When requests are
    served one after the other no fetcher is fulfilled with a value tagged
    [stale], and [/api/prices] only warns of sources that failed: the
    [catch] block reads the cache the first [get] has just missed.  When
    the fetch resumes in another state [w'] of the server, it is fulfilled
    with a tagged value exactly if it missed the cache, its provider failed
    and the cache of [w'] holds a fresh value, which another request stored
    meanwhile: the fetch is then fulfilled with that value, tagged, and
    writes nothing, where the same call on its own is rejected. *)
Theorem stale_tag_needs_an_overlapping_request (w w' : World)
    (metals : Try MetalsApi.Data) (quotes : Try (Yahoo.Quote * Yahoo.Quote)) :
  reachable w -> reachable w' ->
  Overlapped.fetchMetalsPrices w w metals = fetchMetalsPrices w metals
  /\ Overlapped.fetchStockIndices w w quotes = fetchStockIndices w quotes
  /\ (forall m, (fetchMetalsPrices w metals).1 = Fulfilled m -> Metals.stale m = false)
  /\ (forall s, (fetchStockIndices w quotes).1 = Fulfilled s -> Stocks.stale s = false)
  /\ (forall x, x ∈ warningsOf (GET_api_prices w metals quotes).1 ->
        x = "Unable to fetch metals prices" \/ x = "Unable to fetch stock indices")
  /\ (forall m, (Overlapped.fetchMetalsPrices w w' metals).1 = Fulfilled m ->
        Metals.stale m = true
        <-> cache_get w metals_prices = None
            /\ truthy_str (METALS_API_KEY (env w)) = true
            /\ (exists error, metalsRequest (env w) metals = Threw error)
            /\ exists v, cache_get w' metals_prices = Some v
                 /\ m = {| Metals.gold := Metals.gold v; Metals.silver := Metals.silver v;
                           Metals.stale := true |})
  /\ (forall s, (Overlapped.fetchStockIndices w w' quotes).1 = Fulfilled s ->
        Stocks.stale s = true
        <-> cache_get w stock_indices = None
            /\ (exists error, stocksRequest quotes = Threw error)
            /\ exists v, cache_get w' stock_indices = Some v
                 /\ s = {| Stocks.sp500 := Stocks.sp500 v; Stocks.dow := Stocks.dow v;
                           Stocks.stale := true |})
  /\ (forall error v,
        cache_get w metals_prices = None ->
        truthy_str (METALS_API_KEY (env w)) = true ->
        metalsRequest (env w) metals = Threw error ->
        cache_get w' metals_prices = Some v ->
        Overlapped.fetchMetalsPrices w w' metals
        = (Fulfilled {| Metals.gold := Metals.gold v; Metals.silver := Metals.silver v;
                        Metals.stale := true |}, w')
        /\ Metals.stale v = false
        /\ fetchMetalsPrices w metals = (Rejected error, w))
  /\ (forall error v,
        cache_get w stock_indices = None ->
        stocksRequest quotes = Threw error ->
        cache_get w' stock_indices = Some v ->
        Overlapped.fetchStockIndices w w' quotes
        = (Fulfilled {| Stocks.sp500 := Stocks.sp500 v; Stocks.dow := Stocks.dow v;
                        Stocks.stale := true |}, w')
        /\ Stocks.stale v = false
        /\ fetchStockIndices w quotes = (Rejected error, w)).
Proof.
  intros Hw%reachable_wellStored Hw'%reachable_wellStored.
  split; [apply Overlapped_fetchMetalsPrices_same|].
  split; [apply Overlapped_fetchStockIndices_same|].
  split; [|split; [|split; [|split; [|split; [|split]]]]].
  - intros m Hm. by apply metals_stored_numbers, (fetchMetalsPrices_fulfilled w metals).
  - intros s Hs. by apply stocks_stored_fresh, (fetchStockIndices_fulfilled w quotes).
  - rewrite GET_api_prices_unfold.
    pose proof (fetchMetalsPrices_fulfilled w metals) as Hm.
    pose proof (writesStored_wellStored _ _ _ (fetchMetalsPrices_stored w metals) Hw) as Hw1.
    destruct (fetchMetalsPrices w metals) as [mr w1]; simpl in *.
    pose proof (fetchStockIndices_fulfilled w1 quotes) as Hs.
    destruct (fetchStockIndices w1 quotes) as [sr w2]; simpl in *.
    assert (forall x, x ∈ (processMetals mr).2 -> x = "Unable to fetch metals prices") as H1.
    { destruct mr as [m|e]; simpl.
      - destruct (metals_stored_numbers m (Hm m Hw eq_refl)) as (-> & _).
        by intros x ?%elem_of_nil.
      - by intros x ->%list_elem_of_singleton. }
    assert (forall x, x ∈ (processStocks sr).2 -> x = "Unable to fetch stock indices") as H2.
    { destruct sr as [s|e]; simpl.
      - rewrite (stocks_stored_fresh s (Hs s Hw1 eq_refl)). by intros x ?%elem_of_nil.
      - by intros x ->%list_elem_of_singleton. }
    unfold pricesResponse, warningsOf.
    destruct (processMetals mr) as [m l1], (processStocks sr) as [s l2]; simpl in *.
    intros x. case_decide; simpl; [|by intros ?%elem_of_nil].
    intros [?|?]%elem_of_app; eauto.
  - intros m. by apply Overlapped_fetchMetalsPrices_stale.
  - intros s. by apply Overlapped_fetchStockIndices_stale.
  - intros error v Hmiss Hkey Hrequest Hv. split; [|split].
    + unfold Overlapped.fetchMetalsPrices. by rewrite Hmiss, Hkey, Hrequest, Hv.
    + by apply metals_stored_numbers, (wellStored_hit w' metals_prices).
    + unfold fetchMetalsPrices. by rewrite Hmiss, Hrequest.
  - intros error v Hmiss Hrequest Hv. split; [|split].
    + unfold Overlapped.fetchStockIndices. by rewrite Hmiss, Hrequest, Hv.
    + by apply stocks_stored_fresh, (wellStored_hit w' stock_indices).
    + unfold fetchStockIndices. by rewrite Hmiss, Hrequest.
Qed.

Lemma stale_tag_needs_an_overlapping_request_witness :
  Overlapped.fetchMetalsPrices (boot Sample.env0 0)
    (serve (boot Sample.env0 0) (Get_prices (Sample.metalsOk 2000 25) Sample.quotesOk)).2
    (Threw Sample.down)
  = (Fulfilled {| Metals.gold := {| Metals.price := Some 2000%float;
                                    Metals.timestamp := Some 1700000000 |};
                  Metals.silver := {| Metals.price := Some 25%float;
                                      Metals.timestamp := Some 1700000000 |};
                  Metals.stale := true |},
     (serve (boot Sample.env0 0) (Get_prices (Sample.metalsOk 2000 25) Sample.quotesOk)).2)
  /\ fetchMetalsPrices (boot Sample.env0 0) (Threw Sample.down)
     = (Rejected Sample.down, boot Sample.env0 0).
Proof.
  destruct (stale_tag_needs_an_overlapping_request (boot Sample.env0 0)
              (serve (boot Sample.env0 0)
                 (Get_prices (Sample.metalsOk 2000 25) Sample.quotesOk)).2
              (Threw Sample.down) Sample.quotesOk
              (reachable_boot _ _) (reachable_serve _ _ (reachable_boot _ _)))
    as (_ & _ & _ & _ & _ & _ & _ & Hstale & _).
  destruct (Hstale Sample.down
              {| Metals.gold := {| Metals.price := Some 2000%float;
                                   Metals.timestamp := Some 1700000000 |};
                 Metals.silver := {| Metals.price := Some 25%float;
                                     Metals.timestamp := Some 1700000000 |};
                 Metals.stale := false |} eq_refl eq_refl eq_refl eq_refl)
    as (Hserved & _ & Hrejected).
  split; [exact Hserved|exact Hrejected].
Defined.

(** What [/api/prices] answers when a fetch resumes after other requests:
    the body always says [success: true] and carries the tiles of every
    source that was fulfilled; it warns that the metals data "may be stale"
    exactly when the metals fetch missed the cache, the provider failed and
    the cache holds a fresh value when the fetch resumes, and then the gold
    and silver tiles are those of that value; likewise for the stock
    indices and the two index tiles.  Each warning is there at most once. *)
Theorem stale_values_are_served_with_warning (w wm ws : World)
    (metals : Try MetalsApi.Data) (quotes : Try (Yahoo.Quote * Yahoo.Quote)) (t : Z) :
  reachable w ->
  let r := Overlapped.GET_api_prices w wm ws metals quotes t in
  Prices.success r = true
  /\ (forall m, (Overlapped.fetchMetalsPrices w wm metals).1 = Fulfilled m ->
        Prices.gold (Prices.data r) = Some (goldTile (Metals.gold m))
        /\ Prices.silver (Prices.data r) = Some (silverTile (Metals.silver m)))
  /\ (forall s, (Overlapped.fetchStockIndices w ws quotes).1 = Fulfilled s ->
        Prices.sp500 (Prices.data r) = Some (indexTile "^GSPC" "S&P 500" (Stocks.sp500 s))
        /\ Prices.dow (Prices.data r) = Some (indexTile "^DJI" "Dow Jones" (Stocks.dow s)))
  /\ (occurrences "Metals data may be stale" (warningsOf r) <= 1)%nat
  /\ (occurrences "Stock indices may be stale" (warningsOf r) <= 1)%nat
  /\ (occurrences "Metals data may be stale" (warningsOf r) = 1%nat
      <-> cache_get w metals_prices = None
          /\ truthy_str (METALS_API_KEY (env w)) = true
          /\ (exists error, metalsRequest (env w) metals = Threw error)
          /\ is_Some (cache_get wm metals_prices))
  /\ (occurrences "Stock indices may be stale" (warningsOf r) = 1%nat
      <-> cache_get w stock_indices = None
          /\ (exists error, stocksRequest quotes = Threw error)
          /\ is_Some (cache_get ws stock_indices))
  /\ (forall error v,
        cache_get w metals_prices = None ->
        truthy_str (METALS_API_KEY (env w)) = true ->
        metalsRequest (env w) metals = Threw error ->
        cache_get wm metals_prices = Some v ->
        Prices.gold (Prices.data r) = Some (goldTile (Metals.gold v))
        /\ Prices.silver (Prices.data r) = Some (silverTile (Metals.silver v))
        /\ "Metals data may be stale" ∈ warningsOf r)
  /\ (forall error v,
        cache_get w stock_indices = None ->
        stocksRequest quotes = Threw error ->
        cache_get ws stock_indices = Some v ->
        Prices.sp500 (Prices.data r) = Some (indexTile "^GSPC" "S&P 500" (Stocks.sp500 v))
        /\ Prices.dow (Prices.data r) = Some (indexTile "^DJI" "Dow Jones" (Stocks.dow v))
        /\ "Stock indices may be stale" ∈ warningsOf r).
Proof.
  intros Hw%reachable_wellStored r. subst r. unfold Overlapped.GET_api_prices.
  pose proof (Overlapped_fetchMetalsPrices_stale w wm metals) as Hm.
  pose proof (Overlapped_fetchStockIndices_stale w ws quotes) as Hs.
  assert (forall error v,
            cache_get w metals_prices = None ->
            truthy_str (METALS_API_KEY (env w)) = true ->
            metalsRequest (env w) metals = Threw error ->
            cache_get wm metals_prices = Some v ->
            (Overlapped.fetchMetalsPrices w wm metals).1
            = Fulfilled {| Metals.gold := Metals.gold v; Metals.silver := Metals.silver v;
                           Metals.stale := true |}) as Hmv.
  { intros error v Hmiss Hkey Hrequest Hv. unfold Overlapped.fetchMetalsPrices.
    by rewrite Hmiss, Hkey, Hrequest, Hv. }
  assert (forall error v,
            cache_get w stock_indices = None ->
            stocksRequest quotes = Threw error ->
            cache_get ws stock_indices = Some v ->
            (Overlapped.fetchStockIndices w ws quotes).1
            = Fulfilled {| Stocks.sp500 := Stocks.sp500 v; Stocks.dow := Stocks.dow v;
                           Stocks.stale := true |}) as Hsv.
  { intros error v Hmiss Hrequest Hv. unfold Overlapped.fetchStockIndices.
    by rewrite Hmiss, Hrequest, Hv. }
  destruct (Overlapped.fetchMetalsPrices w wm metals) as [mr w1]; simpl in *.
  destruct (Overlapped.fetchStockIndices w ws quotes) as [sr w2]; simpl in *.
  destruct (pricesResponse_total mr sr t) as (Hsuccess & Hmetals & Hstocks & _).
  destruct (pricesResponse_stale mr sr t) as (Hwm & Hws).
  cbv zeta in Hsuccess, Hmetals, Hstocks.
  assert (forall l x, occurrences x l = 1%nat -> x ∈ l) as Hin.
  { intros l x Hone. unfold occurrences in Hone.
    destruct (filter (fun y => y = x) l) as [|y l'] eqn:Hf; [done|].
    assert (y ∈ filter (fun y => y = x) l) as Hy by (rewrite Hf; by left).
    apply list_elem_of_filter in Hy as [-> Hy]. done. }
  split; [done|].
  split; [by intros m ->|]. split; [by intros s ->|].
  split; [rewrite Hwm; destruct mr as [m|e]; simpl; [destruct (Metals.stale m)|]; lia|].
  split; [rewrite Hws; destruct sr as [s|e]; simpl; [destruct (Stocks.stale s)|]; lia|].
  split; [|split; [|split]].
  - rewrite Hwm. destruct mr as [m|e]; simpl.
    + specialize (Hm m Hw eq_refl). destruct (Metals.stale m) eqn:Hstale.
      * split; [intros _|done]. destruct (proj1 Hm eq_refl) as (? & ? & ? & v & -> & _).
        eauto.
      * split; [done|]. intros (Hmiss & Hkey & [error Hrequest] & [v Hv]).
        pose proof (Hmv error v Hmiss Hkey Hrequest Hv) as [= ->]. done.
    + split; [done|]. intros (Hmiss & Hkey & [error Hrequest] & [v Hv]).
      discriminate (Hmv error v Hmiss Hkey Hrequest Hv).
  - rewrite Hws. destruct sr as [s|e]; simpl.
    + specialize (Hs s Hw eq_refl). destruct (Stocks.stale s) eqn:Hstale.
      * split; [intros _|done]. destruct (proj1 Hs eq_refl) as (? & ? & v & -> & _).
        eauto.
      * split; [done|]. intros (Hmiss & [error Hrequest] & [v Hv]).
        pose proof (Hsv error v Hmiss Hrequest Hv) as [= ->]. done.
    + split; [done|]. intros (Hmiss & [error Hrequest] & [v Hv]).
      discriminate (Hsv error v Hmiss Hrequest Hv).
  - intros error v Hmiss Hkey Hrequest Hv.
    specialize (Hmv error v Hmiss Hkey Hrequest Hv). subst mr. simpl in *.
    destruct Hmetals as [-> ->]. split; [done|]. split; [done|]. by apply Hin.
  - intros error v Hmiss Hrequest Hv.
    specialize (Hsv error v Hmiss Hrequest Hv). subst sr. simpl in *.
    destruct Hstocks as [-> ->]. split; [done|]. split; [done|]. by apply Hin.
Qed.

Lemma stale_values_are_served_with_warning_witness :
  Prices.gold (Prices.data
    (Overlapped.GET_api_prices (boot Sample.env0 0)
       (serve (boot Sample.env0 0) (Get_prices (Sample.metalsOk 2000 25) Sample.quotesOk)).2
       (boot Sample.env0 0) (Threw Sample.down) Sample.quotesOk 0))
  = Some (goldTile {| Metals.price := Some 2000%float;
                      Metals.timestamp := Some 1700000000 |})
  /\ Prices.silver (Prices.data
       (Overlapped.GET_api_prices (boot Sample.env0 0)
          (serve (boot Sample.env0 0) (Get_prices (Sample.metalsOk 2000 25) Sample.quotesOk)).2
          (boot Sample.env0 0) (Threw Sample.down) Sample.quotesOk 0))
     = Some (silverTile {| Metals.price := Some 25%float;
                           Metals.timestamp := Some 1700000000 |})
  /\ "Metals data may be stale"
     ∈ warningsOf
         (Overlapped.GET_api_prices (boot Sample.env0 0)
            (serve (boot Sample.env0 0)
               (Get_prices (Sample.metalsOk 2000 25) Sample.quotesOk)).2
            (boot Sample.env0 0) (Threw Sample.down) Sample.quotesOk 0).
Proof.
  exact (proj1 (proj2 (proj2 (proj2 (proj2 (proj2 (proj2 (proj2
    (stale_values_are_served_with_warning (boot Sample.env0 0)
       (serve (boot Sample.env0 0) (Get_prices (Sample.metalsOk 2000 25) Sample.quotesOk)).2
       (boot Sample.env0 0) (Threw Sample.down) Sample.quotesOk 0
       (reachable_boot _ _)))))))))
    Sample.down
    {| Metals.gold := {| Metals.price := Some 2000%float;
                         Metals.timestamp := Some 1700000000 |};
       Metals.silver := {| Metals.price := Some 25%float;
                           Metals.timestamp := Some 1700000000 |};
       Metals.stale := false |} eq_refl eq_refl eq_refl eq_refl).
Defined.

(** ** The names of the performance chart *)

Lemma fetchHistory_name (history : Try (option (list Yahoo.Row))) (n : string)
    (r : PerformanceRecord) :
  fetchHistory history n = Some r -> name r = n.
Proof. unfold fetchHistory. repeat case_match; try done. by intros [= <-]. Qed.

Lemma fetchHistory_names (history : Try (option (list Yahoo.Row))) (n : string)
    (l : list (option PerformanceRecord)) (names : list string) :
  name <$> omap id l `sublist_of` names ->
  name <$> omap id (fetchHistory history n :: l) `sublist_of` n :: names.
Proof.
  intros Hl. simpl. destruct (fetchHistory history n) as [r|] eqn:Hr; simpl.
  - rewrite (fetchHistory_name _ _ _ Hr). by apply sublist_skip.
  - by apply sublist_cons.
Qed.

Lemma assetData_names (up : PerformanceUpstream) :
  exists names, name <$> assetData up ≡ₚ names /\ names `sublist_of` assetNames.
Proof.
  exists (name <$> omap id (historyResults up) ++ staticEstimates)%list. split.
  - by rewrite assetData_Permutation.
  - rewrite fmap_app. unfold historyResults.
    change assetNames
      with (["Gold"; "Silver"; "S&P 500"; "Dow Jones"; "Real Estate"; "Bonds"]
            ++ ["CDs/Savings"; "Cash (USD)"])%list.
    apply sublist_app; [|done].
    repeat apply fetchHistory_names. constructor.
Qed.

Lemma assetNames_NoDup : NoDup assetNames.
Proof.
  unfold assetNames.
  repeat (apply NoDup_cons_2;
          [rewrite ?elem_of_cons, elem_of_nil; intros H;
           repeat (destruct H as [H|H]; [discriminate H|]); done|]).
  constructor.
Qed.

(** On a running server the records of [/api/performance] have pairwise
    distinct names, all among the eight asset classes, so that there are at
    most eight of them, whether the list is computed or read from the
    cache. *)
Theorem performance_names_are_distinct (w : World) (up : PerformanceUpstream) :
  reachable w ->
  NoDup (name <$> Performance.data (GET_api_performance w up).1)
  /\ (forall r, r ∈ Performance.data (GET_api_performance w up).1 -> name r ∈ assetNames)
  /\ (List.length (Performance.data (GET_api_performance w up).1) <= 8)%nat.
Proof.
  intros Hw%reachable_wellStored.
  destruct (Performance.success (GET_api_performance w up).1) eqn:Hok.
  - destruct (GET_api_performance_data w up Hw Hok) as [up' ->].
    destruct (assetData_names up') as (names & Hperm & Hsub).
    split; [|split].
    + rewrite Hperm. exact (sublist_NoDup _ _ assetNames_NoDup Hsub).
    + intros r Hr. apply (sublist_subseteq _ _ Hsub). rewrite <- Hperm.
      apply list_elem_of_fmap. by exists r.
    + rewrite <- (length_fmap name), Hperm. apply (sublist_length _ _ Hsub).
  - revert Hok. unfold GET_api_performance. repeat case_match; simpl; try done.
    intros _. split; [constructor|]. split; [by intros r ?%elem_of_nil|lia].
Qed.

Lemma performance_names_are_distinct_witness :
  NoDup (name <$> Performance.data
           (GET_api_performance (boot Sample.env0 0) Sample.someHistories).1).
Proof.
  exact (proj1 (performance_names_are_distinct (boot Sample.env0 0) Sample.someHistories
                  (reachable_boot _ _))).
Defined.

(** ** Percent change *)

Lemma is_finite_Prim2SF (x : float) :
  is_finite x = true -> finite_or_zero (Prim2SF x).
Proof.
  unfold is_finite, is_nan, is_infinity. rewrite !eqb_spec, abs_spec.
  change (Prim2SF infinity) with (S754_infinity false).
  by destruct (Prim2SF x) as [b|[|]| |b m e].
Qed.

Lemma truthy_not_zero (x : float) : truthy x = true -> (x =? 0)%float = false.
Proof.
  unfold truthy, is_zero. change zero with 0%float.
  by destruct (x =? 0)%float.
Qed.

(** [calculatePercentChange] answers [null] exactly when an argument is
    missing, [0] or [NaN], so that its third test, [previous === 0], never
    decides; otherwise it answers [(current - previous) / previous * 100],
    which for finite arguments is a number: it never divides by zero and
    never answers [NaN]. *)
Theorem percent_change_is_null_or_a_number (current previous : option float) :
  (calculatePercentChange current previous = None
     <-> truthy_opt current = false \/ truthy_opt previous = false)
  /\ (forall c p v,
        current = Some c -> previous = Some p ->
        is_finite c = true -> is_finite p = true ->
        calculatePercentChange current previous = Some v ->
        v = (((c - p) / p) * 100)%float /\ is_nan v = false).
Proof.
  split.
  - destruct current as [c|], previous as [p|]; simpl; [|split; by eauto..].
    destruct (truthy c) eqn:Hc, (truthy p) eqn:Hp; simpl; try (split; by eauto).
    rewrite (truthy_not_zero p Hp). split; [done|by intros [|]].
  - intros c p v -> -> Hc Hp. simpl.
    destruct (truthy c) eqn:Hc', (truthy p) eqn:Hp'; simpl; try done.
    rewrite (truthy_not_zero p Hp'). intros [= <-]. split; [done|].
    apply is_nan_false. rewrite mul_spec.
    change (Prim2SF 100) with (S754_finite false 7036874417766400 (-46)).
    apply SFmul_not_nan. rewrite div_spec.
    apply truthy_Prim2SF in Hp'. apply is_finite_Prim2SF in Hp.
    destruct (Prim2SF p) as [b|b| |b m e] eqn:Ep; try done.
    apply SFdiv_not_nan. rewrite sub_spec, Ep.
    apply SFsub_not_nan; [by apply is_finite_Prim2SF|done].
Qed.

Lemma percent_change_is_null_or_a_number_witness :
  is_nan (((110 - 100) / 100) * 100)%float = false.
Proof.
  exact (proj2 (proj2 (percent_change_is_null_or_a_number (Some 110%float)
                         (Some 100%float))
                  110%float 100%float _ eq_refl eq_refl eq_refl eq_refl eq_refl)).
Defined.

(** * The client against the server *)

(** ** [useMarketData] *)

Lemma fetchData_accepted (captured : option Prices.Data) (s : useMarketData.State)
    (outcome : Try useMarketData.HttpResponse) (result : Prices.Response) :
  useMarketData.accepted outcome = Returned result ->
  useMarketData.fetchData captured s outcome
  = let found := useMarketData.detect (useMarketData.prevPrices s) (Prices.data result) in
    {| useMarketData.data := Some (Prices.data result);
       useMarketData.loading := false;
       useMarketData.error := None;
       useMarketData.lastUpdated := Some (Prices.lastUpdated result);
       useMarketData.warnings := default [] (Prices.warnings result);
       useMarketData.updatedTiles :=
         if decide (0 < size found.1)%nat then found.1 else useMarketData.updatedTiles s;
       useMarketData.prevPrices := found.2 |}.
Proof.
  intros H. unfold useMarketData.fetchData. rewrite H.
  by destruct (useMarketData.detect _ _).
Qed.

Lemma GET_api_prices_lastUpdated (w : World) (metals : Try MetalsApi.Data)
    (quotes : Try (Yahoo.Quote * Yahoo.Quote)) :
  Prices.success (GET_api_prices w metals quotes).1 = true
  /\ Prices.lastUpdated (GET_api_prices w metals quotes).1 = now w.
Proof.
  rewrite GET_api_prices_unfold. split; [apply pricesResponse_total|].
  destruct (writesAtMost_frame _ _ _ (fetchMetalsPrices_effect w metals)) as (_ & H1 & _).
  destruct (writesAtMost_frame _ _ _
    (fetchStockIndices_effect (fetchMetalsPrices w metals).2 quotes)) as (_ & H2 & _).
  unfold pricesResponse.
  destruct (processMetals _), (processStocks _); simpl. congruence.
Qed.

Lemma accepted_answered (body : Prices.Response) :
  Prices.success body = true -> useMarketData.accepted (answered body) = Returned body.
Proof. intros H. unfold useMarketData.accepted, answered; simpl. by rewrite H. Qed.

(** The hook accepts every body of [/api/prices]: whatever the sources do,
    also when both fail, it sets no error, stores the four tiles (those of a
    failed source being [null]), shows the body's warnings and ends the
    loading state.  The error state is left to transport failures. *)
Theorem market_hook_accepts_every_server_answer (w : World) (metals : Try MetalsApi.Data)
    (quotes : Try (Yahoo.Quote * Yahoo.Quote)) (captured : option Prices.Data)
    (s : useMarketData.State) :
  let body := (GET_api_prices w metals quotes).1 in
  let s' := useMarketData.fetchData captured s (answered body) in
  useMarketData.error s' = None
  /\ useMarketData.data s' = Some (Prices.data body)
  /\ useMarketData.warnings s' = warningsOf body
  /\ useMarketData.lastUpdated s' = Some (now w)
  /\ useMarketData.loading s' = false.
Proof.
  intros body s'. subst s'.
  destruct (GET_api_prices_lastUpdated w metals quotes) as [Hok Hnow].
  rewrite (fetchData_accepted _ _ _ body) by by apply accepted_answered.
  simpl. subst body. by rewrite Hnow.
Qed.

Lemma refresh_data (s : useMarketData.State) (outcome : Try useMarketData.HttpResponse) :
  useMarketData.data (refresh s outcome)
  = match useMarketData.accepted outcome with
    | Returned result => Some (Prices.data result)
    | Threw _ => useMarketData.data s
    end.
Proof.
  unfold refresh, useMarketData.fetchData.
  destruct (useMarketData.accepted outcome) as [result|err].
  - by destruct (useMarketData.detect _ _).
  - simpl. by destruct (useMarketData.data s).
Qed.

Lemma refreshes_data (s : useMarketData.State) (outcomes : list (Try useMarketData.HttpResponse)) :
  useMarketData.data (refreshes s outcomes) = lastAccepted (useMarketData.data s) outcomes.
Proof.
  revert s. induction outcomes as [|outcome outcomes IH]; intros s; [done|].
  unfold refreshes, lastAccepted in *. cbn [foldl]. by rewrite IH, refresh_data.
Qed.

Lemma lastAccepted_is_Some (d : option Prices.Data)
    (outcomes : list (Try useMarketData.HttpResponse)) :
  is_Some d -> is_Some (lastAccepted d outcomes).
Proof.
  revert d. induction outcomes as [|outcome outcomes IH]; intros d Hd; [done|].
  unfold lastAccepted in *. cbn [foldl]. apply IH.
  by destruct (useMarketData.accepted outcome).
Qed.

Lemma refresh_failed (s : useMarketData.State) (outcome : Try useMarketData.HttpResponse)
    (err : Error) :
  useMarketData.accepted outcome = Threw err ->
  refresh s outcome
  = {| useMarketData.data := useMarketData.data s;
       useMarketData.loading := false;
       useMarketData.error := Some (message err);
       useMarketData.lastUpdated := useMarketData.lastUpdated s;
       useMarketData.warnings := useMarketData.warnings s;
       useMarketData.updatedTiles := useMarketData.updatedTiles s;
       useMarketData.prevPrices := useMarketData.prevPrices s |}.
Proof.
  intros Hfail. unfold refresh, useMarketData.fetchData. rewrite Hfail.
  by destruct (useMarketData.data s).
Qed.

(** Refreshes that follow one another never clear the data of the hook:
    after any number of them the data are those of the last answer that was
    accepted, or the ones the hook had if none was; the error is that of
    the last refresh, and a series of failures leaves the warnings, the time
    of the last update, the animation flags and the remembered prices as
    they were.  Not so when two calls overlap: a call made by a render that
    had no data, such as the call of the mount effect, which fails after
    another call has brought data, sets the data back to [null]. *)
Theorem failed_refresh_keeps_market_data (s : useMarketData.State)
    (outcomes : list (Try useMarketData.HttpResponse)) :
  useMarketData.data (refreshes s outcomes) = lastAccepted (useMarketData.data s) outcomes
  /\ (is_Some (useMarketData.data s) -> is_Some (useMarketData.data (refreshes s outcomes)))
  /\ (forall outcome,
        let s' := refreshes s (outcomes ++ [outcome]) in
        useMarketData.loading s' = false
        /\ useMarketData.error s'
           = match useMarketData.accepted outcome with
             | Returned _ => None
             | Threw err => Some (message err)
             end)
  /\ (Forall (fun outcome => exists err, useMarketData.accepted outcome = Threw err) outcomes ->
      let s' := refreshes s outcomes in
      useMarketData.data s' = useMarketData.data s
      /\ useMarketData.warnings s' = useMarketData.warnings s
      /\ useMarketData.lastUpdated s' = useMarketData.lastUpdated s
      /\ useMarketData.updatedTiles s' = useMarketData.updatedTiles s
      /\ useMarketData.prevPrices s' = useMarketData.prevPrices s)
  /\ (forall first second result err,
        useMarketData.accepted first = Returned result ->
        useMarketData.accepted second = Threw err ->
        let s' := refreshes s outcomes in
        useMarketData.data (refresh (refresh s' first) second) = Some (Prices.data result)
        /\ useMarketData.data
             (useMarketData.fetchData None (useMarketData.fetchData None s' first) second)
           = None).
Proof.
  split; [apply refreshes_data|].
  split; [intros Hdata; rewrite refreshes_data; by apply lastAccepted_is_Some|].
  split; [|split].
  - intros outcome. cbv zeta. unfold refreshes. rewrite foldl_app. cbn [foldl].
    unfold refresh at 1 3, useMarketData.fetchData.
    destruct (useMarketData.accepted outcome) as [result|err]; [|done].
    by destruct (useMarketData.detect _ _).
  - intros Hfail. cbv zeta. revert s.
    induction Hfail as [|outcome outcomes [err Herr] Hfail IH]; intros s; [done|].
    unfold refreshes in *. cbn [foldl].
    destruct (IH (refresh s outcome)) as (-> & -> & -> & -> & ->).
    by rewrite (refresh_failed s outcome err Herr).
  - intros first second result err Hfirst Hsecond. cbv zeta. split.
    + by rewrite !refresh_data, Hsecond, Hfirst.
    + unfold useMarketData.fetchData at 1. by rewrite Hsecond.
Qed.

Lemma failed_refresh_keeps_market_data_witness :
  useMarketData.data
    (refreshes useMarketData.initial
       [ answered (GET_api_prices (boot Sample.env0 0) (Sample.metalsOk 2000 25)
                     Sample.quotesOk).1;
         Returned {| useMarketData.ok := false; useMarketData.status := 502;
                     useMarketData.json := Threw Sample.down |};
         Threw Sample.down ])
  = Some (Prices.data (GET_api_prices (boot Sample.env0 0) (Sample.metalsOk 2000 25)
                         Sample.quotesOk).1).
Proof.
  exact (proj1 (failed_refresh_keeps_market_data useMarketData.initial
    [ answered (GET_api_prices (boot Sample.env0 0) (Sample.metalsOk 2000 25)
                  Sample.quotesOk).1;
      Returned {| useMarketData.ok := false; useMarketData.status := 502;
                  useMarketData.json := Threw Sample.down |};
      Threw Sample.down ])).
Defined.

(** ** Which tiles are animated *)

Lemma strictEq_Undefined (x : JsPrice) : strictEq x Undefined = true <-> x = Undefined.
Proof. by destruct x. Qed.

Lemma strictEq_Undefined_false (x : JsPrice) :
  strictEq x Undefined = false <-> x <> Undefined.
Proof. by destruct x. Qed.

(** A number that arrives in a body is equal to itself. *)
Lemma strictEq_jsonNumber (x : float) : strictEq (jsonNumber x) (jsonNumber x) = true.
Proof.
  unfold jsonNumber. destruct (is_finite x) eqn:Hx; [|done]. simpl.
  rewrite eqb_spec. apply SFeqb_refl. apply is_finite_Prim2SF in Hx.
  intros E. by rewrite E in Hx.
Qed.

Lemma strictEq_priceOf (d : Prices.Data) (key : string) :
  strictEq (useMarketData.priceOf d key) (useMarketData.priceOf d key) = true.
Proof.
  unfold useMarketData.priceOf, from_option.
  repeat case_match; simpl; try done; apply strictEq_jsonNumber.
Qed.

Lemma detect_fold (d : Prices.Data) (keys : list string) (flags : gset string)
    (prev : gmap string JsPrice) :
  NoDup keys ->
  (forall k, k ∈ (foldl (useMarketData.detectStep d) (flags, prev) keys).1
     <-> k ∈ flags
         \/ (k ∈ keys /\ remembered prev k <> Undefined
             /\ strictEq (useMarketData.priceOf d k) (remembered prev k) = false))
  /\ (forall k, (foldl (useMarketData.detectStep d) (flags, prev) keys).2 !! k
        = if decide (k ∈ keys) then
            if strictEq (useMarketData.priceOf d k) Undefined then prev !! k
            else Some (useMarketData.priceOf d k)
          else prev !! k).
Proof.
  revert flags prev. induction keys as [|k0 keys IH]; intros flags prev Hnd.
  - simpl. split; intros k.
    + rewrite elem_of_nil. tauto.
    + done.
  - apply NoDup_cons in Hnd as [Hk0 Hnd]. cbn [foldl].
    destruct (useMarketData.detectStep d (flags, prev) k0) as [flags' prev'] eqn:Hstep.
    unfold useMarketData.detectStep in Hstep.
    fold (remembered prev k0) in Hstep. injection Hstep as Hflags Hprev.
    destruct (IH flags' prev' Hnd) as [IH1 IH2].
    assert (forall k, k <> k0 -> prev' !! k = prev !! k) as Hother.
    { intros k Hk. subst prev'. case_match; [|done]. by rewrite lookup_insert_ne. }
    assert (prev' !! k0
            = if strictEq (useMarketData.priceOf d k0) Undefined then prev !! k0
              else Some (useMarketData.priceOf d k0)) as Hk0'.
    { subst prev'.
      destruct (strictEq (useMarketData.priceOf d k0) Undefined); simpl; [done|].
      by rewrite lookup_insert_eq. }
    assert (forall k, k ∈ flags'
              <-> k ∈ flags
                  \/ (k = k0 /\ remembered prev k0 <> Undefined
                      /\ strictEq (useMarketData.priceOf d k0) (remembered prev k0) = false))
      as Hflags'.
    { intros k. subst flags'.
      destruct (strictEq (remembered prev k0) Undefined) eqn:H1; simpl.
      - apply strictEq_Undefined in H1. split; [by left|].
        intros [?|(_ & Hc & _)]; [done|]. by destruct Hc.
      - apply strictEq_Undefined_false in H1.
        destruct (strictEq (useMarketData.priceOf d k0) (remembered prev k0)) eqn:H2; simpl.
        + split; [by left|]. intros [?|(_ & _ & ?)]; [done|congruence].
        + rewrite elem_of_union, elem_of_singleton. split.
          * intros [->|?]; [by right|by left].
          * intros [?|(-> & _)]; [by right|by left]. }
    split; intros k.
    + rewrite IH1, Hflags', elem_of_cons. split.
      * intros [[?|(-> & ? & ?)]|(Hk & H1 & H2)]; [by left|right; by eauto|].
        assert (k <> k0) as Hne by (by intros ->).
        unfold remembered in *. rewrite (Hother k Hne) in H1, H2. right; eauto.
      * intros [?|([->|Hk] & H1 & H2)]; [by left; left|by left; right|].
        assert (k <> k0) as Hne by (by intros ->).
        right. unfold remembered in *. by rewrite (Hother k Hne).
    + rewrite IH2. destruct (decide (k = k0)) as [->|Hne].
      * rewrite decide_False by done. rewrite decide_True by (by left). done.
      * rewrite (Hother k Hne). destruct (decide (k ∈ keys)) as [Hk|Hk].
        -- by rewrite decide_True by (by right).
        -- rewrite decide_False; [done|]. by intros [?|?]%elem_of_cons.
Qed.

Lemma tileKeys_NoDup : NoDup useMarketData.tileKeys.
Proof.
  unfold useMarketData.tileKeys.
  repeat (apply NoDup_cons_2;
          [rewrite ?elem_of_cons, elem_of_nil; intros H;
           repeat (destruct H as [H|H]; [discriminate H|]); done|]).
  constructor.
Qed.

Lemma detect_flags (prev : gmap string JsPrice) (d : Prices.Data) (key : string) :
  key ∈ (useMarketData.detect prev d).1
  <-> key ∈ useMarketData.tileKeys
      /\ remembered prev key <> Undefined
      /\ strictEq (useMarketData.priceOf d key) (remembered prev key) = false.
Proof.
  unfold useMarketData.detect.
  rewrite (proj1 (detect_fold d _ ∅ prev tileKeys_NoDup) key).
  rewrite elem_of_empty. tauto.
Qed.

Lemma detect_remembered (prev : gmap string JsPrice) (d : Prices.Data) (key : string) :
  remembered (useMarketData.detect prev d).2 key
  = if decide (key ∈ useMarketData.tileKeys) then
      if strictEq (useMarketData.priceOf d key) Undefined then remembered prev key
      else useMarketData.priceOf d key
    else remembered prev key.
Proof.
  unfold remembered, useMarketData.detect.
  rewrite (proj2 (detect_fold d _ ∅ prev tileKeys_NoDup) key).
  by repeat case_match.
Qed.

(** The tiles the hook flags for animation.  A tile is flagged exactly when
    a price is remembered for it and the price of the answer is not
    strictly equal to it, and the hook then remembers the price of the
    answer unless it is missing.  So the first answer flags nothing; an
    answer that says the same as the previous one flags no tile that it
    prices; and a tile that is [null] in the answer, as those of a failed
    source are, is flagged at every poll for as long as a price is
    remembered for it. *)
Theorem animation_flags (prev : gmap string JsPrice) (d : Prices.Data) (key : string) :
  (key ∈ (useMarketData.detect prev d).1
     <-> key ∈ useMarketData.tileKeys
         /\ remembered prev key <> Undefined
         /\ strictEq (useMarketData.priceOf d key) (remembered prev key) = false)
  /\ (key ∈ useMarketData.tileKeys ->
        remembered (useMarketData.detect prev d).2 key
        = if strictEq (useMarketData.priceOf d key) Undefined then remembered prev key
          else useMarketData.priceOf d key)
  /\ (useMarketData.detect ∅ d).1 = ∅
  /\ (key ∈ (useMarketData.detect (useMarketData.detect prev d).2 d).1
        <-> key ∈ useMarketData.tileKeys
            /\ remembered prev key <> Undefined
            /\ useMarketData.priceOf d key = Undefined)
  /\ (forall w metals quotes e,
        d = Prices.data (GET_api_prices w metals quotes).1 ->
        (fetchMetalsPrices w metals).1 = Rejected e ->
        remembered prev "gold" <> Undefined ->
        "gold" ∈ (useMarketData.detect prev d).1
        /\ remembered (useMarketData.detect prev d).2 "gold" = remembered prev "gold").
Proof.
  split; [apply detect_flags|]. split.
  { intros Hkey. by rewrite detect_remembered, decide_True. }
  split.
  { apply set_eq. intros k. rewrite detect_flags, elem_of_empty.
    unfold remembered. rewrite lookup_empty. simpl. tauto. }
  split.
  { rewrite detect_flags, detect_remembered. split.
    - intros (Hkey & Hold & Hne). rewrite decide_True in Hold, Hne by done.
      split; [done|].
      destruct (strictEq (useMarketData.priceOf d key) Undefined) eqn:Hnew.
      + split; [done|]. by apply strictEq_Undefined.
      + by rewrite strictEq_priceOf in Hne.
    - intros (Hkey & Hold & Hnew). rewrite decide_True by done.
      rewrite Hnew. simpl. split; [done|]. split; [done|].
      by destruct (remembered prev key). }
  intros w metals quotes e -> Hfail Hold.
  assert (useMarketData.priceOf (Prices.data (GET_api_prices w metals quotes).1) "gold"
          = Undefined) as Hnew.
  { rewrite GET_api_prices_unfold, Hfail. unfold pricesResponse; simpl.
    by destruct (processStocks _). }
  assert ("gold" ∈ useMarketData.tileKeys) as Hkey by (by left).
  split.
  - apply detect_flags. rewrite Hnew. split; [done|]. split; [done|].
    by destruct (remembered prev "gold").
  - by rewrite detect_remembered, decide_True, Hnew.
Qed.

Lemma animation_flags_witness :
  "gold" ∈ (useMarketData.detect {[ "gold" := Num 2000 ]}
              (Prices.data (GET_api_prices (boot Sample.env0 0) (Threw Sample.down)
                              Sample.quotesOk).1)).1.
Proof.
  refine (proj1 (proj2 (proj2 (proj2 (proj2
    (animation_flags {[ "gold" := Num 2000 ]}
       (Prices.data (GET_api_prices (boot Sample.env0 0) (Threw Sample.down)
                       Sample.quotesOk).1) "gold"))))
    (boot Sample.env0 0) (Threw Sample.down) Sample.quotesOk Sample.down
    eq_refl eq_refl _)).
  vm_compute. discriminate.
Defined.

(** ** The feeds of the widgets *)

Lemma newsEnvelope_failure (r : Settled (list Article)) (t : Z) :
  News.success (newsEnvelope r t) = false -> News.articles (newsEnvelope r t) = [].
Proof. by destruct r. Qed.

(** When the server answers a feed with [success: false], the widget keeps
    the articles it holds and its position, and sets its own fixed message
    as the error: the server's error text is not shown.  Holding an error,
    [NewsWidget] renders the empty state although it still has the
    articles.  This is so for [NewsWidget] on the inflation and gold feeds,
    for [HeadlinesWidget] and for the hook [useNews]. *)
Theorem failed_feed_keeps_articles_and_hides_them (w : World)
    (response : Try NewsApi.Data) :
  (forall (s : NewsWidget.State) body,
     body ∈ [ (GET_api_news_inflation w response).1; (GET_api_news_gold w response).1 ] ->
     News.success body = false ->
     let s' := NewsWidget.fetchArticles s (Returned body) in
     NewsWidget.articles s' = NewsWidget.articles s
     /\ NewsWidget.currentIndex s' = NewsWidget.currentIndex s
     /\ NewsWidget.error s' = Some "No recent articles found"
     /\ NewsWidget.render s' = NewsWidget.EmptyState)
  /\ (forall (s : HeadlinesWidget.State),
        let body := (GET_api_news_headlines w response).1 in
        Headlines.success body = false ->
        let s' := HeadlinesWidget.fetchHeadlines s (Returned body) in
        HeadlinesWidget.headlines s' = HeadlinesWidget.headlines s
        /\ HeadlinesWidget.currentPage s' = HeadlinesWidget.currentPage s
        /\ HeadlinesWidget.error s' = Some "No headlines found")
  /\ (forall (s : useNews.State),
        let body := (GET_api_news w response).1 in
        News.success body = false ->
        let s' := useNews.fetchNews s (Returned body) in
        useNews.headlines s' = useNews.headlines s
        /\ useNews.currentIndex s' = useNews.currentIndex s
        /\ useNews.error s' = Some "No news available").
Proof.
  split; [|split].
  - intros s body Hbody Hfail.
    assert (News.articles body = []) as Hempty.
    { apply elem_of_cons in Hbody as [->|Hbody];
        [|apply list_elem_of_singleton in Hbody as ->].
      - revert Hfail. unfold GET_api_news_inflation.
        destruct (fetchInflationNews w response); simpl. apply newsEnvelope_failure.
      - revert Hfail. unfold GET_api_news_gold.
        destruct (fetchGoldNews w response); simpl. apply newsEnvelope_failure. }
    simpl. unfold NewsWidget.fetchArticles, NewsWidget.render.
    rewrite Hfail, Hempty. done.
  - intros s body Hfail. subst body. revert Hfail. unfold GET_api_news_headlines.
    by destruct (fetchBullishHeadlines w response) as [[l|e] w'].
  - intros s body Hfail.
    assert (News.articles body = []) as Hempty.
    { subst body. revert Hfail. unfold GET_api_news.
      destruct (fetchNews w response); simpl. apply newsEnvelope_failure. }
    simpl. unfold useNews.fetchNews. rewrite Hfail, Hempty. done.
Qed.

Lemma failed_feed_keeps_articles_and_hides_them_witness :
  NewsWidget.render
    (NewsWidget.fetchArticles
       {| NewsWidget.articles := [projectArticle (Sample.article (Some "Gold rises") "u")];
          NewsWidget.currentIndex := 0; NewsWidget.loading := false;
          NewsWidget.error := None; NewsWidget.slideDirection := "" |}
       (Returned (GET_api_news_gold (boot Sample.env0 0) (Threw Sample.down)).1))
  = NewsWidget.EmptyState.
Proof.
  refine (proj2 (proj2 (proj2 (proj1
    (failed_feed_keeps_articles_and_hides_them (boot Sample.env0 0) (Threw Sample.down))
    _ (GET_api_news_gold (boot Sample.env0 0) (Threw Sample.down)).1 _ eq_refl)))).
  apply elem_of_cons. right. apply list_elem_of_singleton. reflexivity.
Defined.

(** ** The carousel of [NewsWidget] *)

Lemma length_slice0 (n : nat) (s : Utf16) :
  List.length (slice0 n s) = Nat.min n (List.length s).
Proof. unfold slice0. by rewrite length_take. Qed.

Lemma excerpt_length (description : Utf16) :
  (List.length (NewsWidget.excerpt description) <= 123)%nat.
Proof.
  unfold NewsWidget.excerpt. destruct (120 <? List.length description)%nat eqn:H.
  - rewrite length_app, length_slice0. change (List.length (utf16 "...")) with 3%nat. lia.
  - apply Nat.ltb_ge in H. lia.
Qed.

(** While the carousel points at one of its articles, it renders that
    article and never throws: the footer reads a position between 1 and the
    number of articles, and the excerpt has at most 123 UTF-16 code units,
    a description of at most 120 code units being shown whole.  The rotation
    set up for the articles it holds, and a click on the dot of any of
    them, leave it pointing at one of its articles once their timeouts have
    fired, with the same articles and no slide in progress. *)
Theorem carousel_stays_on_an_article (s : NewsWidget.State) :
  inRange s ->
  (NewsWidget.loading s = false -> truthy_str (NewsWidget.error s) = false ->
     exists article,
       NewsWidget.articles s !! NewsWidget.currentIndex s = Some article
       /\ NewsWidget.render s
          = NewsWidget.Card article
              (if truthy_text (description article)
               then NewsWidget.excerpt <$> description article else None)
              (NewsWidget.currentIndex s + 1) (List.length (NewsWidget.articles s))
       /\ (1 <= NewsWidget.currentIndex s + 1 <= List.length (NewsWidget.articles s))%nat
       /\ (forall d, description article = Some d ->
             (List.length (NewsWidget.excerpt d) <= 123)%nat
             /\ ((List.length d <= 120)%nat -> NewsWidget.excerpt d = d)))
  /\ (let s' := settle (NewsWidget.rotationTick (List.length (NewsWidget.articles s)) s) in
      inRange s' /\ NewsWidget.articles s' = NewsWidget.articles s
      /\ ((1 < List.length (NewsWidget.articles s))%nat ->
            NewsWidget.currentIndex s'
            = ((NewsWidget.currentIndex s + 1) mod List.length (NewsWidget.articles s))%nat
            /\ NewsWidget.slideDirection s' = ""))
  /\ (forall index, (index < List.length (NewsWidget.articles s))%nat ->
        let s' := settle (NewsWidget.goToSlide index s) in
        inRange s' /\ NewsWidget.articles s' = NewsWidget.articles s
        /\ (NewsWidget.slideDirection s = "" ->
              NewsWidget.currentIndex s' = index /\ NewsWidget.slideDirection s' = "")).
Proof.
  unfold inRange. intros Hin. split; [|split].
  - intros Hloaded Herror.
    destruct (lookup_lt_is_Some_2 _ _ Hin) as [article Harticle].
    exists article. split; [done|]. split.
    + unfold NewsWidget.render. rewrite Hloaded, Herror, Harticle. simpl.
      destruct (List.length (NewsWidget.articles s)) eqn:Hlen; [lia|done].
    + split; [lia|]. intros d _. split; [apply excerpt_length|].
      intros Hd. unfold NewsWidget.excerpt.
      by rewrite (proj2 (Nat.ltb_ge _ _)).
  - unfold NewsWidget.rotationTick.
    destruct (List.length (NewsWidget.articles s) <=? 1)%nat eqn:Hn; simpl.
    + split; [done|]. split; [done|]. apply Nat.leb_le in Hn. lia.
    + apply Nat.leb_gt in Hn. split; [|done].
      apply Nat.mod_upper_bound. lia.
  - intros index Hindex. unfold NewsWidget.goToSlide.
    destruct (index =? NewsWidget.currentIndex s)%nat eqn:Hsame; simpl.
    + split; [done|]. split; [done|]. intros Hslide.
      apply Nat.eqb_eq in Hsame. done.
    + destruct (NewsWidget.slideDirection s) as [|c sl] eqn:Hslide; simpl; [|done].
      done.
Qed.

Lemma carousel_stays_on_an_article_witness :
  inRange (settle (NewsWidget.goToSlide 1
    {| NewsWidget.articles := projectArticle <$> Sample.redacted;
       NewsWidget.currentIndex := 3; NewsWidget.loading := false;
       NewsWidget.error := None; NewsWidget.slideDirection := "" |})).
Proof.
  refine (proj1 (proj2 (proj2 (carousel_stays_on_an_article
    {| NewsWidget.articles := projectArticle <$> Sample.redacted;
       NewsWidget.currentIndex := 3; NewsWidget.loading := false;
       NewsWidget.error := None; NewsWidget.slideDirection := "" |} _)) 1%nat _)).
  - unfold inRange. simpl. lia.
  - simpl. lia.
Defined.

(** A refresh does not move the carousel.  When it brings fewer articles
    than the position the carousel is at, the component reads a property of
    [articles[currentIndex]], which is [undefined], and its render throws.
    Nothing resets the position before the next rotation, which brings it
    back among the articles; if a single article arrived, no rotation is set
    up.  The hook [useNews], which reads [headlines[currentIndex] || null],
    answers [null] in the same situation, until its next rotation. *)
Theorem shorter_refresh_breaks_the_carousel (s : NewsWidget.State) (result : News.Response) :
  News.success result = true ->
  (0 < List.length (News.articles result) <= NewsWidget.currentIndex s)%nat ->
  let n := List.length (News.articles result) in
  let s' := NewsWidget.fetchArticles s (Returned result) in
  NewsWidget.currentIndex s' = NewsWidget.currentIndex s
  /\ NewsWidget.articles s' = News.articles result
  /\ ~ inRange s'
  /\ NewsWidget.render s' = NewsWidget.TypeError
  /\ ((1 < n)%nat -> inRange (settle (NewsWidget.rotationTick n s')))
  /\ (n = 1%nat -> settle (NewsWidget.rotationTick n s') = s')
  /\ (forall h : useNews.State,
        useNews.currentIndex h = NewsWidget.currentIndex s ->
        let h' := useNews.fetchNews h (Returned result) in
        useNews.headline h' = None
        /\ ((1 < n)%nat -> is_Some (useNews.headline (useNews.rotate n h')))).
Proof.
  intros Hok [Hpos Hshort] n s'. subst s'.
  assert ((0 <? n)%nat = true) as Hlt by by apply Nat.ltb_lt.
  unfold NewsWidget.fetchArticles, NewsWidget.render, inRange. fold n.
  rewrite Hok, Hlt. simpl.
  split; [done|]. split; [done|]. split; [fold n; lia|]. split.
  { fold n. rewrite (proj2 (Nat.eqb_neq _ 0%nat)) by lia.
    by rewrite (lookup_ge_None_2 _ _ Hshort). }
  split.
  { intros Hn. unfold NewsWidget.rotationTick.
    rewrite (proj2 (Nat.leb_gt n 1)) by done. simpl. fold n.
    apply Nat.mod_upper_bound. lia. }
  split.
  { intros ->. done. }
  intros h Hh. unfold useNews.headline, useNews.fetchNews. fold n.
  rewrite Hok, Hlt. simpl. rewrite Hh. split; [by apply lookup_ge_None_2|].
  intros Hn. unfold useNews.rotate. rewrite (proj2 (Nat.leb_gt n 1)) by done. simpl.
  apply lookup_lt_is_Some_2. fold n. apply Nat.mod_upper_bound. lia.
Qed.

Lemma shorter_refresh_breaks_the_carousel_witness :
  NewsWidget.render
    (NewsWidget.fetchArticles
       {| NewsWidget.articles := projectArticle <$> Sample.redacted;
          NewsWidget.currentIndex := 3; NewsWidget.loading := false;
          NewsWidget.error := None; NewsWidget.slideDirection := "" |}
       (Returned (GET_api_news_gold (boot Sample.env0 0) Sample.newsOk).1))
  = NewsWidget.TypeError.
Proof.
  refine (proj1 (proj2 (proj2 (proj2 (shorter_refresh_breaks_the_carousel
    {| NewsWidget.articles := projectArticle <$> Sample.redacted;
       NewsWidget.currentIndex := 3; NewsWidget.loading := false;
       NewsWidget.error := None; NewsWidget.slideDirection := "" |}
    (GET_api_news_gold (boot Sample.env0 0) Sample.newsOk).1 eq_refl _))))).
  vm_compute. lia.
Defined.

(** ** The pages of [HeadlinesWidget] *)

Lemma pageOf_S (l : list Headline) (page : nat) :
  HeadlinesWidget.pageOf l (S page) = HeadlinesWidget.pageOf (drop 5 l) page.
Proof.
  unfold HeadlinesWidget.pageOf, HeadlinesWidget.HEADLINES_PER_PAGE.
  by rewrite drop_drop.
Qed.

Lemma pages_concat (k : nat) (l : list Headline) :
  (List.length l <= 5 * k)%nat ->
  List.concat (HeadlinesWidget.pageOf l <$> seq 0 k) = l.
Proof.
  revert l. induction k as [|k IH]; intros l Hl.
  - destruct l; [done|simpl in Hl; lia].
  - simpl seq. rewrite fmap_cons, <- fmap_S_seq, <- list_fmap_compose. simpl List.concat.
    rewrite (list_fmap_ext _ (HeadlinesWidget.pageOf (drop 5 l)) (seq 0 k))
      by (intros i x _; apply pageOf_S).
    rewrite IH by (rewrite length_drop; lia).
    unfold HeadlinesWidget.pageOf, HeadlinesWidget.HEADLINES_PER_PAGE. simpl drop.
    apply take_drop.
Qed.

Lemma totalPages_spec (s : HeadlinesWidget.State) :
  (List.length (HeadlinesWidget.headlines s) <= 5 * HeadlinesWidget.totalPages s
   < List.length (HeadlinesWidget.headlines s) + 5)%nat.
Proof.
  unfold HeadlinesWidget.totalPages, HeadlinesWidget.HEADLINES_PER_PAGE.
  pose proof (Nat.div_mod_eq (List.length (HeadlinesWidget.headlines s)) 5) as Hdiv.
  pose proof (Nat.mod_upper_bound (List.length (HeadlinesWidget.headlines s)) 5) as Hmod.
  destruct (_ mod 5 =? 0)%nat eqn:H0; [apply Nat.eqb_eq in H0|apply Nat.eqb_neq in H0]; lia.
Qed.

(** The pages of the headline list partition it: the pages [0] to
    [totalPages - 1], in order, make up the list, each of them holds between
    1 and 5 headlines, and any later page is empty (which is what the widget
    shows when a refresh leaves it on a page that no longer exists).  The
    rotation keeps the page below [totalPages], and against a running
    server, which sends at most 25 headlines, there are at most 5 pages. *)
Theorem headline_pages_partition_the_list (s : HeadlinesWidget.State) :
  let l := HeadlinesWidget.headlines s in
  let n := HeadlinesWidget.totalPages s in
  List.concat (HeadlinesWidget.pageOf l <$> seq 0 n) = l
  /\ (forall page, (page < n)%nat ->
        (1 <= List.length (HeadlinesWidget.pageOf l page) <= 5)%nat)
  /\ (forall page, (n <= page)%nat -> HeadlinesWidget.pageOf l page = [])
  /\ (forall prev, (1 < n)%nat -> (HeadlinesWidget.nextPage n prev < n)%nat)
  /\ (forall w response,
        reachable w ->
        l = Headlines.headlines (GET_api_news_headlines w response).1 ->
        (n <= 5)%nat).
Proof.
  intros l n. pose proof (totalPages_spec s) as Hn. fold l n in Hn.
  split; [apply pages_concat; lia|]. split; [|split; [|split]].
  - intros page Hpage. unfold HeadlinesWidget.pageOf, HeadlinesWidget.HEADLINES_PER_PAGE.
    rewrite length_take, length_drop. lia.
  - intros page Hpage. unfold HeadlinesWidget.pageOf, HeadlinesWidget.HEADLINES_PER_PAGE.
    rewrite drop_ge by lia. done.
  - intros prev Hrot. apply Nat.mod_upper_bound. lia.
  - intros w response Hw Hl.
    assert (List.length l <= 25)%nat as Hcap; [|lia].
    rewrite Hl. unfold GET_api_news_headlines.
    pose proof (fetchBullishHeadlines_fulfilled w response) as H.
    destruct (fetchBullishHeadlines w response) as [[h|e] w']; simpl in *; [|lia].
    destruct (H h (reachable_wellStored w Hw) eq_refl) as [raw ->].
    apply dedupHeadlines_capped.
Qed.

Lemma headline_pages_partition_the_list_witness :
  (HeadlinesWidget.totalPages
     {| HeadlinesWidget.headlines :=
          Headlines.headlines (GET_api_news_headlines (boot Sample.env0 0) Sample.newsOk).1;
        HeadlinesWidget.currentPage := 0; HeadlinesWidget.loading := false;
        HeadlinesWidget.error := None; HeadlinesWidget.slideDirection := "" |} <= 5)%nat.
Proof.
  exact (proj2 (proj2 (proj2 (proj2 (headline_pages_partition_the_list
    {| HeadlinesWidget.headlines :=
         Headlines.headlines (GET_api_news_headlines (boot Sample.env0 0) Sample.newsOk).1;
       HeadlinesWidget.currentPage := 0; HeadlinesWidget.loading := false;
       HeadlinesWidget.error := None; HeadlinesWidget.slideDirection := "" |}))))
    (boot Sample.env0 0) Sample.newsOk (reachable_boot _ _) eq_refl).
Defined.

(** ** [PerformanceChart] *)

Lemma colorOf_assetNames (n : string) (r : option Z) :
  n ∈ assetNames ->
  exists c, (n, c) ∈ PerformanceChart.colorMap
            /\ PerformanceChart.colorOf n = PerformanceChart.Css c
            /\ PerformanceChart.barColor
                 {| PerformanceChart.Asset.name := n;
                    PerformanceChart.Asset.returnPct := r;
                    PerformanceChart.Asset.color := Some (PerformanceChart.colorOf n) |}
               = PerformanceChart.Css c.
Proof.
  unfold assetNames. rewrite !elem_of_cons, elem_of_nil. intros H.
  repeat (destruct H as [->|H];
    [eexists; split; [|split; vm_compute; reflexivity];
     unfold PerformanceChart.colorMap; rewrite !elem_of_cons; tauto|]).
  done.
Qed.

(** What the chart does with an answer of the running server.  A
    [success: true] body replaces the bars by the server's records, which
    are between 2 and 8, have pairwise distinct names (the keys of the
    bars) and each get the colour of the colour map for their name, never
    the default.  A [success: false] body is silent: the chart keeps the
    bars it shows (the built-in fallback figures if nothing was fetched
    yet), sets no error and, loading being over, labels them as live
    data. *)
Theorem chart_shows_the_server_records (w : World) (up : PerformanceUpstream)
    (s : PerformanceChart.State) :
  reachable w ->
  let body := (GET_api_performance w up).1 in
  let s' := PerformanceChart.fetchPerformance s (Returned body) in
  PerformanceChart.error s' = PerformanceChart.error s
  /\ PerformanceChart.loading s' = false
  /\ String.prefix "*Live data from Yahoo Finance." (PerformanceChart.footnote s') = true
  /\ (Performance.success body = false ->
        PerformanceChart.assetData s' = PerformanceChart.assetData s)
  /\ (Performance.success body = true ->
        PerformanceChart.assetData s'
        = PerformanceChart.dataWithColors (Performance.data body)
        /\ PerformanceChart.Asset.name <$> PerformanceChart.assetData s'
           = name <$> Performance.data body
        /\ NoDup (PerformanceChart.Asset.name <$> PerformanceChart.assetData s')
        /\ (2 <= List.length (PerformanceChart.assetData s') <= 8)%nat
        /\ (forall a, a ∈ PerformanceChart.assetData s' ->
              exists c, (PerformanceChart.Asset.name a, c) ∈ PerformanceChart.colorMap
                        /\ PerformanceChart.Asset.color a = Some (PerformanceChart.Css c)
                        /\ PerformanceChart.barColor a = PerformanceChart.Css c)).
Proof.
  intros Hw body s'. subst s'. unfold PerformanceChart.fetchPerformance.
  destruct (Performance.success body) eqn:Hok; simpl.
  - subst body.
    destruct (GET_api_performance_data w up (reachable_wellStored w Hw) Hok) as [up' Hdata].
    destruct (assetData_hasEstimates up') as (_ & _ & Hlen).
    destruct (assetData_names up') as (names & Hperm & Hsub).
    rewrite Hdata in *. clear Hdata.
    rewrite (proj2 (Nat.ltb_lt 0 (List.length (assetData up')))) by lia. simpl.
    assert (PerformanceChart.Asset.name <$> PerformanceChart.dataWithColors (assetData up')
            = name <$> assetData up') as Hnames.
    { unfold PerformanceChart.dataWithColors. by rewrite <- list_fmap_compose. }
    repeat split; try done.
    + rewrite Hnames, Hperm. exact (sublist_NoDup _ _ assetNames_NoDup Hsub).
    + unfold PerformanceChart.dataWithColors. by rewrite length_fmap.
    + unfold PerformanceChart.dataWithColors. rewrite length_fmap.
      rewrite <- (length_fmap name), Hperm. apply (sublist_length _ _ Hsub).
    + intros a Ha. unfold PerformanceChart.dataWithColors in Ha.
      apply list_elem_of_fmap in Ha as (r & -> & Hr). simpl.
      destruct (colorOf_assetNames (name r) (jsonReturn (returnPct r))) as (c & Hc & Hcol & Hbar).
      { apply (sublist_subseteq _ _ Hsub). rewrite <- Hperm.
        apply list_elem_of_fmap. by exists r. }
      exists c. split; [done|]. split; [by rewrite Hcol|done].
  - repeat split; try done.
Qed.

Lemma chart_shows_the_server_records_witness :
  PerformanceChart.assetData
    (PerformanceChart.fetchPerformance PerformanceChart.initial
       (Returned (GET_api_performance (boot Sample.env0 0)
                    {| yahooFinance := Threw Sample.down;
                       history_gold := Threw Sample.down;
                       history_silver := Threw Sample.down;
                       history_sp500 := Threw Sample.down;
                       history_dow := Threw Sample.down;
                       history_realEstate := Threw Sample.down;
                       history_bonds := Threw Sample.down |}).1))
  = PerformanceChart.fallbackData.
Proof.
  exact (proj1 (proj2 (proj2 (proj2 (chart_shows_the_server_records (boot Sample.env0 0)
    {| yahooFinance := Threw Sample.down;
       history_gold := Threw Sample.down;
       history_silver := Threw Sample.down;
       history_sp500 := Threw Sample.down;
       history_dow := Threw Sample.down;
       history_realEstate := Threw Sample.down;
       history_bonds := Threw Sample.down |}
    PerformanceChart.initial (reachable_boot _ _))))) eq_refl).
Defined.

(** ** After the TTL *)

Lemma getStale_after (w : World) (k : Key) (v : ValueOf k) (ttl : option Z) (dt : nat) :
  NodeCache.getStale (cache (tick dt (cache_set w k v ttl))) k = Some v.
Proof.
  unfold NodeCache.getStale.
  change (NodeCache.data (cache (tick dt (cache_set w k v ttl))) k)
    with (entry (cache_set w k v ttl) k).
  by rewrite entry_cache_set_eq.
Qed.

Ltac lost_after f :=
  let Hmiss := fresh "Hmiss" in let Hful := fresh "Hful" in let Hreq := fresh "Hreq" in
  intros ? ? ? ? Hmiss Hful Hreq; unfold f in Hful |- *; rewrite Hmiss in Hful |- *;
  case_match; simpl in Hful;
  [ injection Hful as <-; cbn [fst snd]; rewrite cache_get_after, getStale_after;
    rewrite decide_True by (simpl; lia); cbn [env tick cache_set];
    cbn beta in Hreq; by rewrite Hreq
  | done ].

(** Once the TTL of a source has elapsed, the value it fetched is lost to a
    failure of the provider: every fetcher is then rejected with the
    provider's error and writes nothing, although the store still holds the
    value, which a read that ignores the TTL would return.  The fallback of
    the [catch] blocks recovers nothing, for any of the seven sources. *)
Theorem expired_value_is_lost_when_the_provider_fails (w : World) (dt : nat) :
  reachable w ->
  (CACHE_TTL (env w) < Z.of_nat dt ->
     lostAfter metals_prices fetchMetalsPrices metalsRequest w dt
     /\ lostAfter stock_indices fetchStockIndices (fun _ => stocksRequest) w dt)
  /\ (43200 < Z.of_nat dt -> lostAfter news fetchNews newsRequest w dt)
  /\ (600 < Z.of_nat dt ->
        lostAfter macro_news fetchMacroNews newsRequest w dt
        /\ lostAfter inflation_news fetchInflationNews newsRequest w dt
        /\ lostAfter gold_news fetchGoldNews newsRequest w dt
        /\ lostAfter bullish_headlines fetchBullishHeadlines newsRequest w dt).
Proof.
  intros Hstd%reachable_stdTTL.
  split; [intros Hdt; split|split; [intros Hdt|intros Hdt; split; [|split; [|split]]]];
    unfold lostAfter.
  - lost_after fetchMetalsPrices.
  - lost_after fetchStockIndices.
  - lost_after fetchNews.
  - lost_after fetchMacroNews.
  - lost_after fetchInflationNews.
  - lost_after fetchGoldNews.
  - lost_after fetchBullishHeadlines.
Qed.

Lemma expired_value_is_lost_when_the_provider_fails_witness :
  fetchMacroNews (tick 601 (fetchMacroNews (boot Sample.env0 0) Sample.newsOk).2)
    (Threw Sample.down)
  = (Rejected Sample.down, tick 601 (fetchMacroNews (boot Sample.env0 0) Sample.newsOk).2)
  /\ NodeCache.getStale
       (cache (tick 601 (fetchMacroNews (boot Sample.env0 0) Sample.newsOk).2)) macro_news
     = Some (dedupArticles Sample.redacted).
Proof.
  refine (proj1 (proj2 (proj2 (expired_value_is_lost_when_the_provider_fails
            (boot Sample.env0 0) 601 (reachable_boot _ _))) _)
          Sample.newsOk (Threw Sample.down) (dedupArticles Sample.redacted) Sample.down
          eq_refl eq_refl eq_refl).
  reflexivity.
Defined.

(** ** The metal tiles on the page *)

(** Whatever the market does, the page shows a gain on the gold and silver
    tiles: for every answer of [/api/prices] in which the metals fetch is
    fulfilled, [MarketWidget] renders the four tiles with the gold badge
    positive at [+0.2] percent and the silver badge positive at [+0.5]
    percent, the constants the handler writes.  When the metals fetch is
    rejected the two tiles show the placeholder ["--"] for the price and for
    the percent change, under the negative badge.  The skeleton is never
    rendered once an answer has arrived. *)
Theorem metal_tiles_always_show_a_gain (w : World) (metals : Try MetalsApi.Data)
    (quotes : Try (Yahoo.Quote * Yahoo.Quote)) (captured : option Prices.Data)
    (s : useMarketData.State) :
  let body := (GET_api_prices w metals quotes).1 in
  let s' := useMarketData.fetchData captured s (answered body) in
  exists gold silver sp500 dow,
    MarketWidget.render s' = Some [gold; silver; sp500; dow]
    /\ match (fetchMetalsPrices w metals).1 with
       | Fulfilled m =>
           PriceTile.percent gold = PriceTile.Percent "+" 0.2
           /\ PriceTile.badge gold = "tile-badge badge-positive"
           /\ PriceTile.percent silver = PriceTile.Percent "+" 0.5
           /\ PriceTile.badge silver = "tile-badge badge-positive"
           /\ PriceTile.priceValue gold
              = PriceTile.formatPrice
                  (from_option jsonNumber Null (Metals.price (Metals.gold m)))
           /\ PriceTile.priceValue silver
              = PriceTile.formatPrice
                  (from_option jsonNumber Null (Metals.price (Metals.silver m)))
       | Rejected _ =>
           PriceTile.priceValue gold = PriceTile.Dashes
           /\ PriceTile.percent gold = PriceTile.Dashes
           /\ PriceTile.badge gold = "tile-badge badge-negative"
           /\ PriceTile.priceValue silver = PriceTile.Dashes
           /\ PriceTile.percent silver = PriceTile.Dashes
           /\ PriceTile.badge silver = "tile-badge badge-negative"
       end.
Proof.
  intros body s'.
  destruct (GET_api_prices_lastUpdated w metals quotes) as [Hok _].
  assert (useMarketData.data s' = Some (Prices.data body)
          /\ useMarketData.loading s' = false) as [Hdata Hloading].
  { subst s'. by rewrite (fetchData_accepted _ _ _ body) by by apply accepted_answered. }
  eexists _, _, _, _. split.
  { unfold MarketWidget.render. by rewrite Hloading. }
  unfold MarketWidget.tile, MarketWidget.priceOf, MarketWidget.changePercentOf.
  rewrite Hdata. subst body. rewrite GET_api_prices_unfold.
  destruct (fetchMetalsPrices w metals) as [[m|e] w1]; simpl;
    unfold pricesResponse; simpl; destruct (processStocks _); simpl; done.
Qed.

(** ** The scale of the chart *)

Lemma maxReturn_bounds (assetData : list PerformanceChart.Asset.t) :
  1000 <= PerformanceChart.maxReturn assetData
  /\ (forall a z, a ∈ assetData -> PerformanceChart.Asset.returnPct a = Some z ->
        z <= PerformanceChart.maxReturn assetData).
Proof.
  unfold PerformanceChart.maxReturn.
  induction assetData as [|b l [IH1 IH2]]; rewrite ?fmap_cons; cbn [foldr].
  - split; [done|]. by intros a z ?%elem_of_nil.
  - split; [lia|]. intros a z [->|Ha]%elem_of_cons Hz.
    + unfold compose at 1. rewrite Hz. simpl default. lia.
    + specialize (IH2 a z Ha Hz). lia.
Qed.

(** The scale of the chart is at least 1000 and at least every return.  The
    grid lines are multiples of 200 between 0 and 2000, in increasing
    order, starting with 0 to 1000; up to a maximum of 2000 the top grid
    line is the least multiple of 200 that covers the maximum, and beyond
    2000 the grid stops at 2000, below the tallest bar. *)
Theorem chart_grid_covers_returns_up_to_2000 (assetData : list PerformanceChart.Asset.t) :
  let m := PerformanceChart.maxReturn assetData in
  1000 <= m
  /\ (forall a z, a ∈ assetData -> PerformanceChart.Asset.returnPct a = Some z -> z <= m)
  /\ StronglySorted Z.lt (PerformanceChart.gridLines m)
  /\ take 6 (PerformanceChart.gridLines m) = [0; 200; 400; 600; 800; 1000]
  /\ (forall v, v ∈ PerformanceChart.gridLines m -> 0 <= v <= 2000 /\ v mod 200 = 0)
  /\ (m <= 2000 ->
        exists top, last (PerformanceChart.gridLines m) = Some top
                    /\ m <= top < m + 200)
  /\ (2000 < m -> last (PerformanceChart.gridLines m) = Some 2000).
Proof.
  intros m. destruct (maxReturn_bounds assetData) as [Hmin Hmax]. fold m in Hmin, Hmax.
  split; [done|]. split; [done|]. clearbody m. clear Hmax.
  unfold PerformanceChart.gridLines.
  destruct (decide (1000 < m)) as [Hbig|Hsmall].
  - pose proof (Z.div_mod (- m) 200 ltac:(lia)) as Hdiv.
    pose proof (Z.mod_pos_bound (- m) 200 ltac:(lia)) as Hmod.
    set (extra := - (- m / 200) * 200) in *.
    assert (m <= extra < m + 200 /\ extra mod 200 = 0) as (Hextra & Hmul).
    { subst extra. split; [lia|]. apply Z.mod_mul. lia. }
    clearbody extra. clear Hdiv Hmod.
    rewrite !filter_cons, filter_nil.
    repeat case_decide; try lia; simpl.
    all: split; [repeat constructor; lia|].
    all: split; [done|].
    all: split;
      [intros v Hv; rewrite !elem_of_cons, elem_of_nil in Hv;
       repeat (destruct Hv as [->|Hv]; [done|]); done|].
    all: split; [intros Hm; eexists; split; [reflexivity|];
                 apply Z.mod_divide in Hmul as [q ->]; lia
                |intros Hm; first [reflexivity|lia]].
  - simpl. assert (m = 1000) as -> by lia.
    split; [repeat constructor; lia|]. split; [done|]. split.
    + intros v Hv. rewrite !elem_of_cons, elem_of_nil in Hv.
      repeat (destruct Hv as [->|Hv]; [done|]). done.
    + split; [|lia]. intros _. exists 1000. split; [done|lia].
Qed.

Lemma chart_grid_covers_returns_up_to_2000_witness :
  exists top, last (PerformanceChart.gridLines
                      (PerformanceChart.maxReturn PerformanceChart.fallbackData))
              = Some top
              /\ PerformanceChart.maxReturn PerformanceChart.fallbackData <= top
                 < PerformanceChart.maxReturn PerformanceChart.fallbackData + 200.
Proof.
  apply (chart_grid_covers_returns_up_to_2000 PerformanceChart.fallbackData).
  vm_compute. discriminate.
Defined.
